(** * tb-tsb-lib: the search box component

    A shallow embedding of
    [projects/tb-tsb-lib/src/lib/search-box/search-box.component.ts]:
    the component's fields become a record, its methods become functions in a
    small state monad over a "world" (the component, the JavaScript objects it
    shares with its host, and the trace of calls it makes to its
    collaborators), and the RxJS chain built in [ngOnInit] becomes a
    transition function on events. *)

From Stdlib Require Import String Ascii ZArith List Bool Lia DecimalString.
From stdpp Require Import base list.
Import ListNotations.
Local Open Scope string_scope.
Local Open Scope list_scope.

(** ** JavaScript values *)

Definition addr := nat.

Inductive jsval :=
| JUndefined
| JNull
| JBool (b : bool)
| JNum (n : Z)
| JStr (s : string)
| JRef (a : addr).

(** [x === y]: primitives by value, objects by identity. *)
Definition strict_eq (x y : jsval) : bool :=
  match x, y with
  | JUndefined, JUndefined => true
  | JNull, JNull => true
  | JBool a, JBool b => Bool.eqb a b
  | JNum a, JNum b => Z.eqb a b
  | JStr a, JStr b => String.eqb a b
  | JRef a, JRef b => Nat.eqb a b
  | _, _ => false
  end.

(** [isDefined] of [@angular/compiler/src/util]:
    [val !== null && val !== undefined]. *)
Definition isDefined (v : jsval) : bool :=
  negb (strict_eq v JNull) && negb (strict_eq v JUndefined).

(** [s.replace(/ /g, '')]: every U+0020 is removed, nothing else. *)
Fixpoint replace_spaces (s : string) : string :=
  match s with
  | EmptyString => EmptyString
  | String c s' =>
      if Ascii.eqb c " " then replace_spaces s' else String c (replace_spaces s')
  end.

(** ** Data model *)

(** [RepositoryItemModel], with the fields of the literal built in
    [keyDownEnter].  An absent property reads as [JUndefined]. *)
Record RepositoryItemModel := {
  occurenceId : jsval;
  repository : jsval;
  idNomen : jsval;
  idTaxo : jsval;
  name : jsval;
  author : jsval;
  isSynonym : jsval;
  validOccurence : jsval
}.

Definition set_occurenceId (v : jsval) (r : RepositoryItemModel) :=
  {| occurenceId := v; repository := repository r; idNomen := idNomen r;
     idTaxo := idTaxo r; name := name r; author := author r;
     isSynonym := isSynonym r; validOccurence := validOccurence r |}.

Definition set_repository (v : jsval) (r : RepositoryItemModel) :=
  {| occurenceId := occurenceId r; repository := v; idNomen := idNomen r;
     idTaxo := idTaxo r; name := name r; author := author r;
     isSynonym := isSynonym r; validOccurence := validOccurence r |}.

Definition set_name (v : jsval) (r : RepositoryItemModel) :=
  {| occurenceId := occurenceId r; repository := repository r; idNomen := idNomen r;
     idTaxo := idTaxo r; name := v; author := author r;
     isSynonym := isSynonym r; validOccurence := validOccurence r |}.

Definition set_validOccurence (v : jsval) (r : RepositoryItemModel) :=
  {| occurenceId := occurenceId r; repository := repository r; idNomen := idNomen r;
     idTaxo := idTaxo r; name := name r; author := author r;
     isSynonym := isSynonym r; validOccurence := v |}.

(** An array: the component never writes into one, it only replaces the
    array a field points to, so an array is its items and its identity. *)
Record jsarray := { arr_id : nat; arr_items : list addr }.

(** [a === b] on arrays. *)
Definition same_array (a b : jsarray) : bool := Nat.eqb (arr_id a) (arr_id b).

(** An entry of [listRepo]. *)
Record RepositoryDescriptor := { value : string; label : string }.

(** What the input control holds: the text typed, or the candidate picked in
    the autocomplete panel ("value could be a string or an object from
    Angular Material").  [typeof(value) === 'string'] and
    [typeof(value) === 'object'] are the two constructors. *)
Inductive input_value :=
| Text (s : string)
| Selected (a : addr).

(** [===] on what the control emits. *)
Definition same_input (x y : input_value) : bool :=
  match x, y with
  | Text a, Text b => String.eqb a b
  | Selected a, Selected b => Nat.eqb a b
  | _, _ => false
  end.

(** The [@Input()] options the methods below read. *)
Record config := {
  _allowEmptyRepository : bool;
  allowFreeValueIfNoResults : bool;
  autoComplete : bool;
  autoResetWhenSelected : bool;
  autoSelectValueIfOnlyOneResult : bool;
  attachRawData : bool;
  emitOccurenceOnBlur : bool;
  restoreRepositoryValueAfterEditing : bool
}.

(** [this.form]: the two controls. *)
Record FormGroup := {
  input_control : input_value;
  input_touched : bool;
  input_pristine : bool;
  repository_control : jsval
}.

(** The fields of [SearchBoxComponent].  [panelOpen] is
    [this.autocomplete.panelOpen]: the view owns it, the component reads it.
    [noOneRepositoryErrorMessage] keeps the repository the message names. *)
Record SearchBoxComponent := {
  inputs : config;
  placeholder : jsval;
  noOneRepositoryError : bool;
  noOneRepositoryErrorMessage : option jsval;
  form : FormGroup;
  dataFromRepo : jsarray;
  listRepo : list RepositoryDescriptor;
  currentRepository : jsval;
  lastUsedRepositoryValue : jsval;
  lastPlaceholderValue : jsval;
  isSearching : bool;
  isLoading : bool;
  isEditingData : bool;
  editingOccurenceId : jsval;
  panelOpen : bool
}.

(** Field assignments, [this.f = v]. *)

Definition with_placeholder (v : jsval) (c : SearchBoxComponent) :=
  {| inputs := inputs c; placeholder := v;
     noOneRepositoryError := noOneRepositoryError c;
     noOneRepositoryErrorMessage := noOneRepositoryErrorMessage c;
     form := form c; dataFromRepo := dataFromRepo c; listRepo := listRepo c;
     currentRepository := currentRepository c;
     lastUsedRepositoryValue := lastUsedRepositoryValue c;
     lastPlaceholderValue := lastPlaceholderValue c;
     isSearching := isSearching c; isLoading := isLoading c;
     isEditingData := isEditingData c;
     editingOccurenceId := editingOccurenceId c; panelOpen := panelOpen c |}.

Definition with_noOneRepositoryError (v : bool) (c : SearchBoxComponent) :=
  {| inputs := inputs c; placeholder := placeholder c;
     noOneRepositoryError := v;
     noOneRepositoryErrorMessage := noOneRepositoryErrorMessage c;
     form := form c; dataFromRepo := dataFromRepo c; listRepo := listRepo c;
     currentRepository := currentRepository c;
     lastUsedRepositoryValue := lastUsedRepositoryValue c;
     lastPlaceholderValue := lastPlaceholderValue c;
     isSearching := isSearching c; isLoading := isLoading c;
     isEditingData := isEditingData c;
     editingOccurenceId := editingOccurenceId c; panelOpen := panelOpen c |}.

Definition with_noOneRepositoryErrorMessage (v : option jsval) (c : SearchBoxComponent) :=
  {| inputs := inputs c; placeholder := placeholder c;
     noOneRepositoryError := noOneRepositoryError c;
     noOneRepositoryErrorMessage := v; form := form c;
     dataFromRepo := dataFromRepo c; listRepo := listRepo c;
     currentRepository := currentRepository c;
     lastUsedRepositoryValue := lastUsedRepositoryValue c;
     lastPlaceholderValue := lastPlaceholderValue c;
     isSearching := isSearching c; isLoading := isLoading c;
     isEditingData := isEditingData c;
     editingOccurenceId := editingOccurenceId c; panelOpen := panelOpen c |}.

Definition with_form (v : FormGroup) (c : SearchBoxComponent) :=
  {| inputs := inputs c; placeholder := placeholder c;
     noOneRepositoryError := noOneRepositoryError c;
     noOneRepositoryErrorMessage := noOneRepositoryErrorMessage c; form := v;
     dataFromRepo := dataFromRepo c; listRepo := listRepo c;
     currentRepository := currentRepository c;
     lastUsedRepositoryValue := lastUsedRepositoryValue c;
     lastPlaceholderValue := lastPlaceholderValue c;
     isSearching := isSearching c; isLoading := isLoading c;
     isEditingData := isEditingData c;
     editingOccurenceId := editingOccurenceId c; panelOpen := panelOpen c |}.

Definition with_dataFromRepo (v : jsarray) (c : SearchBoxComponent) :=
  {| inputs := inputs c; placeholder := placeholder c;
     noOneRepositoryError := noOneRepositoryError c;
     noOneRepositoryErrorMessage := noOneRepositoryErrorMessage c;
     form := form c; dataFromRepo := v; listRepo := listRepo c;
     currentRepository := currentRepository c;
     lastUsedRepositoryValue := lastUsedRepositoryValue c;
     lastPlaceholderValue := lastPlaceholderValue c;
     isSearching := isSearching c; isLoading := isLoading c;
     isEditingData := isEditingData c;
     editingOccurenceId := editingOccurenceId c; panelOpen := panelOpen c |}.

Definition with_listRepo (v : list RepositoryDescriptor) (c : SearchBoxComponent) :=
  {| inputs := inputs c; placeholder := placeholder c;
     noOneRepositoryError := noOneRepositoryError c;
     noOneRepositoryErrorMessage := noOneRepositoryErrorMessage c;
     form := form c; dataFromRepo := dataFromRepo c; listRepo := v;
     currentRepository := currentRepository c;
     lastUsedRepositoryValue := lastUsedRepositoryValue c;
     lastPlaceholderValue := lastPlaceholderValue c;
     isSearching := isSearching c; isLoading := isLoading c;
     isEditingData := isEditingData c;
     editingOccurenceId := editingOccurenceId c; panelOpen := panelOpen c |}.

Definition with_currentRepository (v : jsval) (c : SearchBoxComponent) :=
  {| inputs := inputs c; placeholder := placeholder c;
     noOneRepositoryError := noOneRepositoryError c;
     noOneRepositoryErrorMessage := noOneRepositoryErrorMessage c;
     form := form c; dataFromRepo := dataFromRepo c; listRepo := listRepo c;
     currentRepository := v;
     lastUsedRepositoryValue := lastUsedRepositoryValue c;
     lastPlaceholderValue := lastPlaceholderValue c;
     isSearching := isSearching c; isLoading := isLoading c;
     isEditingData := isEditingData c;
     editingOccurenceId := editingOccurenceId c; panelOpen := panelOpen c |}.

Definition with_isSearching (v : bool) (c : SearchBoxComponent) :=
  {| inputs := inputs c; placeholder := placeholder c;
     noOneRepositoryError := noOneRepositoryError c;
     noOneRepositoryErrorMessage := noOneRepositoryErrorMessage c;
     form := form c; dataFromRepo := dataFromRepo c; listRepo := listRepo c;
     currentRepository := currentRepository c;
     lastUsedRepositoryValue := lastUsedRepositoryValue c;
     lastPlaceholderValue := lastPlaceholderValue c; isSearching := v;
     isLoading := isLoading c; isEditingData := isEditingData c;
     editingOccurenceId := editingOccurenceId c; panelOpen := panelOpen c |}.

Definition with_isLoading (v : bool) (c : SearchBoxComponent) :=
  {| inputs := inputs c; placeholder := placeholder c;
     noOneRepositoryError := noOneRepositoryError c;
     noOneRepositoryErrorMessage := noOneRepositoryErrorMessage c;
     form := form c; dataFromRepo := dataFromRepo c; listRepo := listRepo c;
     currentRepository := currentRepository c;
     lastUsedRepositoryValue := lastUsedRepositoryValue c;
     lastPlaceholderValue := lastPlaceholderValue c;
     isSearching := isSearching c; isLoading := v;
     isEditingData := isEditingData c;
     editingOccurenceId := editingOccurenceId c; panelOpen := panelOpen c |}.

Definition with_isEditingData (v : bool) (c : SearchBoxComponent) :=
  {| inputs := inputs c; placeholder := placeholder c;
     noOneRepositoryError := noOneRepositoryError c;
     noOneRepositoryErrorMessage := noOneRepositoryErrorMessage c;
     form := form c; dataFromRepo := dataFromRepo c; listRepo := listRepo c;
     currentRepository := currentRepository c;
     lastUsedRepositoryValue := lastUsedRepositoryValue c;
     lastPlaceholderValue := lastPlaceholderValue c;
     isSearching := isSearching c; isLoading := isLoading c;
     isEditingData := v; editingOccurenceId := editingOccurenceId c;
     panelOpen := panelOpen c |}.

Definition with_editingOccurenceId (v : jsval) (c : SearchBoxComponent) :=
  {| inputs := inputs c; placeholder := placeholder c;
     noOneRepositoryError := noOneRepositoryError c;
     noOneRepositoryErrorMessage := noOneRepositoryErrorMessage c;
     form := form c; dataFromRepo := dataFromRepo c; listRepo := listRepo c;
     currentRepository := currentRepository c;
     lastUsedRepositoryValue := lastUsedRepositoryValue c;
     lastPlaceholderValue := lastPlaceholderValue c;
     isSearching := isSearching c; isLoading := isLoading c;
     isEditingData := isEditingData c; editingOccurenceId := v;
     panelOpen := panelOpen c |}.

Definition with_panelOpen (v : bool) (c : SearchBoxComponent) :=
  {| inputs := inputs c; placeholder := placeholder c;
     noOneRepositoryError := noOneRepositoryError c;
     noOneRepositoryErrorMessage := noOneRepositoryErrorMessage c;
     form := form c; dataFromRepo := dataFromRepo c; listRepo := listRepo c;
     currentRepository := currentRepository c;
     lastUsedRepositoryValue := lastUsedRepositoryValue c;
     lastPlaceholderValue := lastPlaceholderValue c;
     isSearching := isSearching c; isLoading := isLoading c;
     isEditingData := isEditingData c;
     editingOccurenceId := editingOccurenceId c; panelOpen := v |}.

(** ** The world the methods run in *)

(** Which emitter a pending [getValidOccurence] subscription will feed. *)
Inductive emitter := NewDataEmitter | UpdatedDataEmitter.

(** Calls the component makes to its collaborators, in the order it makes
    them: the [@Output()] emitters, the autocomplete trigger and the
    repository service. *)
Inductive effect :=
| NewData (v : jsval)
| UpdatedData (v : jsval)
| CancelUpdateData (occ : jsval)
| SelectedRepository (v : jsval)
| AllResults (results : jsarray)
| HttpError (e : string)
| OpenPanel
| ClosePanel
| FindDataFromRepoCall (id : nat) (repo : jsval) (text : string) (raw : bool)
| GetValidOccurenceCall (id : nat) (repo nomen taxo : jsval).

(** [heap] holds the [RepositoryItemModel] objects, an object's address being
    its index; [arrays] counts the arrays created so far;
    [validOccurenceRequests] holds the subscriptions of [getValidOccurence]
    still waiting for their answer. *)
Record world := {
  this : SearchBoxComponent;
  heap : list RepositoryItemModel;
  arrays : nat;
  validOccurenceRequests : list (option (emitter * addr));
  trace : list effect
}.

(** A run ends with a value and a state, or exhausts the call depth it was
    given, or follows a reference to no object (which JavaScript rules out). *)
Inductive outcome (S A : Type) :=
| Done (a : A) (s : S)
| OutOfFuel
| Stuck.
Arguments Done {S A} a s.
Arguments OutOfFuel {S A}.
Arguments Stuck {S A}.

Definition M (A : Type) : Type := world -> outcome world A.

Definition ret {A} (a : A) : M A := fun w => Done a w.

Definition bind {A B} (m : M A) (k : A -> M B) : M B :=
  fun w =>
    match m w with
    | Done a w' => k a w'
    | OutOfFuel => OutOfFuel
    | Stuck => Stuck
    end.

Declare Scope method_scope.
Delimit Scope method_scope with method.
Bind Scope method_scope with M.
Notation "x <- m ;; k" := (bind m (fun x => k))
  (at level 100, m at next level, k at level 200, right associativity)
  : method_scope.
Notation "m ;; k" := (bind m (fun _ => k))
  (at level 100, k at level 200, right associativity) : method_scope.
Local Open Scope method_scope.

Definition get : M SearchBoxComponent := fun w => Done (this w) w.

Definition assign (f : SearchBoxComponent -> SearchBoxComponent) : M unit :=
  fun w =>
    Done tt {| this := f (this w); heap := heap w; arrays := arrays w;
               validOccurenceRequests := validOccurenceRequests w;
               trace := trace w |}.

Definition call (e : effect) : M unit :=
  fun w =>
    Done tt {| this := this w; heap := heap w; arrays := arrays w;
               validOccurenceRequests := validOccurenceRequests w;
               trace := trace w ++ [e] |}.

(** An array literal: a new array, equal ([===]) to none made before. *)
Definition new_array (items : list addr) : M jsarray :=
  fun w =>
    Done {| arr_id := arrays w; arr_items := items |}
         {| this := this w; heap := heap w; arrays := S (arrays w);
            validOccurenceRequests := validOccurenceRequests w;
            trace := trace w |}.

(** An object literal, or [Object.assign({}, r)]: a new object. *)
Definition new_object (r : RepositoryItemModel) : M addr :=
  fun w =>
    Done (length (heap w))
         {| this := this w; heap := heap w ++ [r]; arrays := arrays w;
            validOccurenceRequests := validOccurenceRequests w;
            trace := trace w |}.

Definition read (a : addr) : M RepositoryItemModel :=
  fun w =>
    match heap w !! a with
    | Some r => Done r w
    | None => Stuck
    end.

(** [a.f = v], for the field [f] that [upd] sets. *)
Definition write (a : addr) (upd : RepositoryItemModel -> RepositoryItemModel) : M unit :=
  fun w =>
    match heap w !! a with
    | Some r =>
        Done tt {| this := this w; heap := <[a := upd r]> (heap w);
                   arrays := arrays w;
                   validOccurenceRequests := validOccurenceRequests w;
                   trace := trace w |}
    | None => Stuck
    end.

(** [service.getValidOccurence(repo, nomen, taxo).subscribe(cb)], [cb] being
    the callback that feeds [k] with [data]. *)
Definition subscribe_getValidOccurence (k : emitter) (data : addr)
    (repo nomen taxo : jsval) : M unit :=
  fun w =>
    Done tt {| this := this w; heap := heap w; arrays := arrays w;
               validOccurenceRequests := validOccurenceRequests w ++ [Some (k, data)];
               trace := trace w ++
                 [GetValidOccurenceCall (length (validOccurenceRequests w)) repo nomen taxo] |}.

Definition when (b : bool) (m : M unit) : M unit := if b then m else ret tt.

(** ** The methods *)

(** [this.dataFromRepo = []] *)
Definition clear_dataFromRepo : M unit :=
  a <- new_array [] ;; assign (with_dataFromRepo a).

Definition resetInput : M unit :=
  c <- get ;;
  if isEditingData c then ret tt
  else
    assign (fun c =>
      with_form {| input_control := Text ""; input_touched := false;
                   input_pristine := true;
                   repository_control := repository_control (form c) |} c).

(** The [forEach] of [setRepository]: every entry whose value is
    [repository] sets the current repository and the repository control
    (without emitting), and raises [foundedRepository]. *)
Fixpoint setRepository_forEach (l : list RepositoryDescriptor) (repository : jsval)
    (foundedRepository : bool) : M bool :=
  match l with
  | [] => ret foundedRepository
  | repo :: l' =>
      if strict_eq (JStr (value repo)) repository then
        assign (with_currentRepository repository) ;;
        assign (fun c =>
          with_form {| input_control := input_control (form c);
                       input_touched := input_touched (form c);
                       input_pristine := input_pristine (form c);
                       repository_control := JStr (value repo) |} c) ;;
        setRepository_forEach l' repository true
      else setRepository_forEach l' repository foundedRepository
  end.

(** [setRepository].  [depth] bounds the nesting of its calls to itself; the
    [console.log] after each of them is left out. *)
Fixpoint setRepository (depth : nat) (repository : jsval) : M unit :=
  match depth with
  | O => fun _ => OutOfFuel
  | S depth' =>
      c <- get ;;
      foundedRepository <- setRepository_forEach (listRepo c) repository false ;;
      if negb foundedRepository then
        c <- get ;;
        let availableRepo := listRepo c in
        if _allowEmptyRepository (inputs c) then
          setRepository depth' (JStr "otherunknown")
        else
          match availableRepo with
          | r0 :: _ => setRepository depth' (JStr (value r0))
          | [] =>
              assign (with_noOneRepositoryError true) ;;
              assign (with_noOneRepositoryErrorMessage (Some repository))
          end
      else ret tt
  end.

Section Methods.

(** The call depth granted to [setRepository]. *)
Variable depth : nat.

Definition stopEditingTaxo : M unit :=
  assign (with_isEditingData false) ;;
  assign (with_editingOccurenceId JNull) ;;
  assign (fun c => with_placeholder (lastPlaceholderValue c) c) ;;
  c <- get ;;
  when (restoreRepositoryValueAfterEditing (inputs c))
       (setRepository depth (lastUsedRepositoryValue c)) ;;
  call ClosePanel ;;
  clear_dataFromRepo.

Definition cancelEditingTaxo : M unit :=
  c <- get ;;
  call (CancelUpdateData (editingOccurenceId c)) ;;
  stopEditingTaxo ;;
  resetInput.

Definition checkAndEmitNewData (data : addr) : M unit :=
  d <- read data ;;
  if strict_eq (isSynonym d) (JBool true) && negb (isDefined (validOccurence d)) then
    subscribe_getValidOccurence NewDataEmitter data (repository d) (idNomen d) (idTaxo d)
  else if strict_eq (isSynonym d) (JBool true) && isDefined (validOccurence d) then
    call (NewData (JRef data))
  else if strict_eq (isSynonym d) (JBool false) then
    copy <- new_object d ;;
    write data (set_validOccurence (JRef copy)) ;;
    call (NewData (JRef data))
  else ret tt.

Definition checkAndEmitUpdatedData (data : addr) : M unit :=
  d <- read data ;;
  if strict_eq (isSynonym d) (JBool true) then
    subscribe_getValidOccurence UpdatedDataEmitter data (repository d) (idNomen d) (idTaxo d)
  else if strict_eq (isSynonym d) (JBool false) then
    copy <- new_object d ;;
    write data (set_validOccurence (JRef copy)) ;;
    call (UpdatedData (JRef data))
  else ret tt.

(** The callback both methods subscribe to [getValidOccurence]; [result]
    is what [standardizeValidOccurence(data.repository, result)] returns,
    a new object. *)
Definition validOccurence_callback (k : emitter) (data : addr)
    (result : RepositoryItemModel) : M unit :=
  validOcc <- new_object result ;;
  d <- read data ;;
  write validOcc (set_repository (repository d)) ;;
  write data (set_validOccurence (JRef validOcc)) ;;
  match k with
  | NewDataEmitter => call (NewData (JRef data))
  | UpdatedDataEmitter => call (UpdatedData (JRef data))
  end.

(** The test that opens [keyDownEnter]. *)
Definition freeValueAllowed (c : SearchBoxComponent) : bool :=
  (_allowEmptyRepository (inputs c)
     && strict_eq (currentRepository c) (JStr "otherunknown"))
  || (negb (strict_eq (currentRepository c) (JStr "otherunknown"))
        && allowFreeValueIfNoResults (inputs c)
        && Nat.eqb (length (arr_items (dataFromRepo c))) 0).

Definition keyDownEnter : M unit :=
  c <- get ;;
  if freeValueAllowed c then
    match input_control (form c) with
    | Selected _ => ret tt
    | Text s =>
        if String.eqb (replace_spaces s) "" then call (NewData JNull)
        else
          rimResponse <- new_object
            {| occurenceId := JNull; repository := JNull; idNomen := JNull;
               idTaxo := JNull; name := JNull; author := JNull;
               isSynonym := JBool false; validOccurence := JNull |} ;;
          (if isEditingData c then
             clear_dataFromRepo ;;
             updated <- new_object
               {| occurenceId := editingOccurenceId c;
                  repository := JStr "otherunknown"; idNomen := JNull;
                  idTaxo := JNull; name := JStr s; author := JNull;
                  isSynonym := JUndefined; validOccurence := JUndefined |} ;;
             call (UpdatedData (JRef updated)) ;;
             stopEditingTaxo
           else
             write rimResponse (set_name (JStr s)) ;;
             write rimResponse (set_repository (JStr "otherunknown")) ;;
             clear_dataFromRepo ;;
             call (NewData (JRef rimResponse))) ;;
          c <- get ;;
          when (autoResetWhenSelected (inputs c)) resetInput
    end
  else ret tt.

Definition onBlur : M unit :=
  c <- get ;;
  when (emitOccurenceOnBlur (inputs c) && negb (isEditingData c)) keyDownEnter.

(** *** [ngOnInit]: the watchers *)

(** The watcher of the repository control. *)
Definition repository_valueChanges (repoValue : jsval) : M unit :=
  assign (with_currentRepository repoValue) ;;
  c <- get ;;
  when (negb (isEditingData c)) (resetInput ;; clear_dataFromRepo) ;;
  call (SelectedRepository repoValue).

(** What the function given to [switchMap] returns: [of([])], or the
    observable of [findDataFromRepo], which sends its request once it is
    subscribed to. *)
Inductive observable :=
| Of (results : jsarray)
| FindDataFromRepo (repo : jsval) (text : string) (raw : bool).

(** The function given to [switchMap]. *)
Definition switchMap_project (v : input_value) : M observable :=
  c <- get ;;
  match v with
  | Text s =>
      if negb (strict_eq (currentRepository c) (JStr "otherunknown")) then
        if String.eqb (replace_spaces s) "" then
          clear_dataFromRepo ;;
          a <- new_array [] ;; ret (Of a)
        else
          assign (with_isLoading true) ;;
          ret (FindDataFromRepo (currentRepository c) s (attachRawData (inputs c)))
      else
        a <- new_array [] ;; ret (Of a)
  | Selected data =>
      write data (set_repository (currentRepository c)) ;;
      (if negb (isEditingData c) then
         clear_dataFromRepo ;;
         checkAndEmitNewData data
       else
         write data (set_occurenceId (editingOccurenceId c)) ;;
         clear_dataFromRepo ;;
         checkAndEmitUpdatedData data ;;
         stopEditingTaxo) ;;
      clear_dataFromRepo ;;
      assign (with_isLoading false) ;;
      assign (with_isSearching false) ;;
      when (autoResetWhenSelected (inputs c)) resetInput ;;
      a <- new_array [] ;; ret (Of a)
  end.

(** The [next] callback given to [subscribe]. *)
Definition subscribe_next (results : jsarray) : M unit :=
  empty <- new_array [] ;;
  if negb (same_array results empty) then
    call OpenPanel ;;
    assign (with_dataFromRepo results) ;;
    assign (with_isLoading false) ;;
    assign (with_isSearching false) ;;
    c <- get ;;
    (if autoComplete (inputs c) && autoSelectValueIfOnlyOneResult (inputs c)
          && Nat.eqb (length (arr_items (dataFromRepo c))) 1 then
       match arr_items (dataFromRepo c) !! 0%nat with
       | Some first =>
           if isEditingData c then
             checkAndEmitUpdatedData first ;;
             stopEditingTaxo
           else checkAndEmitNewData first
       | None => fun _ => Stuck
       end
     else if autoComplete (inputs c)
             && Nat.ltb 1 (length (arr_items (dataFromRepo c)))
             && isEditingData c then
       when (negb (panelOpen c)) (call OpenPanel)
     else ret tt) ;;
    c <- get ;;
    when (negb (autoComplete (inputs c)))
         (clear_dataFromRepo ;; call (AllResults results))
  else ret tt.

(** The [error] callback given to [subscribe]. *)
Definition subscribe_error (error : string) : M unit :=
  call (HttpError error).

End Methods.

(** *** [ngOnInit]: the chain of the second watcher

    [valueChanges.pipe(debounceTime(400)).pipe(distinctUntilChanged())
     .pipe(switchMap(...)).pipe(catchError(error => of([]))).subscribe(next, error)],
    each RxJS operator as the state it keeps and what it does with a
    notification. *)

Inductive notification :=
| Next (results : jsarray)
| Error (error : string)
| Complete.

(** [debounce_pending]: the value [debounceTime] holds back and the time left
    before it lets it through.  [distinct_last]: the last value
    [distinctUntilChanged] let through.  [switch_inner]: the lookup
    [switchMap] is subscribed to.  [lookups_issued]: how many lookups were
    sent, the next one's number.  [closed]: the subscription has ended. *)
Record pipeline := {
  debounce_pending : option (input_value * nat);
  distinct_last : option input_value;
  switch_inner : option nat;
  lookups_issued : nat;
  closed : bool
}.

Record system := { comp : world; rx : pipeline }.

Definition subscribed : pipeline :=
  {| debounce_pending := None; distinct_last := None; switch_inner := None;
     lookups_issued := 0; closed := false |}.

(** Runs a method on the component and keeps the chain as [p]. *)
Definition lift (m : M unit) (p : pipeline) (s : system) : outcome system unit :=
  match m (comp s) with
  | Done _ w => Done tt {| comp := w; rx := p |}
  | OutOfFuel => OutOfFuel
  | Stuck => Stuck
  end.

Section Chain.

Variable depth : nat.

(** [subscribe(next, error)] *)
Definition subscriber (n : notification) : M unit :=
  match n with
  | Next results => subscribe_next depth results
  | Error error => subscribe_error error
  | Complete => ret tt
  end.

(** [catchError(error => of([]))]: an error of the chain above is replaced by
    [of([])], which delivers an empty array and completes.  Returns whether
    the subscription is over. *)
Definition catchError (n : notification) : M bool :=
  match n with
  | Next results => subscriber (Next results) ;; ret false
  | Error _ =>
      a <- new_array [] ;;
      subscriber (Next a) ;;
      subscriber Complete ;;
      ret true
  | Complete => subscriber Complete ;; ret true
  end.

(** What is left of the chain once the subscription is over. *)
Definition teardown (p : pipeline) : pipeline :=
  {| debounce_pending := None; distinct_last := distinct_last p;
     switch_inner := None; lookups_issued := lookups_issued p; closed := true |}.

(** A notification of the observable [switchMap] is subscribed to. *)
Definition inner_notification (n : notification) (p : pipeline) (s : system)
    : outcome system unit :=
  match catchError n (comp s) with
  | Done over w => Done tt {| comp := w; rx := if over then teardown p else p |}
  | OutOfFuel => OutOfFuel
  | Stuck => Stuck
  end.

(** [switchMap]: the function is applied, the previous observable is
    unsubscribed from, the new one is subscribed to. *)
Definition switchMap (v : input_value) (s : system) : outcome system unit :=
  match switchMap_project depth v (comp s) with
  | Done (Of results) w =>
      inner_notification (Next results)
        {| debounce_pending := debounce_pending (rx s);
           distinct_last := distinct_last (rx s); switch_inner := None;
           lookups_issued := lookups_issued (rx s); closed := closed (rx s) |}
        {| comp := w; rx := rx s |}
  | Done (FindDataFromRepo repo text raw) w =>
      let id := lookups_issued (rx s) in
      lift (call (FindDataFromRepoCall id repo text raw))
        {| debounce_pending := debounce_pending (rx s);
           distinct_last := distinct_last (rx s); switch_inner := Some id;
           lookups_issued := S id; closed := closed (rx s) |}
        {| comp := w; rx := rx s |}
  | OutOfFuel => OutOfFuel
  | Stuck => Stuck
  end.

(** [distinctUntilChanged]: a value [===] to the last one let through is
    dropped. *)
Definition distinctUntilChanged (v : input_value) (s : system) : outcome system unit :=
  let pass :=
    switchMap v
      {| comp := comp s;
         rx := {| debounce_pending := debounce_pending (rx s);
                  distinct_last := Some v; switch_inner := switch_inner (rx s);
                  lookups_issued := lookups_issued (rx s);
                  closed := closed (rx s) |} |} in
  match distinct_last (rx s) with
  | Some last => if same_input last v then Done tt s else pass
  | None => pass
  end.

(** ** Events *)

(** What happens to the component: the input control takes a value, time
    passes, a lookup answers or fails, [getValidOccurence] answers, the
    repository control takes a value, the user presses Enter or leaves the
    input, the edition is cancelled, the view opens or closes the panel. *)
Inductive event :=
| InputChange (v : input_value)
| Elapse (ms : nat)
| LookupResponse (id : nat) (items : list RepositoryItemModel)
| LookupFailure (id : nat) (error : string)
| ValidOccurenceResponse (id : nat) (result : RepositoryItemModel)
| RepositoryChange (repoValue : jsval)
| KeyDownEnter
| Blur
| CancelEditing
| PanelState (open : bool).

(** The objects of a lookup's answer, and the array that holds them. *)
Fixpoint receive (items : list RepositoryItemModel) : M (list addr) :=
  match items with
  | [] => ret []
  | r :: items' =>
      a <- new_object r ;;
      l <- receive items' ;;
      ret (a :: l)
  end.

Definition step (e : event) (s : system) : outcome system unit :=
  let p := rx s in
  match e with
  | InputChange v =>
      (* the control holds [v]; first watcher; [debounceTime(400)] *)
      lift (assign (fun c =>
                      with_form {| input_control := v;
                                   input_touched := input_touched (form c);
                                   input_pristine := input_pristine (form c);
                                   repository_control := repository_control (form c) |} c) ;;
            assign (with_isSearching true))
           (if closed p then p
            else {| debounce_pending := Some (v, 400); distinct_last := distinct_last p;
                    switch_inner := switch_inner p;
                    lookups_issued := lookups_issued p; closed := closed p |})
           s
  | Elapse ms =>
      match debounce_pending p with
      | Some (v, wait) =>
          if Nat.leb wait ms then
            distinctUntilChanged v
              {| comp := comp s;
                 rx := {| debounce_pending := None; distinct_last := distinct_last p;
                          switch_inner := switch_inner p;
                          lookups_issued := lookups_issued p; closed := closed p |} |}
          else
            Done tt
              {| comp := comp s;
                 rx := {| debounce_pending := Some (v, wait - ms);
                          distinct_last := distinct_last p;
                          switch_inner := switch_inner p;
                          lookups_issued := lookups_issued p; closed := closed p |} |}
      | None => Done tt s
      end
  | LookupResponse id items =>
      match switch_inner p with
      | Some current =>
          if Nat.eqb id current then
            match (l <- receive items ;; new_array l) (comp s) with
            | Done results w =>
                inner_notification (Next results) p {| comp := w; rx := p |}
            | OutOfFuel => OutOfFuel
            | Stuck => Stuck
            end
          else Done tt s
      | None => Done tt s
      end
  | LookupFailure id error =>
      match switch_inner p with
      | Some current =>
          if Nat.eqb id current then inner_notification (Error error) p s
          else Done tt s
      | None => Done tt s
      end
  | ValidOccurenceResponse id result =>
      match validOccurenceRequests (comp s) !! id with
      | Some (Some (k, data)) =>
          lift (validOccurence_callback k data result ;;
                fun w => Done tt {| this := this w; heap := heap w; arrays := arrays w;
                                    validOccurenceRequests :=
                                      <[id := None]> (validOccurenceRequests w);
                                    trace := trace w |})
               p s
      | _ => Done tt s
      end
  | RepositoryChange repoValue =>
      (* the control holds [repoValue]; the watcher of the repository control *)
      lift (assign (fun c =>
                      with_form {| input_control := input_control (form c);
                                   input_touched := input_touched (form c);
                                   input_pristine := input_pristine (form c);
                                   repository_control := repoValue |} c) ;;
            repository_valueChanges repoValue)
           p s
  | KeyDownEnter => lift (keyDownEnter depth) p s
  | Blur => lift (onBlur depth) p s
  | CancelEditing => lift (cancelEditingTaxo depth) p s
  | PanelState open => lift (assign (with_panelOpen open)) p s
  end.

Fixpoint run (es : list event) (s : system) : outcome system unit :=
  match es with
  | [] => Done tt s
  | e :: es' =>
      match step e s with
      | Done _ s' => run es' s'
      | OutOfFuel => OutOfFuel
      | Stuck => Stuck
      end
  end.

End Chain.

(** ** Concrete states *)

(** The defaults of the [@Input()] options. *)
Definition default_inputs : config :=
  {| _allowEmptyRepository := true; allowFreeValueIfNoResults := true;
     autoComplete := true; autoResetWhenSelected := true;
     autoSelectValueIfOnlyOneResult := false; attachRawData := false;
     emitOccurenceOnBlur := false; restoreRepositoryValueAfterEditing := false |}.

(** The component as its field initializers and its constructor leave it. *)
Definition constructed : SearchBoxComponent :=
  {| inputs := default_inputs; placeholder := JStr "";
     noOneRepositoryError := false; noOneRepositoryErrorMessage := None;
     form := {| input_control := Text ""; input_touched := false;
                input_pristine := true; repository_control := JStr "" |};
     dataFromRepo := {| arr_id := 0; arr_items := [] |};
     listRepo := [ {| value := ""; label := "" |} ];
     currentRepository := JUndefined;
     lastUsedRepositoryValue := JUndefined;
     lastPlaceholderValue := JUndefined;
     isSearching := false; isLoading := false; isEditingData := false;
     editingOccurenceId := JUndefined; panelOpen := false |}.

(** The component with the options [i], the catalog [l] and the current
    repository [r]. *)
Definition configured (i : config) (l : list RepositoryDescriptor) (r : string)
    : SearchBoxComponent :=
  {| inputs := i; placeholder := JStr "";
     noOneRepositoryError := false; noOneRepositoryErrorMessage := None;
     form := {| input_control := Text ""; input_touched := false;
                input_pristine := true; repository_control := JStr r |};
     dataFromRepo := {| arr_id := 0; arr_items := [] |};
     listRepo := l;
     currentRepository := JStr r;
     lastUsedRepositoryValue := JUndefined;
     lastPlaceholderValue := JUndefined;
     isSearching := false; isLoading := false; isEditingData := false;
     editingOccurenceId := JUndefined; panelOpen := false |}.

Definition bdtfx_catalog : list RepositoryDescriptor :=
  [ {| value := "bdtfx"; label := "BDTFX" |};
    {| value := "otherunknown"; label := "Autre/inconnu" |} ].

(** A world around a component: the objects [h], nothing sent yet. *)
Definition world_of (c : SearchBoxComponent) (h : list RepositoryItemModel) : world :=
  {| this := c; heap := h; arrays := 1; validOccurenceRequests := []; trace := [] |}.

Definition system_of (c : SearchBoxComponent) (h : list RepositoryItemModel) : system :=
  {| comp := world_of c h; rx := subscribed |}.

(** A candidate as a lookup returns it. *)
Definition candidate (n : string) (synonym : bool) : RepositoryItemModel :=
  {| occurenceId := JUndefined; repository := JStr "bdtfx"; idNomen := JNum 101;
     idTaxo := JNum 202; name := JStr n; author := JStr "L.";
     isSynonym := JBool synonym; validOccurence := JUndefined |}.

(** The edition of occurrence [occ] has started. *)
Definition editing (occ : Z) (c : SearchBoxComponent) : SearchBoxComponent :=
  with_isEditingData true (with_editingOccurenceId (JNum occ) c).

(** ** Vocabulary of the statements *)

Definition with_this (c : SearchBoxComponent) (w : world) : world :=
  {| this := c; heap := heap w; arrays := arrays w;
     validOccurenceRequests := validOccurenceRequests w; trace := trace w |}.

(** [repository] is the value of an entry of the catalog. *)
Definition listed (repository : jsval) (l : list RepositoryDescriptor) : bool :=
  existsb (fun repo => strict_eq (JStr (value repo)) repository) l.

(** The catalog lists [otherunknown] whenever free entry is allowed, as
    [initRepo] leaves it. *)
Definition catalog_consistent (c : SearchBoxComponent) : Prop :=
  _allowEmptyRepository (inputs c) = true ->
  listed (JStr "otherunknown") (listRepo c) = true.

(** [repository] becomes the current repository and the value of the
    repository control. *)
Definition selectRepository (repository : jsval) (c : SearchBoxComponent)
    : SearchBoxComponent :=
  with_form {| input_control := input_control (form c);
               input_touched := input_touched (form c);
               input_pristine := input_pristine (form c);
               repository_control := repository |}
            (with_currentRepository repository c).

(** The contract of [setRepository] as the specification words it: the
    repository when the catalog lists it; on a miss [otherunknown] when free
    entry is allowed, otherwise the first entry of the catalog; the error flag
    when the catalog is empty. *)
Definition setRepository_contract (repository : jsval) (c : SearchBoxComponent)
    : SearchBoxComponent :=
  if listed repository (listRepo c) then selectRepository repository c
  else if _allowEmptyRepository (inputs c) then
    selectRepository (JStr "otherunknown") c
  else
    match listRepo c with
    | r0 :: _ => selectRepository (JStr (value r0)) c
    | [] =>
        with_noOneRepositoryErrorMessage (Some repository)
          (with_noOneRepositoryError true c)
    end.

(** Every character of [s] satisfies [p]. *)
Fixpoint string_forall (p : ascii -> bool) (s : string) : bool :=
  match s with
  | EmptyString => true
  | String c s' => p c && string_forall p s'
  end.

Definition is_space (c : ascii) : bool := Ascii.eqb c " ".

(** White space: space, tab, line feed, vertical tab, form feed, carriage
    return. *)
Definition is_whitespace (c : ascii) : bool :=
  let n := nat_of_ascii c in
  Nat.eqb n 32 || (Nat.leb 9 n && Nat.leb n 13).

Definition tab : string := String (ascii_of_nat 9) EmptyString.

(** How many lookups the trace sends to the repository service. *)
Fixpoint search_calls (t : list effect) : nat :=
  match t with
  | [] => 0
  | FindDataFromRepoCall _ _ _ _ :: t' => S (search_calls t')
  | _ :: t' => search_calls t'
  end.

(** Every array the component holds or is handed was made before now. *)
Definition array_known (a : jsarray) (w : world) : Prop := arr_id a < arrays w.

(** [copy] has the fields of [r], the link to its valid form apart. *)
Definition self_copy (copy r : RepositoryItemModel) : Prop :=
  occurenceId copy = occurenceId r
  /\ repository copy = repository r
  /\ idNomen copy = idNomen r
  /\ idTaxo copy = idTaxo r
  /\ name copy = name r
  /\ author copy = author r
  /\ isSynonym copy = isSynonym r.

(** The invariant of a record emitted as final, as the specification words
    it: a synonym carries a valid occurrence that is neither [null] nor
    [undefined]; a record that is not a synonym carries a copy of itself,
    another object, so that writing into the copy leaves the record as it
    is. *)
Definition final_record (h : list RepositoryItemModel) (a : addr) : Prop :=
  exists r,
    h !! a = Some r
    /\ (isSynonym r = JBool true -> isDefined (validOccurence r) = true)
    /\ (isSynonym r = JBool false ->
        exists c copy,
          validOccurence r = JRef c
          /\ c <> a
          /\ h !! c = Some copy
          /\ self_copy copy r
          /\ forall changed : RepositoryItemModel, <[c := changed]> h !! a = Some r).

(** Every record that [w'] has emitted since [w] through [newData] or
    [updatedData] satisfies the invariant. *)
Definition emits_final_records (w w' : world) : Prop :=
  exists emitted,
    trace w' = trace w ++ emitted
    /\ forall v, In (NewData v) emitted \/ In (UpdatedData v) emitted ->
         exists a, v = JRef a /\ final_record (heap w') a.

(** What the callback of [getValidOccurence] emits in the end. *)
Definition emission (k : emitter) (data : addr) : effect :=
  match k with
  | NewDataEmitter => NewData (JRef data)
  | UpdatedDataEmitter => UpdatedData (JRef data)
  end.

(** The input control holds [v]. *)
Definition holding (v : input_value) (c : SearchBoxComponent) : SearchBoxComponent :=
  with_form {| input_control := v; input_touched := input_touched (form c);
               input_pristine := input_pristine (form c);
               repository_control := repository_control (form c) |} c.

(** The candidate [d] once the selection has stamped it with the current
    repository and the occurrence being edited. *)
Definition stamped (c : SearchBoxComponent) (d : RepositoryItemModel)
    : RepositoryItemModel :=
  set_occurenceId (editingOccurenceId c) (set_repository (currentRepository c) d).


(** How many times the trace emits through [newData]. *)
Fixpoint newData_count (t : list effect) : nat :=
  match t with
  | [] => 0
  | NewData _ :: t' => S (newData_count t')
  | _ :: t' => newData_count t'
  end.

(** The lookup [switchMap] is subscribed to, if any, is the last one
    issued. *)
Definition latest_only (p : pipeline) : Prop :=
  forall id, switch_inner p = Some id -> S id = lookups_issued p.

(** [autoSelectValueIfOnlyOneResult] turned on. *)
Definition auto_select_inputs : config :=
  {| _allowEmptyRepository := true; allowFreeValueIfNoResults := true;
     autoComplete := true; autoResetWhenSelected := true;
     autoSelectValueIfOnlyOneResult := true; attachRawData := false;
     emitOccurenceOnBlur := false; restoreRepositoryValueAfterEditing := false |}.

(** The catalog [initRepo] builds: what [getRepoAccordingToLevel] returns
    (the catalog in place when it throws), with [otherunknown] pushed when
    free entry is allowed.  Nothing else in the component writes [listRepo]. *)
Definition initRepo_listRepo (fromService : option (list RepositoryDescriptor))
    (c : SearchBoxComponent) : list RepositoryDescriptor :=
  let l := match fromService with Some l => l | None => listRepo c end in
  if _allowEmptyRepository (inputs c)
  then l ++ [ {| value := "otherunknown"; label := "Autre/inconnu" |} ]
  else l.

(** ** The rest of the component

    The methods below read options that the record of the component does
    not hold ([editingPlaceholder], [startSearchAtEdit], [defaultRepository],
    [_fixedRepository], [_level]); they take them as arguments.  Calls that
    only reach the view ([taxoInput.nativeElement.focus()],
    [setValidators]) are left out. *)

Definition with_lastUsedRepositoryValue (v : jsval) (c : SearchBoxComponent) :=
  {| inputs := inputs c; placeholder := placeholder c;
     noOneRepositoryError := noOneRepositoryError c;
     noOneRepositoryErrorMessage := noOneRepositoryErrorMessage c;
     form := form c; dataFromRepo := dataFromRepo c; listRepo := listRepo c;
     currentRepository := currentRepository c; lastUsedRepositoryValue := v;
     lastPlaceholderValue := lastPlaceholderValue c;
     isSearching := isSearching c; isLoading := isLoading c;
     isEditingData := isEditingData c;
     editingOccurenceId := editingOccurenceId c; panelOpen := panelOpen c |}.

Definition with_lastPlaceholderValue (v : jsval) (c : SearchBoxComponent) :=
  {| inputs := inputs c; placeholder := placeholder c;
     noOneRepositoryError := noOneRepositoryError c;
     noOneRepositoryErrorMessage := noOneRepositoryErrorMessage c;
     form := form c; dataFromRepo := dataFromRepo c; listRepo := listRepo c;
     currentRepository := currentRepository c;
     lastUsedRepositoryValue := lastUsedRepositoryValue c;
     lastPlaceholderValue := v; isSearching := isSearching c;
     isLoading := isLoading c; isEditingData := isEditingData c;
     editingOccurenceId := editingOccurenceId c; panelOpen := panelOpen c |}.

(** Whether a value counts as true in a test. *)
Definition truthy (v : jsval) : bool :=
  match v with
  | JUndefined | JNull => false
  | JBool b => b
  | JNum n => negb (Z.eqb n 0)
  | JStr s => negb (String.eqb s "")
  | JRef _ => true
  end.

(** The string [+] makes of a value when its other operand is a string (a
    number being an integer, written in decimal). *)
Definition to_string (v : jsval) : string :=
  match v with
  | JUndefined => "undefined"
  | JNull => "null"
  | JBool true => "true"
  | JBool false => "false"
  | JNum n => NilZero.string_of_int (Z.to_int n)
  | JStr s => s
  | JRef _ => "[object Object]"
  end.

(** [value.author && value.author !== ''] *)
Definition has_author (r : RepositoryItemModel) : bool :=
  truthy (author r) && negb (strict_eq (author r) (JStr "")).

(** [displayInputWithAuthor], on the objects [h]; [None] for a reference to
    no object. *)
Definition displayInputWithAuthor (h : list RepositoryItemModel) (v : input_value)
    : option jsval :=
  match v with
  | Selected a =>
      match h !! a with
      | Some r =>
          Some (if has_author r
                then JStr ((to_string (name r) ++ " ") ++ to_string (author r))
                else name r)
      | None => None
      end
  | Text s => Some (JStr s)
  end.

Definition displayInputWithoutAuthor (h : list RepositoryItemModel) (v : input_value)
    : option jsval :=
  match v with
  | Selected a =>
      match h !! a with
      | Some r => Some (name r)
      | None => None
      end
  | Text s => Some (JStr s)
  end.

(** [inputPlaceholder], for the level [_level]. *)
Definition inputPlaceholder (_level : string) (c : SearchBoxComponent) : jsval :=
  let placeholder0 :=
    if String.eqb _level "idiotaxon" then JStr "Taxon"
    else if String.eqb _level "synusy" || String.eqb _level "microcenosis"
         then JStr "Syntaxon"
         else JUndefined in
  if negb (strict_eq (placeholder c) (JStr "")) then placeholder c
  else placeholder0.

(** The text [startEditingTaxo] puts in the input for [value]. *)
Definition startEditingTaxo_inputValue (value : RepositoryItemModel) : string :=
  if truthy (name value) && negb (strict_eq (name value) (JStr "")) then
    to_string (name value)
    ++ (if has_author value then " " ++ to_string (author value) else "")
  else "".

(** [startEditingTaxo]; returns the text it patches into the input.
    Whether the patch is emitted to the watchers is [updateData]'s part. *)
Definition startEditingTaxo (depth : nat) (editingPlaceholder : string)
    (value : RepositoryItemModel) : M string :=
  c <- get ;;
  when (isEditingData c) (cancelEditingTaxo depth) ;;
  assign (with_isEditingData true) ;;
  assign (with_editingOccurenceId (occurenceId value)) ;;
  assign (fun c => with_lastPlaceholderValue (placeholder c) c) ;;
  assign (with_placeholder (JStr editingPlaceholder)) ;;
  assign (fun c => with_lastUsedRepositoryValue (currentRepository c) c) ;;
  setRepository depth (repository value) ;;
  let inputValue := startEditingTaxo_inputValue value in
  assign (holding (Text inputValue)) ;;
  ret inputValue.

(** The setter of [updateData]: [startEditingTaxo] for a value that is an
    object, and, when [startSearchAtEdit] is on, the two watchers of the
    input on the text patched in. *)
Definition updateData (depth : nat) (editingPlaceholder : string)
    (startSearchAtEdit : bool) (value : option RepositoryItemModel) (s : system)
    : outcome system unit :=
  match value with
  | None => Done tt s
  | Some v =>
      match startEditingTaxo depth editingPlaceholder v (comp s) with
      | Done inputValue w =>
          let p := rx s in
          if startSearchAtEdit then
            lift (assign (with_isSearching true))
                 (if closed p then p
                  else {| debounce_pending := Some (Text inputValue, 400);
                          distinct_last := distinct_last p;
                          switch_inner := switch_inner p;
                          lookups_issued := lookups_issued p;
                          closed := closed p |})
                 {| comp := w; rx := p |}
          else Done tt {| comp := w; rx := p |}
      | OutOfFuel => OutOfFuel
      | Stuck => Stuck
      end
  end.

(** How a method that can throw ends. *)
Inductive completion := Returned | ThrewTypeError.

(** [form.controls.repository.setValue(v)]: the control takes the value and
    emits it; [watching] tells whether [ngOnInit] has subscribed the watcher
    of the repository control. *)
Definition repository_setValue (watching : bool) (v : jsval) : M unit :=
  assign (fun c =>
    with_form {| input_control := input_control (form c);
                 input_touched := input_touched (form c);
                 input_pristine := input_pristine (form c);
                 repository_control := v |} c) ;;
  when watching (repository_valueChanges v).

(** The first [forEach] of [initRepo]. *)
Fixpoint initRepo_forEach (watching : bool) (l : list RepositoryDescriptor)
    (defaultRepository : string) (defaultRepoHasBeenSet : bool) : M bool :=
  match l with
  | [] => ret defaultRepoHasBeenSet
  | repo :: l' =>
      if String.eqb (value repo) defaultRepository then
        assign (with_currentRepository (JStr defaultRepository)) ;;
        repository_setValue watching (JStr defaultRepository) ;;
        call (SelectedRepository (JStr defaultRepository)) ;;
        initRepo_forEach watching l' defaultRepository true
      else initRepo_forEach watching l' defaultRepository defaultRepoHasBeenSet
  end.

(** [initRepo].  [fromService] is what [getRepoAccordingToLevel(_level)]
    does: the catalog it returns, or the message it throws. *)
Definition initRepo (watching : bool) (fromService : string + list RepositoryDescriptor)
    (defaultRepository : string) (_fixedRepository : jsval) : M completion :=
  assign (with_noOneRepositoryError false) ;;
  match fromService with
  | inr l => assign (with_listRepo l)
  | inl e =>
      assign (with_noOneRepositoryError true) ;;
      assign (with_noOneRepositoryErrorMessage (Some (JStr e)))
  end ;;
  c <- get ;;
  when (_allowEmptyRepository (inputs c))
       (assign (with_listRepo
                  (listRepo c ++ [ {| value := "otherunknown";
                                      label := "Autre/inconnu" |} ]))) ;;
  c <- get ;;
  defaultRepoHasBeenSet <- initRepo_forEach watching (listRepo c) defaultRepository false ;;
  fallback <-
    (if negb defaultRepoHasBeenSet then
       match listRepo c with
       | firstAvailableRepo :: _ =>
           assign (with_currentRepository (JStr (value firstAvailableRepo))) ;;
           c <- get ;;
           repository_setValue watching (currentRepository c) ;;
           c <- get ;;
           call (SelectedRepository (currentRepository c)) ;;
           ret Returned
       | [] => ret ThrewTypeError
       end
     else ret Returned) ;;
  match fallback with
  | ThrewTypeError => ret ThrewTypeError
  | Returned =>
      if truthy _fixedRepository then
        c <- get ;;
        when (negb (listed _fixedRepository (listRepo c)))
             (assign (with_noOneRepositoryError true) ;;
              assign (with_noOneRepositoryErrorMessage (Some _fixedRepository))) ;;
        assign (with_currentRepository _fixedRepository) ;;
        repository_setValue watching _fixedRepository ;;
        ret Returned
      else ret Returned
  end.

(** [resetComponent] *)
Definition resetComponent (depth : nat) (watching : bool)
    (fromService : string + list RepositoryDescriptor)
    (defaultRepository : string) (_fixedRepository : jsval) : M completion :=
  c <- get ;;
  when (isEditingData c) (stopEditingTaxo depth) ;;
  r <- initRepo watching fromService defaultRepository _fixedRepository ;;
  match r with
  | ThrewTypeError => ret ThrewTypeError
  | Returned =>
      assign (fun c =>
        with_form {| input_control := Text ""; input_touched := false;
                     input_pristine := true;
                     repository_control := repository_control (form c) |} c) ;;
      ret Returned
  end.

(** What [getRepoAccordingToLevel] does, as [initRepo_listRepo] takes it. *)
Definition catalog_of (fromService : string + list RepositoryDescriptor)
    : option (list RepositoryDescriptor) :=
  match fromService with inr l => Some l | inl _ => None end.


(** What [startEditingTaxo] writes before it turns to the repository: the
    edition flags, the placeholder and the repository in use saved, the
    placeholder of the edition shown. *)
Definition started (editingPlaceholder : string) (value : RepositoryItemModel)
    (c : SearchBoxComponent) : SearchBoxComponent :=
  with_lastUsedRepositoryValue (currentRepository c)
    (with_placeholder (JStr editingPlaceholder)
       (with_lastPlaceholderValue (placeholder c)
          (with_editingOccurenceId (occurenceId value)
             (with_isEditingData true c)))).

(** The component an edition of [value] starts with, when none was going
    on. *)
Definition editing_of (editingPlaceholder : string) (value : RepositoryItemModel)
    (c : SearchBoxComponent) : SearchBoxComponent :=
  holding (Text (startEditingTaxo_inputValue value))
    (setRepository_contract (repository value) (started editingPlaceholder value c)).

(** The component [stopEditingTaxo] leaves, [a] being the new, empty
    candidate buffer. *)
Definition stopped (a : jsarray) (c : SearchBoxComponent) : SearchBoxComponent :=
  with_dataFromRepo a
    ((if restoreRepositoryValueAfterEditing (inputs c)
      then setRepository_contract (lastUsedRepositoryValue c)
      else fun c => c)
       (with_placeholder (lastPlaceholderValue c)
          (with_editingOccurenceId JNull (with_isEditingData false c)))).

(** The input control emptied by [reset('')]. *)
Definition input_reset (c : SearchBoxComponent) : SearchBoxComponent :=
  with_form {| input_control := Text ""; input_touched := false;
               input_pristine := true;
               repository_control := repository_control (form c) |} c.

(** The effect is an emission of [selectedRepository]. *)
Definition announcement (e : effect) : Prop := exists v, e = SelectedRepository v.

(** From [c] to [c'] the options and the edition are the same. *)
Definition same_session (c c' : SearchBoxComponent) : Prop :=
  inputs c' = inputs c
  /\ isEditingData c' = isEditingData c
  /\ editingOccurenceId c' = editingOccurenceId c.

(** The method always ends, touches no object and no subscription of
    [getValidOccurence], leaves the options and the edition as they are, and
    calls nothing but [selectedRepository]. *)
Definition only_announces {A} (m : M A) : Prop :=
  forall w : world,
    exists (a : A) (w' : world),
      m w = Done a w'
      /\ heap w' = heap w
      /\ validOccurenceRequests w' = validOccurenceRequests w
      /\ same_session (this w) (this w')
      /\ exists said, trace w' = trace w ++ said /\ Forall announcement said.

(** How many entries of the catalog have the default repository for value. *)
Definition default_matches (defaultRepository : string)
    (l : list RepositoryDescriptor) : nat :=
  length (filter (fun repo => String.eqb (value repo) defaultRepository) l).

(** Whether [getRepoAccordingToLevel] threw. *)
Definition service_failed (fromService : string + list RepositoryDescriptor) : bool :=
  match fromService with inl _ => true | inr _ => false end.

(** The method always ends, with a value that satisfies [P], and leaves the
    catalog and the options as they are. *)
Definition steady {A} (P : A -> Prop) (m : M A) : Prop :=
  forall w : world,
    exists (a : A) (w' : world),
      m w = Done a w'
      /\ P a
      /\ listRepo (this w') = listRepo (this w)
      /\ inputs (this w') = inputs (this w).

(** The component once [initRepo] has lowered the error flag, asked the
    service for the catalog and pushed [otherunknown]. *)
Definition prepared (fromService : string + list RepositoryDescriptor)
    (c : SearchBoxComponent) : SearchBoxComponent :=
  let c0 :=
    match fromService with
    | inr l => with_listRepo l (with_noOneRepositoryError false c)
    | inl e =>
        with_noOneRepositoryErrorMessage (Some (JStr e))
          (with_noOneRepositoryError true (with_noOneRepositoryError false c))
    end in
  if _allowEmptyRepository (inputs c0)
  then with_listRepo (listRepo c0 ++ [ {| value := "otherunknown";
                                          label := "Autre/inconnu" |} ]) c0
  else c0.

(** What [initRepo] does once the catalog is ready. *)
Definition initRepo_resolve (watching : bool) (defaultRepository : string)
    (_fixedRepository : jsval) : M completion :=
  c <- get ;;
  defaultRepoHasBeenSet <- initRepo_forEach watching (listRepo c) defaultRepository false ;;
  fallback <-
    (if negb defaultRepoHasBeenSet then
       match listRepo c with
       | firstAvailableRepo :: _ =>
           assign (with_currentRepository (JStr (value firstAvailableRepo))) ;;
           c <- get ;;
           repository_setValue watching (currentRepository c) ;;
           c <- get ;;
           call (SelectedRepository (currentRepository c)) ;;
           ret Returned
       | [] => ret ThrewTypeError
       end
     else ret Returned) ;;
  match fallback with
  | ThrewTypeError => ret ThrewTypeError
  | Returned =>
      if truthy _fixedRepository then
        c <- get ;;
        when (negb (listed _fixedRepository (listRepo c)))
             (assign (with_noOneRepositoryError true) ;;
              assign (with_noOneRepositoryErrorMessage (Some _fixedRepository))) ;;
        assign (with_currentRepository _fixedRepository) ;;
        repository_setValue watching _fixedRepository ;;
        ret Returned
      else ret Returned
  end.

(** From [w] to [w'] the repository [v] has been chosen: it is the current
    repository and the value of the repository control; the input and the
    candidate buffer have been emptied if the watcher of the repository
    control ran outside an edition, and are as they were otherwise. *)
Definition chose (watching : bool) (v : jsval) (w w' : world) : Prop :=
  currentRepository (this w') = v
  /\ repository_control (form (this w')) = v
  /\ input_control (form (this w'))
     = (if negb watching || isEditingData (this w)
        then input_control (form (this w)) else Text "")
  /\ arr_items (dataFromRepo (this w'))
     = (if negb watching || isEditingData (this w)
        then arr_items (dataFromRepo (this w)) else [])
  /\ listRepo (this w') = listRepo (this w)
  /\ inputs (this w') = inputs (this w)
  /\ isEditingData (this w') = isEditingData (this w).

(** The repository [initRepo] turns to before it looks at the fixed one: the
    default repository if the catalog lists it, else the first entry. *)
Definition initRepo_preferred (defaultRepository : string)
    (l : list RepositoryDescriptor) : jsval :=
  if listed (JStr defaultRepository) l then JStr defaultRepository
  else match l with
       | firstAvailableRepo :: _ => JStr (value firstAvailableRepo)
       | [] => JUndefined
       end.

(** How many times [initRepo] calls [selectedRepository.next] itself. *)
Definition initRepo_announcements (defaultRepository : string)
    (l : list RepositoryDescriptor) : nat :=
  if listed (JStr defaultRepository) l then default_matches defaultRepository l
  else 1.

(** The beginning of [ngOnInit], up to the subscriptions: [initRepo], whose
    calls of [setValue] no watcher hears yet, then the value to start with.
    [repoIds] is [listAllRepositories().map(r => r.id)]; [startWithValue]
    gives the repository and the name of the value, a string as
    [RepositoryItemModel] declares it.  The call of
    [setTbRepositoriesConfig] is left to the service. *)
Definition ngOnInit_start (fromService : string + list RepositoryDescriptor)
    (defaultRepository : string) (_fixedRepository : jsval)
    (repoIds : list jsval) (startWithValue : option (jsval * string))
    : M completion :=
  r <- initRepo false fromService defaultRepository _fixedRepository ;;
  match r with
  | ThrewTypeError => ret ThrewTypeError
  | Returned =>
      match startWithValue with
      | Some (repository, name) =>
          c <- get ;;
          when (existsb (fun id => strict_eq id repository) repoIds
                || (strict_eq repository (JStr "otherunknown")
                    && _allowEmptyRepository (inputs c)))
               (assign (fun c =>
                  with_form {| input_control := input_control (form c);
                               input_touched := input_touched (form c);
                               input_pristine := input_pristine (form c);
                               repository_control := repository |} c) ;;
                assign (fun c =>
                  with_form {| input_control := Text name;
                               input_touched := input_touched (form c);
                               input_pristine := input_pristine (form c);
                               repository_control := repository_control (form c) |} c)) ;;
          ret Returned
      | None => ret Returned
      end
  end.

(** The test [ngOnInit] makes on the repository of the value to start
    with. *)
Definition start_value_accepted (repoIds : list jsval) (repository : jsval)
    (c : SearchBoxComponent) : bool :=
  existsb (fun id => strict_eq id repository) repoIds
  || (strict_eq repository (JStr "otherunknown")
      && _allowEmptyRepository (inputs c)).

(** ** What the subscribers of [newData] and [updatedData] see

    [EventEmitter.next(data)] calls the subscribers at once: they are handed
    the object as it is at that moment, and the component is as it is at
    that moment.  The methods below are the emitting methods again, each
    returning, besides what it does to the world, what the subscribers were
    shown at every emission. *)









(** * Properties *)

(** Reads the fields of a world that is written out. *)
Ltac fields := cbn [this heap arrays validOccurenceRequests trace].

Lemma strict_eq_true (x y : jsval) : strict_eq x y = true <-> x = y.
Proof.
  destruct x, y; simpl; split; intros H; try discriminate; try reflexivity;
    try (inversion H; subst).
  - apply Bool.eqb_prop in H. now subst.
  - apply Bool.eqb_reflx.
  - apply Z.eqb_eq in H. now subst.
  - apply Z.eqb_refl.
  - apply String.eqb_eq in H. now subst.
  - apply String.eqb_refl.
  - apply Nat.eqb_eq in H. now subst.
  - apply Nat.eqb_refl.
Qed.

Lemma strict_eq_refl (x : jsval) : strict_eq x x = true.
Proof. now apply strict_eq_true. Qed.

Lemma with_this_this (w : world) : with_this (this w) w = w.
Proof. now destruct w. Qed.

(** ** [setRepository] *)

Lemma setRepository_forEach_spec (l : list RepositoryDescriptor) (repository : jsval) :
  forall (b : bool) (w : world),
    setRepository_forEach l repository b w
    = Done (b || listed repository l)
           (if listed repository l
            then with_this (selectRepository repository (this w)) w
            else w).
Proof.
  induction l as [|repo l IH]; intros b w;
    cbn [setRepository_forEach listed existsb].
  - now rewrite orb_false_r.
  - fold (listed repository l).
    destruct (strict_eq (JStr (value repo)) repository) eqn:E.
    + apply strict_eq_true in E. subst repository.
      unfold bind, assign. rewrite IH. cbn [orb].
      rewrite orb_true_r. f_equal.
      now destruct (listed (JStr (value repo)) l).
    + apply IH.
Qed.

Lemma setRepository_hit (depth : nat) (repository : jsval) (w : world) :
  listed repository (listRepo (this w)) = true ->
  setRepository (S depth) repository w
  = Done tt (with_this (selectRepository repository (this w)) w).
Proof.
  intros H. simpl. unfold bind, get.
  rewrite setRepository_forEach_spec, H. reflexivity.
Qed.

Lemma listed_head (r0 : RepositoryDescriptor) (l : list RepositoryDescriptor) :
  listed (JStr (value r0)) (r0 :: l) = true.
Proof. cbn [listed existsb]. now rewrite strict_eq_refl. Qed.

Lemma listed_app (repository : jsval) (l l' : list RepositoryDescriptor) :
  listed repository (l ++ l') = listed repository l || listed repository l'.
Proof. unfold listed. apply existsb_app. Qed.

(** [initRepo] leaves a consistent catalog. *)
Lemma initRepo_consistent (fromService : option (list RepositoryDescriptor))
    (c : SearchBoxComponent) :
  catalog_consistent (with_listRepo (initRepo_listRepo fromService c) c).
Proof.
  unfold catalog_consistent, initRepo_listRepo. cbn [inputs listRepo with_listRepo].
  intros ->. rewrite listed_app. apply orb_true_r.
Qed.

(** With at least two levels of calls [setRepository] does what its contract
    says, on a catalog that lists [otherunknown] whenever free entry is
    allowed. *)
Lemma setRepository_returns (depth : nat) (repository : jsval) (w : world) :
  catalog_consistent (this w) ->
  setRepository (S (S depth)) repository w
  = Done tt (with_this (setRepository_contract repository (this w)) w).
Proof.
  intros Hc. unfold setRepository_contract.
  destruct (listed repository (listRepo (this w))) eqn:Hl.
  - now apply setRepository_hit.
  - cbn [setRepository]. unfold bind at 1 2. unfold get at 1.
    rewrite setRepository_forEach_spec, Hl. cbn [negb orb].
    unfold bind at 1. unfold get at 1.
    destruct (_allowEmptyRepository (inputs (this w))) eqn:Ha.
    + apply setRepository_hit. now apply Hc.
    + destruct (listRepo (this w)) as [|r0 l] eqn:Hr.
      * reflexivity.
      * apply setRepository_hit. rewrite Hr. apply listed_head.
Qed.

(** C8, as amended: on a catalog that lists [otherunknown] whenever free
    entry is allowed, [setRepository] returns for every repository id, with
    at most one call to itself, and does what its contract says: the
    repository when listed, else [otherunknown] when free entry is allowed,
    else the first entry of the catalog, else (empty catalog) the error flag.
    Nothing but the component changes. *)
Theorem setRepository_terminates (depth : nat) (repository : jsval) (w : world) :
  catalog_consistent (this w) ->
  2 <= depth ->
  setRepository depth repository w
  = Done tt (with_this (setRepository_contract repository (this w)) w).
Proof.
  intros Hc Hd.
  destruct depth as [|[|depth]]; try lia.
  unfold setRepository_contract.
  destruct (listed repository (listRepo (this w))) eqn:Hl.
  - now apply setRepository_hit.
  - cbn [setRepository]. unfold bind at 1 2. unfold get at 1.
    rewrite setRepository_forEach_spec, Hl. cbn [negb orb].
    unfold bind at 1. unfold get at 1.
    destruct (_allowEmptyRepository (inputs (this w))) eqn:Ha.
    + apply setRepository_hit. now apply Hc.
    + destruct (listRepo (this w)) as [|r0 l] eqn:Hr.
      * reflexivity.
      * apply setRepository_hit. rewrite Hr. apply listed_head.
Qed.

Lemma setRepository_terminates_witness :
  setRepository 2 (JStr "bdtnx")
    (world_of (configured default_inputs bdtfx_catalog "bdtfx") [])
  = Done tt
      (world_of (configured default_inputs bdtfx_catalog "otherunknown") []).
Proof.
  apply (setRepository_terminates 2 (JStr "bdtnx")
           (world_of (configured default_inputs bdtfx_catalog "bdtfx") [])).
  - intros _. reflexivity.
  - lia.
Defined.

Lemma setRepository_loops (w : world) :
  _allowEmptyRepository (inputs (this w)) = true ->
  listed (JStr "otherunknown") (listRepo (this w)) = false ->
  forall (depth : nat) (repository : jsval),
    listed repository (listRepo (this w)) = false ->
    setRepository depth repository w = OutOfFuel.
Proof.
  intros Ha Ho depth. induction depth as [|depth IH]; intros repository Hl.
  - reflexivity.
  - cbn [setRepository]. unfold bind at 1 2. unfold get at 1.
    rewrite setRepository_forEach_spec, Hl. cbn [negb orb].
    unfold bind at 1. unfold get at 1. rewrite Ha.
    now apply IH.
Qed.

(** C8, as stated, fails: on the component as constructed (free entry
    allowed, [otherunknown] not in the catalog) no call depth lets
    [setRepository('bdtfx')] return. *)
Lemma setRepository_never_returns :
  ~ exists (depth : nat) (w' : world),
      setRepository depth (JStr "bdtfx") (world_of constructed []) = Done tt w'.
Proof.
  intros (depth & w' & H).
  rewrite (setRepository_loops (world_of constructed [])) in H;
    [discriminate | reflexivity ..].
Qed.

(** ** [keyDownEnter] on a selected candidate *)

(** C10: when the test of [keyDownEnter] holds and the input control holds a
    selected candidate, not a text, [keyDownEnter] returns at once: nothing is
    emitted and nothing changes. *)
Theorem keyDownEnter_on_selected_candidate (depth : nat) (w : world) (a : addr) :
  freeValueAllowed (this w) = true ->
  input_control (form (this w)) = Selected a ->
  keyDownEnter depth w = Done tt w.
Proof.
  intros Hc Hi. unfold keyDownEnter, bind, get.
  now rewrite Hc, Hi.
Qed.

Lemma keyDownEnter_on_selected_candidate_witness :
  let c := configured default_inputs bdtfx_catalog "otherunknown" in
  let picked :=
    with_form {| input_control := Selected 0; input_touched := true;
                 input_pristine := false;
                 repository_control := JStr "otherunknown" |} c in
  keyDownEnter 2 (world_of picked [candidate "Rosa canina" false])
  = Done tt (world_of picked [candidate "Rosa canina" false]).
Proof.
  intros c picked.
  apply (keyDownEnter_on_selected_candidate 2
           (world_of picked [candidate "Rosa canina" false]) 0);
    reflexivity.
Defined.

(** ** Texts made of spaces *)

Lemma replace_spaces_empty (s : string) :
  replace_spaces s = "" <-> string_forall is_space s = true.
Proof.
  induction s as [|c s IH]; simpl.
  - tauto.
  - unfold is_space at 1. destruct (Ascii.eqb c " "); simpl.
    + exact IH.
    + split; discriminate.
Qed.

Lemma search_calls_app (t u : list effect) :
  search_calls (t ++ u) = search_calls t + search_calls u.
Proof.
  induction t as [|e t IH]; simpl; [reflexivity|].
  destruct e; simpl; now rewrite ?IH.
Qed.
(** ** The subscriber *)

Lemma known_array_is_not_new (results : jsarray) (w : world) (items : list addr) :
  array_known results w ->
  same_array results {| arr_id := arrays w; arr_items := items |} = false.
Proof.
  unfold array_known, same_array. simpl. intros H.
  apply Nat.eqb_neq. lia.
Qed.

(** What [subscribe_next] does with an empty array. *)
Lemma subscribe_next_empty (depth : nat) (results : jsarray) (w : world) :
  arr_items results = [] ->
  array_known results w ->
  exists w',
    subscribe_next depth results w = Done tt w'
    /\ trace w' = trace w ++ OpenPanel ::
                    (if autoComplete (inputs (this w)) then []
                     else [AllResults results])
    /\ heap w' = heap w
    /\ validOccurenceRequests w' = validOccurenceRequests w
    /\ isLoading (this w') = false
    /\ isSearching (this w') = false
    /\ arr_items (dataFromRepo (this w')) = [].
Proof.
  intros Hi Hk. unfold subscribe_next.
  unfold bind at 1. unfold new_array at 1.
  rewrite (known_array_is_not_new results w [] Hk). cbn [negb].
  unfold bind, call, assign, get, when, clear_dataFromRepo, new_array, ret.
  cbn. rewrite Hi. cbn. rewrite !andb_false_r. cbn.
  destruct (autoComplete (inputs (this w))); cbn;
    eexists; (split; [reflexivity|]); cbn; rewrite <- ?app_assoc; auto 10.
Qed.

(** C2: an empty result set opens the panel all the same.  For every empty
    array handed to the [next] callback, [results !== []] compares it with an
    array made on the spot and holds, so the callback goes on and its first
    call is [autocomplete.openPanel()]. *)
Theorem empty_results_open_the_panel (depth : nat) (results : jsarray) (w : world) :
  arr_items results = [] ->
  array_known results w ->
  exists w' rest,
    subscribe_next depth results w = Done tt w'
    /\ trace w' = trace w ++ OpenPanel :: rest.
Proof.
  intros Hi Hk.
  destruct (subscribe_next_empty depth results w Hi Hk) as (w' & E & T & _).
  exists w'. eexists. split; [exact E | exact T].
Qed.

Lemma empty_results_open_the_panel_witness :
  exists w' rest,
    subscribe_next 2 {| arr_id := 0; arr_items := [] |}
      (world_of (configured default_inputs bdtfx_catalog "bdtfx") [])
    = Done tt w'
    /\ trace w' = [] ++ OpenPanel :: rest.
Proof.
  apply (empty_results_open_the_panel 2 {| arr_id := 0; arr_items := [] |}
           (world_of (configured default_inputs bdtfx_catalog "bdtfx") [])).
  - reflexivity.
  - unfold array_known. simpl. lia.
Defined.

(** ** The chain on a value that needs no lookup *)

(** [switchMap] when its function returns [of([])]: the array goes to the
    subscriber, no lookup is subscribed to any more. *)
Lemma switchMap_of (depth : nat) (v : input_value) (s : system)
    (a : jsarray) (w1 : world) :
  switchMap_project depth v (comp s) = Done (Of a) w1 ->
  arr_items a = [] ->
  array_known a w1 ->
  exists w',
    switchMap depth v s
    = Done tt {| comp := w';
                 rx := {| debounce_pending := debounce_pending (rx s);
                          distinct_last := distinct_last (rx s);
                          switch_inner := None;
                          lookups_issued := lookups_issued (rx s);
                          closed := closed (rx s) |} |}
    /\ trace w' = trace w1 ++ OpenPanel ::
                    (if autoComplete (inputs (this w1)) then []
                     else [AllResults a])
    /\ heap w' = heap w1
    /\ validOccurenceRequests w' = validOccurenceRequests w1
    /\ isLoading (this w') = false
    /\ isSearching (this w') = false
    /\ arr_items (dataFromRepo (this w')) = [].
Proof.
  intros Hp Hi Hk.
  destruct (subscribe_next_empty depth a w1 Hi Hk) as (w' & E & F).
  exists w'. split; [|exact F].
  unfold switchMap. rewrite Hp.
  unfold inner_notification, catchError, subscriber, bind. cbn [comp].
  rewrite E. reflexivity.
Qed.

(** The function given to [switchMap], on a text without anything but
    spaces: [of([])], no call, [isLoading] untouched. *)
Lemma switchMap_project_spaces (depth : nat) (s : string) (w : world) :
  replace_spaces s = "" ->
  exists a w1,
    switchMap_project depth (Text s) w = Done (Of a) w1
    /\ arr_items a = []
    /\ array_known a w1
    /\ trace w1 = trace w
    /\ inputs (this w1) = inputs (this w).
Proof.
  intros Hs. unfold switchMap_project, bind, get. rewrite Hs. cbn [String.eqb].
  destruct (strict_eq (currentRepository (this w)) (JStr "otherunknown"));
    cbn [negb]; unfold clear_dataFromRepo, bind, new_array, assign, ret;
    do 2 eexists; (split; [reflexivity|]); unfold array_known; cbn; auto.
Qed.

(** C9, as amended: for every text that is empty or made of space
    characters (U+0020) only, the debounced value is dropped as a repeat or
    classified without a lookup: [findDataFromRepo] is not called, no lookup
    is issued, and [isLoading] is false afterwards if it was before (and in
    any case once the value has been classified). *)
Theorem spaces_only_text_issues_no_lookup (depth : nat) (s : string) (sys : system) :
  string_forall is_space s = true ->
  exists sys',
    distinctUntilChanged depth (Text s) sys = Done tt sys'
    /\ lookups_issued (rx sys') = lookups_issued (rx sys)
    /\ search_calls (trace (comp sys')) = search_calls (trace (comp sys))
    /\ (isLoading (this (comp sys)) = false -> isLoading (this (comp sys')) = false)
    /\ (distinct_last (rx sys) <> Some (Text s) ->
        isLoading (this (comp sys')) = false).
Proof.
  intros Hs. apply replace_spaces_empty in Hs.
  assert (Hpass : forall sys0 : system,
             exists sys',
               switchMap depth (Text s) sys0 = Done tt sys'
               /\ lookups_issued (rx sys') = lookups_issued (rx sys0)
               /\ search_calls (trace (comp sys')) = search_calls (trace (comp sys0))
               /\ isLoading (this (comp sys')) = false).
  { intros sys0.
    destruct (switchMap_project_spaces depth s (comp sys0) Hs)
      as (a & w1 & Hp & Hi & Hk & Ht & Hc).
    destruct (switchMap_of depth (Text s) sys0 a w1 Hp Hi Hk)
      as (w' & E & T & _ & _ & L & _).
    eexists. split; [exact E|]. cbn. repeat split; auto.
    rewrite T, Ht, search_calls_app.
    destruct (autoComplete (inputs (this w1))); cbn; lia. }
  unfold distinctUntilChanged.
  destruct (distinct_last (rx sys)) as [last|] eqn:Hl.
  - destruct (same_input last (Text s)) eqn:Hsame.
    + exists sys. repeat split; auto.
      intros Hne. exfalso. apply Hne. f_equal.
      destruct last as [t|]; cbn in Hsame; [|discriminate].
      apply String.eqb_eq in Hsame. now subst.
    + match goal with |- context [switchMap depth (Text s) ?x] =>
        destruct (Hpass x) as (sys' & E & A & B & C) end.
      exists sys'. cbn in A, B. repeat split; auto.
  - match goal with |- context [switchMap depth (Text s) ?x] =>
      destruct (Hpass x) as (sys' & E & A & B & C) end.
    exists sys'. cbn in A, B. repeat split; auto.
Qed.

Lemma spaces_only_text_issues_no_lookup_witness :
  exists sys',
    distinctUntilChanged 2 (Text "   ")
      (system_of (configured default_inputs bdtfx_catalog "bdtfx") [])
    = Done tt sys'
    /\ lookups_issued (rx sys') = 0
    /\ search_calls (trace (comp sys')) = 0
    /\ (false = false -> isLoading (this (comp sys')) = false)
    /\ (None <> Some (Text "   ") -> isLoading (this (comp sys')) = false).
Proof.
  apply (spaces_only_text_issues_no_lookup 2 "   "
           (system_of (configured default_inputs bdtfx_catalog "bdtfx") [])).
  reflexivity.
Defined.

(** C9, as stated, fails: a tab is white space, [replace(/ /g, '')] leaves
    it, and the text goes to [findDataFromRepo] with [isLoading] set. *)
Lemma tab_text_issues_a_lookup :
  string_forall is_whitespace tab = true
  /\ exists sys',
       distinctUntilChanged 2 (Text tab)
         (system_of (configured default_inputs bdtfx_catalog "bdtfx") [])
       = Done tt sys'
       /\ trace (comp sys') = [FindDataFromRepoCall 0 (JStr "bdtfx") tab false]
       /\ lookups_issued (rx sys') = 1
       /\ isLoading (this (comp sys')) = true.
Proof.
  split; [reflexivity|].
  eexists. split; [vm_compute; reflexivity|].
  repeat split.
Qed.


(** ** Records emitted as final *)

Lemma lookup_snoc {A} (h : list A) (x : A) : (h ++ [x]) !! length h = Some x.
Proof.
  rewrite lookup_app_r by lia. now rewrite Nat.sub_diag.
Qed.

Lemma emits_nothing (w w' : world) :
  trace w' = trace w -> emits_final_records w w'.
Proof.
  intros H. exists []. rewrite app_nil_r. split; [exact H|].
  intros v [[]|[]].
Qed.

Lemma emits_one (w w' : world) (e : effect) (a : addr) :
  trace w' = trace w ++ [e] ->
  (e = NewData (JRef a) \/ e = UpdatedData (JRef a)) ->
  final_record (heap w') a ->
  emits_final_records w w'.
Proof.
  intros Ht He Hf. exists [e]. split; [exact Ht|].
  intros v [[H|[]]|[H|[]]]; destruct He as [He|He]; subst e;
    inversion H; subst; eauto.
Qed.

(** A record that is not a synonym, once given a copy of itself. *)
Lemma final_record_self_copy (h : list RepositoryItemModel) (a : addr)
    (d : RepositoryItemModel) :
  h !! a = Some d ->
  final_record (<[a := set_validOccurence (JRef (length h)) d]> (h ++ [d])) a.
Proof.
  intros Ha.
  assert (Hlt : a < length h) by (eapply lookup_lt_Some; eauto).
  exists (set_validOccurence (JRef (length h)) d).
  split; [|split].
  - apply list_lookup_insert_eq. rewrite length_app. simpl. lia.
  - simpl. intros E. reflexivity.
  - intros _. exists (length h), d. repeat split.
    + lia.
    + rewrite list_lookup_insert_ne by lia. apply lookup_snoc.
    + intros changed. rewrite list_lookup_insert_ne by lia.
      apply list_lookup_insert_eq. rewrite length_app. simpl. lia.
Qed.

(** A synonym, once given the valid form that [getValidOccurence] found. *)
Lemma final_record_synonym (h : list RepositoryItemModel) (a c : addr)
    (d : RepositoryItemModel) :
  a < length h ->
  isSynonym d = JBool true ->
  final_record (<[a := set_validOccurence (JRef c) d]> h) a.
Proof.
  intros Hlt Hs. exists (set_validOccurence (JRef c) d). split; [|split].
  - now apply list_lookup_insert_eq.
  - reflexivity.
  - simpl. rewrite Hs. discriminate.
Qed.


Lemma lookup_after_new_object (h : list RepositoryItemModel) (a : addr)
    (d x : RepositoryItemModel) :
  h !! a = Some d -> (h ++ [x]) !! a = Some d.
Proof.
  intros H. rewrite lookup_app_l; [exact H|]. eapply lookup_lt_Some; eauto.
Qed.

Lemma checkAndEmitNewData_final (data : addr) (d : RepositoryItemModel) (w : world) :
  heap w !! data = Some d ->
  exists w',
    checkAndEmitNewData data w = Done tt w'
    /\ emits_final_records w w'
    /\ (isSynonym d = JBool false -> trace w' = trace w ++ [NewData (JRef data)]).
Proof.
  intros H. unfold checkAndEmitNewData. unfold bind at 1. unfold read. rewrite H.
  destruct (strict_eq (isSynonym d) (JBool true)) eqn:Es; cbn [andb].
  - apply strict_eq_true in Es.
    destruct (isDefined (validOccurence d)) eqn:Ed; cbn [negb];
      eexists; (split; [reflexivity|]); (split; [|rewrite Es; discriminate]).
    + eapply emits_one; [reflexivity | left; reflexivity |].
      exists d. cbn. split; [exact H|]. split; [auto|].
      rewrite Es. discriminate.
    + exists [GetValidOccurenceCall (length (validOccurenceRequests w))
                (repository d) (idNomen d) (idTaxo d)].
      split; [reflexivity|].
      intros v [[E|[]]|[E|[]]]; discriminate.
  - destruct (strict_eq (isSynonym d) (JBool false)) eqn:Ef.
    + unfold bind, new_object, write, call. cbn [heap].
      rewrite (lookup_after_new_object _ _ _ _ H).
      eexists; (split; [reflexivity|]); split; [|reflexivity].
      eapply emits_one; [reflexivity | left; reflexivity |].
      cbn [heap]. now apply final_record_self_copy.
    + eexists. split; [reflexivity|]. split.
      * now apply emits_nothing.
      * intros E. rewrite E in Ef. discriminate.
Qed.

Lemma checkAndEmitUpdatedData_final (data : addr) (d : RepositoryItemModel) (w : world) :
  heap w !! data = Some d ->
  exists w',
    checkAndEmitUpdatedData data w = Done tt w'
    /\ emits_final_records w w'
    /\ (isSynonym d = JBool false -> trace w' = trace w ++ [UpdatedData (JRef data)]).
Proof.
  intros H. unfold checkAndEmitUpdatedData. unfold bind at 1. unfold read. rewrite H.
  destruct (strict_eq (isSynonym d) (JBool true)) eqn:Es.
  - apply strict_eq_true in Es.
    eexists; (split; [reflexivity|]); (split; [|rewrite Es; discriminate]).
    exists [GetValidOccurenceCall (length (validOccurenceRequests w))
              (repository d) (idNomen d) (idTaxo d)].
    split; [reflexivity|].
    intros v [[E|[]]|[E|[]]]; discriminate.
  - destruct (strict_eq (isSynonym d) (JBool false)) eqn:Ef.
    + unfold bind, new_object, write, call. cbn [heap].
      rewrite (lookup_after_new_object _ _ _ _ H).
      eexists; (split; [reflexivity|]); split; [|reflexivity].
      eapply emits_one; [reflexivity | right; reflexivity |].
      cbn [heap]. now apply final_record_self_copy.
    + eexists. split; [reflexivity|]. split.
      * now apply emits_nothing.
      * intros E. rewrite E in Ef. discriminate.
Qed.

Lemma validOccurence_callback_final (k : emitter) (data : addr)
    (d result : RepositoryItemModel) (w : world) :
  heap w !! data = Some d ->
  isSynonym d = JBool true ->
  exists w',
    validOccurence_callback k data result w = Done tt w'
    /\ emits_final_records w w'
    /\ trace w' = trace w ++ [emission k data]
    /\ heap w' !! data
       = Some (set_validOccurence (JRef (length (heap w))) d).
Proof.
  intros H Hs.
  assert (Hlt : data < length (heap w)) by (eapply lookup_lt_Some; eauto).
  unfold validOccurence_callback, bind, new_object, read, write. fields.
  rewrite (lookup_after_new_object _ _ _ _ H). fields.
  rewrite lookup_snoc. fields.
  rewrite list_lookup_insert_ne by lia.
  rewrite (lookup_after_new_object _ _ _ _ H).
  assert (Hf : forall h', length h' = S (length (heap w)) ->
                 final_record (<[data := set_validOccurence (JRef (length (heap w))) d]> h') data).
  { intros h' Hh. apply final_record_synonym; [lia | exact Hs]. }
  assert (Hg : forall h', length h' = S (length (heap w)) ->
                 <[data := set_validOccurence (JRef (length (heap w))) d]> h' !! data
                 = Some (set_validOccurence (JRef (length (heap w))) d)).
  { intros h' Hh. apply list_lookup_insert_eq. lia. }
  destruct k; eexists; (split; [reflexivity|]); cbn [trace heap];
    (split; [|split; [reflexivity|]]).
  - eapply emits_one; [reflexivity | left; reflexivity |]. cbn [heap].
    apply Hf. rewrite length_insert, length_app. simpl. lia.
  - apply Hg. rewrite length_insert, length_app. simpl. lia.
  - eapply emits_one; [reflexivity | right; reflexivity |]. cbn [heap].
    apply Hf. rewrite length_insert, length_app. simpl. lia.
  - apply Hg. rewrite length_insert, length_app. simpl. lia.
Qed.


(** C6, as amended: every record that [checkAndEmitNewData] and
    [checkAndEmitUpdatedData] emit, at once or later from the callback of
    [getValidOccurence] for a record that is a synonym, satisfies the
    invariant: a synonym carries a valid occurrence that is defined, a record
    that is not a synonym carries a copy of itself that is another object
    with the same fields, and writing into the copy leaves the record as it
    is.  Each of the three returns, and a record that is not a synonym is
    emitted at once.  (The free-text path of [keyDownEnter] is left out.) *)
Theorem candidates_are_emitted_final (data : addr) (d : RepositoryItemModel) (w : world) :
  heap w !! data = Some d ->
  (exists w',
      checkAndEmitNewData data w = Done tt w'
      /\ emits_final_records w w'
      /\ (isSynonym d = JBool false -> trace w' = trace w ++ [NewData (JRef data)]))
  /\ (exists w',
         checkAndEmitUpdatedData data w = Done tt w'
         /\ emits_final_records w w'
         /\ (isSynonym d = JBool false ->
             trace w' = trace w ++ [UpdatedData (JRef data)]))
  /\ (forall (k : emitter) (result : RepositoryItemModel),
         isSynonym d = JBool true ->
         exists w',
           validOccurence_callback k data result w = Done tt w'
           /\ emits_final_records w w'
           /\ trace w' = trace w ++ [emission k data]).
Proof.
  intros H. split; [|split].
  - now apply checkAndEmitNewData_final.
  - now apply checkAndEmitUpdatedData_final.
  - intros k result Hs.
    destruct (validOccurence_callback_final k data d result w H Hs)
      as (w' & E & F & T & _).
    eauto.
Qed.

Lemma candidates_are_emitted_final_witness :
  let w := world_of (configured default_inputs bdtfx_catalog "bdtfx")
             [candidate "Rosa canina" false] in
  exists w',
    checkAndEmitNewData 0 w = Done tt w'
    /\ emits_final_records w w'
    /\ (JBool false = JBool false -> trace w' = [] ++ [NewData (JRef 0)]).
Proof.
  intros w.
  apply (candidates_are_emitted_final 0 (candidate "Rosa canina" false) w).
  reflexivity.
Defined.

(** C6, as stated, fails on the free-text path: with [otherunknown] as the
    current repository and "Quercus robur" typed, [keyDownEnter] emits through
    [newData] a record that is not a synonym and whose valid occurrence is
    [null], not a copy of itself. *)
Lemma free_text_record_is_not_final :
  exists w',
    keyDownEnter 2
      (world_of (holding (Text "Quercus robur")
                   (configured default_inputs bdtfx_catalog "otherunknown")) [])
    = Done tt w'
    /\ trace w' = [NewData (JRef 0)]
    /\ ~ final_record (heap w') 0.
Proof.
  eexists. split; [vm_compute; reflexivity|]. split; [reflexivity|].
  intros (r & Hr & _ & Hc). cbn in Hr. inversion Hr; subst r; clear Hr.
  destruct (Hc eq_refl) as (c & copy & E & _). discriminate.
Qed.


(** ** Finalization during an edition *)

Lemma stopEditingTaxo_spec (depth : nat) (w : world) :
  catalog_consistent (this w) ->
  2 <= depth ->
  exists w',
    stopEditingTaxo depth w = Done tt w'
    /\ trace w' = trace w ++ [ClosePanel]
    /\ heap w' = heap w
    /\ validOccurenceRequests w' = validOccurenceRequests w
    /\ isEditingData (this w') = false
    /\ editingOccurenceId (this w') = JNull
    /\ inputs (this w') = inputs (this w)
    /\ arr_items (dataFromRepo (this w')) = [].
Proof.
  intros Hc Hd. unfold stopEditingTaxo, bind, assign, get, when. fields.
  destruct (restoreRepositoryValueAfterEditing _) eqn:Hr.
  - destruct depth as [|[|depth']]; [lia|lia|].
    rewrite setRepository_returns; [|exact Hc].
    unfold call, clear_dataFromRepo, bind, new_array, assign.
    eexists. split; [reflexivity|]. fields.
    unfold setRepository_contract.
    repeat split; try reflexivity;
      cbn [this with_this];
      repeat match goal with
             | |- context [if ?b then _ else _] => destruct b
             | |- context [match ?l with [] => _ | _ :: _ => _ end] => destruct l
             end; reflexivity.
  - unfold ret, call, clear_dataFromRepo, bind, new_array, assign.
    eexists. split; [reflexivity|]. repeat split; reflexivity.
Qed.

Lemma checkAndEmitUpdatedData_spec (data : addr) (d : RepositoryItemModel) (w : world) :
  heap w !! data = Some d ->
  exists w',
    checkAndEmitUpdatedData data w = Done tt w'
    /\ this w' = this w
    /\ (isSynonym d = JBool true ->
        trace w' = trace w ++
          [GetValidOccurenceCall (length (validOccurenceRequests w))
             (repository d) (idNomen d) (idTaxo d)]
        /\ validOccurenceRequests w'
           = validOccurenceRequests w ++ [Some (UpdatedDataEmitter, data)]
        /\ heap w' = heap w)
    /\ (isSynonym d = JBool false ->
        trace w' = trace w ++ [UpdatedData (JRef data)]
        /\ validOccurenceRequests w' = validOccurenceRequests w
        /\ heap w' !! data = Some (set_validOccurence (JRef (length (heap w))) d)).
Proof.
  intros H.
  assert (Hlt : data < length (heap w)) by (eapply lookup_lt_Some; eauto).
  unfold checkAndEmitUpdatedData. unfold bind at 1. unfold read. rewrite H.
  destruct (strict_eq (isSynonym d) (JBool true)) eqn:Es.
  - apply strict_eq_true in Es.
    eexists. split; [reflexivity|]. fields.
    split; [reflexivity|]. split.
    + intros _. repeat split.
    + rewrite Es. discriminate.
  - destruct (strict_eq (isSynonym d) (JBool false)) eqn:Ef.
    + unfold bind, new_object, write, call. fields.
      rewrite (lookup_after_new_object _ _ _ _ H).
      eexists. split; [reflexivity|]. fields.
      split; [reflexivity|]. split.
      * intros E. rewrite E in Es. discriminate.
      * intros _. repeat split.
        apply list_lookup_insert_eq. rewrite length_app. simpl. lia.
    + eexists. split; [reflexivity|]. split; [reflexivity|].
      split; intros E; rewrite E in *; discriminate.
Qed.

(** The function given to [switchMap], on a candidate selected while an
    edition is going on. *)
Lemma switchMap_project_while_editing (depth : nat) (a : addr)
    (d : RepositoryItemModel) (w : world) :
  isEditingData (this w) = true ->
  heap w !! a = Some d ->
  catalog_consistent (this w) ->
  2 <= depth ->
  exists results w',
    switchMap_project depth (Selected a) w = Done (Of results) w'
    /\ arr_items results = []
    /\ array_known results w'
    /\ isEditingData (this w') = false
    /\ (isSynonym d = JBool true ->
        trace w' = trace w ++
          [GetValidOccurenceCall (length (validOccurenceRequests w))
             (currentRepository (this w)) (idNomen d) (idTaxo d);
           ClosePanel]
        /\ validOccurenceRequests w'
           = validOccurenceRequests w ++ [Some (UpdatedDataEmitter, a)]
        /\ heap w' !! a = Some (stamped (this w) d))
    /\ (isSynonym d = JBool false ->
        trace w' = trace w ++ [UpdatedData (JRef a); ClosePanel]
        /\ heap w' !! a
           = Some (set_validOccurence (JRef (length (heap w)))
                     (stamped (this w) d))).
Proof.
  intros He Ha Hc Hd.
  assert (Hlt : a < length (heap w)) by (eapply lookup_lt_Some; eauto).
  unfold switchMap_project. unfold bind at 1. unfold get at 1.
  unfold bind at 1. unfold write at 1. rewrite Ha.
  rewrite He. cbn [negb]. fields.
  unfold bind at 1 2. unfold write at 1. fields.
  rewrite list_lookup_insert_eq by exact Hlt.
  unfold bind at 1. unfold clear_dataFromRepo at 1.
  unfold bind at 1. unfold new_array at 1. unfold assign at 1. fields.
  fold (stamped (this w) d). unfold bind at 1.
  match goal with
  | |- context [checkAndEmitUpdatedData a ?w1] =>
      destruct (checkAndEmitUpdatedData_spec a (stamped (this w) d) w1)
        as (w2 & E2 & T2 & S2 & N2);
        [fields; apply list_lookup_insert_eq; now rewrite length_insert|]
  end.
  rewrite E2. cbn [this heap arrays validOccurenceRequests trace] in *.
  destruct (stopEditingTaxo_spec depth w2) as (w3 & E3 & T3 & H3 & R3 & I3 & _ & C3 & _);
    [rewrite T2; exact Hc | exact Hd |].
  unfold bind at 1. rewrite E3.
  rewrite !length_insert in *.
  destruct (autoResetWhenSelected (inputs (this w)));
    unfold clear_dataFromRepo, when, resetInput;
    unfold bind, new_array, assign, get, ret;
    fields; cbn [isEditingData with_isSearching with_isLoading with_dataFromRepo];
    rewrite ?I3;
    do 2 eexists; (split; [reflexivity|]); fields;
    (split; [reflexivity|]);
    (split; [unfold array_known; cbn; lia|]);
    (split; [cbn; exact I3|]);
    rewrite T3, H3, R3; split; intros Hs.
  all: try (destruct (S2 Hs) as (-> & -> & ->)).
  all: try (destruct (N2 Hs) as (-> & _ & ->)).
  all: rewrite <- ?app_assoc; repeat split; try reflexivity.
  all: apply list_lookup_insert_eq; now rewrite length_insert.
Qed.

(** *** What the subscribers see *)













(** ** Selecting the same candidate twice *)

Lemma newData_count_app (t u : list effect) :
  newData_count (t ++ u) = newData_count t + newData_count u.
Proof.
  induction t as [|e t IH]; simpl; [reflexivity|].
  destruct e; simpl; now rewrite ?IH.
Qed.

Lemma checkAndEmitNewData_not_synonym (data : addr) (d : RepositoryItemModel)
    (w : world) :
  heap w !! data = Some d ->
  isSynonym d = JBool false ->
  exists w',
    checkAndEmitNewData data w = Done tt w'
    /\ this w' = this w
    /\ arrays w' = arrays w
    /\ trace w' = trace w ++ [NewData (JRef data)].
Proof.
  intros H Hs. unfold checkAndEmitNewData. unfold bind at 1. unfold read.
  rewrite H, Hs. cbn [strict_eq Bool.eqb andb].
  unfold bind, new_object, write, call. fields.
  rewrite (lookup_after_new_object _ _ _ _ H).
  eexists. split; [reflexivity|]. repeat split.
Qed.

(** The function given to [switchMap], on a candidate that is not a synonym,
    selected while no edition is going on. *)
Lemma switchMap_project_selected (depth : nat) (a : addr)
    (d : RepositoryItemModel) (w : world) :
  isEditingData (this w) = false ->
  heap w !! a = Some d ->
  isSynonym d = JBool false ->
  exists results w',
    switchMap_project depth (Selected a) w = Done (Of results) w'
    /\ arr_items results = []
    /\ array_known results w'
    /\ trace w' = trace w ++ [NewData (JRef a)]
    /\ inputs (this w') = inputs (this w).
Proof.
  intros He Ha Hs.
  assert (Hlt : a < length (heap w)) by (eapply lookup_lt_Some; eauto).
  unfold switchMap_project. unfold bind at 1. unfold get at 1.
  unfold bind at 1. unfold write at 1. rewrite Ha.
  rewrite He. cbn [negb]. fields.
  unfold bind at 1 2. unfold clear_dataFromRepo at 1.
  unfold bind at 1. unfold new_array at 1. unfold assign at 1. fields.
  match goal with
  | |- context [checkAndEmitNewData a ?w1] =>
      destruct (checkAndEmitNewData_not_synonym a
                  (set_repository (currentRepository (this w)) d) w1)
        as (w2 & E2 & T2 & A2 & R2);
        [fields; now apply list_lookup_insert_eq | exact Hs |]
  end.
  rewrite E2. cbn [this heap arrays validOccurenceRequests trace] in *.
  destruct (autoResetWhenSelected (inputs (this w)));
    unfold clear_dataFromRepo, when, resetInput;
    unfold bind, new_array, assign, get, ret;
    fields; cbn [isEditingData with_isSearching with_isLoading with_dataFromRepo];
    rewrite ?T2; cbn [isEditingData with_dataFromRepo]; rewrite ?He;
    do 2 eexists; (split; [reflexivity|]); fields;
    (split; [reflexivity|]);
    (split; [unfold array_known; cbn; lia|]);
    (split; [exact R2|]); rewrite ?T2; reflexivity.
Qed.

Lemma same_input_true (x y : input_value) : same_input x y = true <-> x = y.
Proof.
  destruct x, y; simpl; split; intros H; try discriminate; try (inversion H; subst).
  - apply String.eqb_eq in H. now subst.
  - apply String.eqb_refl.
  - apply Nat.eqb_eq in H. now subst.
  - apply Nat.eqb_refl.
Qed.

(** A value that [distinctUntilChanged] has just let through is dropped when
    the input control emits it again: nothing is emitted, only [isSearching]
    is raised by the first watcher. *)
Lemma repeated_value_is_dropped (depth : nat) (v : input_value) (ms : nat) (s : system) :
  closed (rx s) = false ->
  distinct_last (rx s) = Some v ->
  400 <= ms ->
  exists s',
    run depth [InputChange v; Elapse ms] s = Done tt s'
    /\ trace (comp s') = trace (comp s)
    /\ heap (comp s') = heap (comp s)
    /\ dataFromRepo (this (comp s')) = dataFromRepo (this (comp s))
    /\ lookups_issued (rx s') = lookups_issued (rx s).
Proof.
  intros Hc Hl Hm. destruct s as [w p]. cbn [rx comp] in *.
  cbn [run step rx comp]. rewrite Hc.
  unfold lift, bind, assign. cbn [comp rx debounce_pending].
  replace (Nat.leb 400 ms) with true by (symmetry; apply Nat.leb_le; lia).
  unfold distinctUntilChanged. cbn [rx distinct_last comp].
  rewrite Hl. replace (same_input v v) with true
    by (symmetry; now apply same_input_true).
  eexists. split; [reflexivity|]. repeat split.
Qed.

Lemma run_app (depth : nat) (es es' : list event) (s : system) :
  run depth (es ++ es') s
  = match run depth es s with
    | Done _ s1 => run depth es' s1
    | OutOfFuel => OutOfFuel
    | Stuck => Stuck
    end.
Proof.
  revert s. induction es as [|e es IH]; intros s; simpl; [reflexivity|].
  destruct (step depth e s); auto.
Qed.

(** A candidate that is not a synonym, selected while no edition is going
    on and let through by [distinctUntilChanged], is emitted once. *)
Lemma selected_candidate_is_emitted (depth : nat) (a : addr)
    (d : RepositoryItemModel) (ms : nat) (s : system) :
  closed (rx s) = false ->
  distinct_last (rx s) <> Some (Selected a) ->
  isEditingData (this (comp s)) = false ->
  heap (comp s) !! a = Some d ->
  isSynonym d = JBool false ->
  400 <= ms ->
  exists s1,
    run depth [InputChange (Selected a); Elapse ms] s = Done tt s1
    /\ newData_count (trace (comp s1)) = S (newData_count (trace (comp s)))
    /\ closed (rx s1) = false
    /\ distinct_last (rx s1) = Some (Selected a).
Proof.
  intros Hc Hl He Ha Hs Hm. destruct s as [w p]. cbn [rx comp] in *.
  cbn [run step rx comp]. rewrite Hc.
  unfold lift, bind, assign. cbn [comp rx debounce_pending].
  replace (Nat.leb 400 ms) with true by (symmetry; apply Nat.leb_le; lia).
  unfold distinctUntilChanged. cbn [rx distinct_last comp].
  match goal with
  | |- context [switchMap depth (Selected a) ?x] =>
      assert (Hpass : exists s1,
                 switchMap depth (Selected a) x = Done tt s1
                 /\ newData_count (trace (comp s1)) = S (newData_count (trace w))
                 /\ closed (rx s1) = false
                 /\ distinct_last (rx s1) = Some (Selected a))
  end.
  { match goal with
    | |- context [switchMap depth (Selected a) ?x] =>
        destruct (switchMap_project_selected depth a d (comp x))
          as (results & w1 & Ep & Hi & Hk & Ht & _);
          [exact He | exact Ha | exact Hs |];
          destruct (switchMap_of depth (Selected a) x results w1 Ep Hi Hk)
            as (w' & E & T & _)
    end.
    eexists. split; [exact E|]. cbn [comp rx closed distinct_last].
    split; [|split; reflexivity].
    rewrite T, Ht. cbn [trace comp this heap]. rewrite !newData_count_app. cbn [newData_count].
    destruct (autoComplete (inputs (this w1))); cbn [newData_count]; lia. }
  destruct Hpass as (s1 & E & F).
  destruct (distinct_last p) as [last|] eqn:Hd.
  - destruct (same_input last (Selected a)) eqn:Hsame.
    + apply same_input_true in Hsame. subst last. now destruct Hl.
    + exists s1. now rewrite E.
  - exists s1. now rewrite E.
Qed.

(** C7, as amended: when the input control emits the same selected
    candidate twice in succession, with nothing else in between, [newData]
    emits once: the first selection goes through and is emitted, the second
    is dropped by [distinctUntilChanged] before it is classified. *)
Theorem same_candidate_twice_emits_once (depth : nat) (a : addr)
    (d : RepositoryItemModel) (ms ms' : nat) (s : system) :
  closed (rx s) = false ->
  distinct_last (rx s) <> Some (Selected a) ->
  isEditingData (this (comp s)) = false ->
  heap (comp s) !! a = Some d ->
  isSynonym d = JBool false ->
  400 <= ms ->
  400 <= ms' ->
  exists s',
    run depth [InputChange (Selected a); Elapse ms;
               InputChange (Selected a); Elapse ms'] s
    = Done tt s'
    /\ newData_count (trace (comp s')) = S (newData_count (trace (comp s))).
Proof.
  intros Hc Hl He Ha Hs Hm Hm'.
  destruct (selected_candidate_is_emitted depth a d ms s Hc Hl He Ha Hs Hm)
    as (s1 & E1 & N1 & C1 & L1).
  destruct (repeated_value_is_dropped depth (Selected a) ms' s1 C1 L1 Hm')
    as (s2 & E2 & T2 & _).
  exists s2. split.
  - change [InputChange (Selected a); Elapse ms; InputChange (Selected a); Elapse ms']
      with ([InputChange (Selected a); Elapse ms]
              ++ [InputChange (Selected a); Elapse ms']).
    now rewrite run_app, E1.
  - now rewrite T2.
Qed.

Lemma same_candidate_twice_emits_once_witness :
  exists s',
    run 2 [InputChange (Selected 0); Elapse 400;
           InputChange (Selected 0); Elapse 400]
      (system_of (configured default_inputs bdtfx_catalog "bdtfx")
         [candidate "Rosa canina" false])
    = Done tt s'
    /\ newData_count (trace (comp s')) = 1.
Proof.
  apply (same_candidate_twice_emits_once 2 0 (candidate "Rosa canina" false)
           400 400
           (system_of (configured default_inputs bdtfx_catalog "bdtfx")
              [candidate "Rosa canina" false]));
    try reflexivity; try discriminate; lia.
Defined.

(** C7, as stated, fails: "ros" is typed, the lookup answers with one
    candidate, the candidate is selected twice in succession; [newData] has
    emitted once, not twice. *)
Lemma second_commit_is_deduplicated :
  exists s',
    run 2 [InputChange (Text "ros"); Elapse 400;
           LookupResponse 0 [candidate "Rosa canina" false];
           InputChange (Selected 0); Elapse 400;
           InputChange (Selected 0); Elapse 400]
      (system_of (configured default_inputs bdtfx_catalog "bdtfx") [])
    = Done tt s'
    /\ newData_count (trace (comp s')) = 1
    /\ newData_count (trace (comp s')) <> 2.
Proof.
  eexists. split; [vm_compute; reflexivity|]. split; [reflexivity|discriminate].
Qed.


(** ** Supersession *)

Lemma lift_rx (m : M unit) (p : pipeline) (s s' : system) :
  lift m p s = Done tt s' -> rx s' = p.
Proof.
  unfold lift. destruct (m (comp s)); intros H; inversion H. reflexivity.
Qed.

Lemma latest_only_teardown (p : pipeline) : latest_only (teardown p).
Proof. intros id H. discriminate. Qed.

Lemma inner_notification_latest (depth : nat) (n : notification) (p : pipeline)
    (s s' : system) :
  latest_only p ->
  inner_notification depth n p s = Done tt s' ->
  latest_only (rx s').
Proof.
  intros Hp. unfold inner_notification.
  destruct (catchError depth n (comp s)) as [over w| |]; intros H; inversion H.
  cbn [rx]. destruct over; [apply latest_only_teardown | exact Hp].
Qed.

Lemma switchMap_latest (depth : nat) (v : input_value) (s s' : system) :
  switchMap depth v s = Done tt s' -> latest_only (rx s').
Proof.
  unfold switchMap.
  destruct (switchMap_project depth v (comp s)) as [[results|repo text raw] w| |];
    intros H; try discriminate.
  - eapply inner_notification_latest; [|exact H].
    intros id E. discriminate.
  - apply lift_rx in H. rewrite H. intros id E. cbn in *.
    inversion E. reflexivity.
Qed.

Lemma distinctUntilChanged_latest (depth : nat) (v : input_value) (s s' : system) :
  latest_only (rx s) ->
  distinctUntilChanged depth v s = Done tt s' ->
  latest_only (rx s').
Proof.
  intros Hp. unfold distinctUntilChanged.
  destruct (distinct_last (rx s)) as [last|].
  - destruct (same_input last v).
    + intros H. inversion H. now subst.
    + apply switchMap_latest.
  - apply switchMap_latest.
Qed.

Lemma step_latest (depth : nat) (e : event) (s s' : system) :
  latest_only (rx s) ->
  step depth e s = Done tt s' ->
  latest_only (rx s').
Proof.
  intros Hp. destruct e; cbn [step].
  - intros H. apply lift_rx in H. rewrite H.
    destruct (closed (rx s)); [exact Hp|]. exact Hp.
  - destruct (debounce_pending (rx s)) as [[v wait]|].
    + destruct (Nat.leb wait ms).
      * apply distinctUntilChanged_latest. exact Hp.
      * intros H. inversion H. exact Hp.
    + intros H. inversion H. now subst.
  - destruct (switch_inner (rx s)) as [current|].
    + destruct (Nat.eqb id current).
      * destruct ((l <- receive items;; new_array l) (comp s)); try discriminate.
        now apply inner_notification_latest.
      * intros H. inversion H. now subst.
    + intros H. inversion H. now subst.
  - destruct (switch_inner (rx s)) as [current|].
    + destruct (Nat.eqb id current).
      * now apply inner_notification_latest.
      * intros H. inversion H. now subst.
    + intros H. inversion H. now subst.
  - destruct (validOccurenceRequests (comp s) !! id) as [[[k data]|]|].
    + intros H. apply lift_rx in H. now rewrite H.
    + intros H. inversion H. now subst.
    + intros H. inversion H. now subst.
  - intros H. apply lift_rx in H. now rewrite H.
  - intros H. apply lift_rx in H. now rewrite H.
  - intros H. apply lift_rx in H. now rewrite H.
  - intros H. apply lift_rx in H. now rewrite H.
  - intros H. apply lift_rx in H. now rewrite H.
Qed.

Lemma run_latest (depth : nat) (es : list event) :
  forall s s' : system,
    latest_only (rx s) ->
    run depth es s = Done tt s' ->
    latest_only (rx s').
Proof.
  induction es as [|e es IH]; intros s s' Hp; cbn [run].
  - intros H. inversion H. now subst.
  - destruct (step depth e s) as [[] s1| |] eqn:E; try discriminate.
    apply IH. eapply step_latest; eauto.
Qed.

(** C1: after any sequence of events, the answer of a lookup that is not the
    last one issued is discarded: it leaves the candidate buffer, and the
    whole system, as they were.  Only the answer of the last lookup issued
    can be applied. *)
Theorem supersession (depth : nat) (es : list event) (s0 s : system)
    (id : nat) (items : list RepositoryItemModel) :
  latest_only (rx s0) ->
  run depth es s0 = Done tt s ->
  S id <> lookups_issued (rx s) ->
  step depth (LookupResponse id items) s = Done tt s.
Proof.
  intros H0 Hr Hid.
  pose proof (run_latest depth es s0 s H0 Hr) as Hl.
  cbn [step]. destruct (switch_inner (rx s)) as [current|] eqn:E; [|reflexivity].
  destruct (Nat.eqb id current) eqn:Eid; [|reflexivity].
  apply Nat.eqb_eq in Eid. subst current.
  destruct Hid. now apply Hl.
Qed.

Lemma supersession_witness :
  let s0 := system_of (configured default_inputs bdtfx_catalog "bdtfx") [] in
  let es := [InputChange (Text "ro"); Elapse 400;
             InputChange (Text "ros"); Elapse 400;
             InputChange (Text "rose"); Elapse 400;
             LookupResponse 2 [candidate "Rosa canina" false;
                               candidate "Rosa gallica" false]] in
  exists s,
    run 2 es s0 = Done tt s
    /\ arr_items (dataFromRepo (this (comp s))) = [0; 1]
    /\ step 2 (LookupResponse 0 [candidate "Rosmarinus officinalis" false]) s
       = Done tt s.
Proof.
  intros s0 es. eexists. split; [vm_compute; reflexivity|].
  split; [reflexivity|].
  apply (supersession 2 es s0).
  - intros id H. discriminate.
  - vm_compute. reflexivity.
  - vm_compute. discriminate.
Defined.

(** ** A lookup that fails *)

(** C3: what the code does when the lookup it is subscribed to fails, for
    every failure.  [catchError] replaces the failure by [of([])]: the [next]
    callback gets an empty array (and opens the panel), the [error] callback
    is not called, so [httpError] emits nothing, and the subscription is over:
    from then on a change of the input is neither classified nor looked up. *)
Theorem lookup_failure_ends_the_subscription (depth : nat) (id : nat)
    (error : string) (s : system) :
  switch_inner (rx s) = Some id ->
  exists s' rest,
    step depth (LookupFailure id error) s = Done tt s'
    /\ trace (comp s') = trace (comp s) ++ OpenPanel :: rest
    /\ (forall e, ~ In (HttpError e) rest)
    /\ arr_items (dataFromRepo (this (comp s'))) = []
    /\ closed (rx s') = true
    /\ forall (v : input_value) (ms : nat),
         exists s'',
           run depth [InputChange v; Elapse ms] s' = Done tt s''
           /\ trace (comp s'') = trace (comp s')
           /\ lookups_issued (rx s'') = lookups_issued (rx s).
Proof.
  intros Hi. cbn [step]. rewrite Hi, Nat.eqb_refl.
  unfold inner_notification, catchError. unfold bind at 1. unfold new_array at 1.
  unfold bind at 1. cbn [subscriber].
  match goal with
  | |- context [subscribe_next depth ?a ?w1] =>
      destruct (subscribe_next_empty depth a w1) as (w' & E & T & _ & _ & _ & _ & D);
        [reflexivity | unfold array_known; cbn; lia |]
  end.
  rewrite E. unfold bind, ret.
  do 2 eexists. split; [reflexivity|]. cbn [comp rx closed teardown].
  split; [exact T|]. split; [|split; [exact D|split; [reflexivity|]]].
  - intros e.
    destruct (autoComplete _); cbn; intuition discriminate.
  - intros v ms. cbn [run step rx comp closed debounce_pending].
    unfold lift, bind, assign. cbn [comp rx debounce_pending].
    eexists. split; [reflexivity|]. split; reflexivity.
Qed.

Lemma lookup_failure_ends_the_subscription_witness :
  let s := {| comp := world_of (configured default_inputs bdtfx_catalog "bdtfx") [];
              rx := {| debounce_pending := None; distinct_last := Some (Text "ro");
                       switch_inner := Some 0; lookups_issued := 1;
                       closed := false |} |} in
  exists s' rest,
    step 2 (LookupFailure 0 "timeout") s = Done tt s'
    /\ trace (comp s') = [] ++ OpenPanel :: rest
    /\ (forall e, ~ In (HttpError e) rest)
    /\ arr_items (dataFromRepo (this (comp s'))) = []
    /\ closed (rx s') = true.
Proof.
  intros s.
  destruct (lookup_failure_ends_the_subscription 2 0 "timeout" s)
    as (s' & rest & E & T & N & D & C & _).
  - reflexivity.
  - exists s', rest. auto.
Defined.

(** ** A single result selected automatically *)

(** C5: what the code does with a single result when
    [autoSelectValueIfOnlyOneResult] is on and an edition is going on.  The
    candidate goes to [checkAndEmitUpdatedData] as it came: [updatedData]
    emits it without the occurrence being edited and without the current
    repository stamped on it, whereas the same candidate picked in the panel
    is stamped with both before it is emitted. *)
Theorem auto_selected_candidate_is_not_stamped (depth : nat) (a : addr)
    (d : RepositoryItemModel) (results : jsarray) (w : world) :
  autoComplete (inputs (this w)) = true ->
  autoSelectValueIfOnlyOneResult (inputs (this w)) = true ->
  isEditingData (this w) = true ->
  arr_items results = [a] ->
  array_known results w ->
  heap w !! a = Some d ->
  isSynonym d = JBool false ->
  catalog_consistent (this w) ->
  2 <= depth ->
  (exists w',
      subscribe_next depth results w = Done tt w'
      /\ trace w' = trace w ++ [OpenPanel; UpdatedData (JRef a); ClosePanel]
      /\ heap w' !! a = Some (set_validOccurence (JRef (length (heap w))) d))
  /\ (exists picked w',
         switchMap_project depth (Selected a) w = Done (Of picked) w'
         /\ trace w' = trace w ++ [UpdatedData (JRef a); ClosePanel]
         /\ heap w' !! a
            = Some (set_validOccurence (JRef (length (heap w)))
                      (stamped (this w) d))).
Proof.
  intros Hac Has He Hi Hk Ha Hs Hc Hd. split.
  - unfold subscribe_next.
    unfold bind at 1. unfold new_array at 1.
    rewrite (known_array_is_not_new results w [] Hk). cbn [negb].
    unfold bind at 1. unfold call at 1.
    unfold bind at 1. unfold assign at 1.
    unfold bind at 1. unfold assign at 1.
    unfold bind at 1. unfold assign at 1.
    unfold bind at 1. unfold get at 1.
    fields. cbn [inputs dataFromRepo isEditingData with_isSearching with_isLoading
                 with_dataFromRepo].
    rewrite Hac, Has, He, Hi. cbn [length Nat.eqb andb lookup list_lookup].
    unfold bind at 1 2.
    match goal with
    | |- context [checkAndEmitUpdatedData a ?w1] =>
        destruct (checkAndEmitUpdatedData_spec a d w1)
          as (w2 & E2 & T2 & _ & N2); [exact Ha|]
    end.
    rewrite E2. destruct (N2 Hs) as (Tr & _ & L2).
    cbn [this heap arrays validOccurenceRequests trace] in *.
    destruct (stopEditingTaxo_spec depth w2)
      as (w3 & E3 & T3 & H3 & _ & _ & _ & I3 & _);
      [rewrite T2; exact Hc | exact Hd |].
    rewrite E3. unfold bind, get, when, ret.
    rewrite I3, T2.
    cbn [inputs with_isSearching with_isLoading with_dataFromRepo].
    rewrite Hac. cbn [negb].
    eexists. split; [reflexivity|]. rewrite T3, Tr, H3, <- !app_assoc.
    split; [reflexivity | exact L2].
  - destruct (switchMap_project_while_editing depth a d w He Ha Hc Hd)
      as (picked & w' & E & _ & _ & _ & _ & N).
    destruct (N Hs) as (T & L). eauto.
Qed.

Lemma auto_selected_candidate_is_not_stamped_witness :
  let w := world_of (editing 7 (configured auto_select_inputs bdtfx_catalog "bdtfx"))
             [candidate "Rosa canina" false] in
  exists w',
    subscribe_next 2 {| arr_id := 0; arr_items := [0] |} w = Done tt w'
    /\ trace w' = [] ++ [OpenPanel; UpdatedData (JRef 0); ClosePanel]
    /\ heap w' !! 0%nat
       = Some (set_validOccurence (JRef 1) (candidate "Rosa canina" false)).
Proof.
  intros w.
  apply (auto_selected_candidate_is_not_stamped 2 0
           (candidate "Rosa canina" false) {| arr_id := 0; arr_items := [0] |} w);
    first [ reflexivity
          | lia
          | unfold array_known; simpl; lia
          | intros _; reflexivity ].
Defined.

(** The same divergence from the events on: occurrence 7 is being edited and
    a lookup answers with one candidate.  Selected automatically, the
    candidate is emitted with no occurrence on it; picked in the panel, it is
    emitted with occurrence 7.  When no edition is going on, the automatic
    selection leaves the candidate in the buffer and the text in the input,
    while the selection in the panel empties both. *)
Example auto_select_against_selection :
  let c := configured auto_select_inputs bdtfx_catalog "bdtfx" in
  let answer := [InputChange (Text "ros"); Elapse 400;
                 LookupResponse 0 [candidate "Rosa canina" false]] in
  let pick := [InputChange (Selected 0); Elapse 400] in
  exists auto picked auto' picked',
    run 2 answer (system_of (editing 7 c) []) = Done tt auto
    /\ run 2 pick (system_of (editing 7 c) [candidate "Rosa canina" false])
       = Done tt picked
    /\ occurenceId <$> heap (comp auto) !! 0%nat = Some JUndefined
    /\ occurenceId <$> heap (comp picked) !! 0%nat = Some (JNum 7)
    /\ run 2 answer (system_of c []) = Done tt auto'
    /\ run 2 (answer ++ pick) (system_of c []) = Done tt picked'
    /\ arr_items (dataFromRepo (this (comp auto'))) = [0]
    /\ input_control (form (this (comp auto'))) = Text "ros"
    /\ arr_items (dataFromRepo (this (comp picked'))) = []
    /\ input_control (form (this (comp picked'))) = Text "".
Proof.
  do 4 eexists.
  split; [vm_compute; reflexivity|].
  split; [vm_compute; reflexivity|].
  split; [reflexivity|]. split; [reflexivity|].
  split; [vm_compute; reflexivity|].
  split; [vm_compute; reflexivity|].
  repeat split.
Qed.

(** * More properties *)

(** ** [keyDownEnter]: the free-text commit *)

Lemma insert_snoc {A} (h : list A) (x y : A) :
  <[length h := y]> (h ++ [x]) = h ++ [y].
Proof.
  induction h as [|z h IH]; simpl; [reflexivity|]. now rewrite IH.
Qed.

Lemma blank_text (s : string) :
  string_forall is_space s = true -> String.eqb (replace_spaces s) "" = true.
Proof.
  intros H. apply replace_spaces_empty in H. now rewrite H.
Qed.

Lemma not_blank_text (s : string) :
  string_forall is_space s = false -> String.eqb (replace_spaces s) "" = false.
Proof.
  intros H. apply String.eqb_neq. intros E.
  apply replace_spaces_empty in E. congruence.
Qed.

(** [keyDownEnter] on a text that [replace(/ /g, '')] empties. *)
Lemma keyDownEnter_blank_text_world (depth : nat) (w : world) (s : string) :
  freeValueAllowed (this w) = true ->
  input_control (form (this w)) = Text s ->
  String.eqb (replace_spaces s) "" = true ->
  keyDownEnter depth w
  = Done tt {| this := this w; heap := heap w; arrays := arrays w;
               validOccurenceRequests := validOccurenceRequests w;
               trace := trace w ++ [NewData JNull] |}.
Proof.
  intros Hc Hi Hs. unfold keyDownEnter, bind, get.
  now rewrite Hc, Hi, Hs.
Qed.

(** Under the commit condition, a text that is empty or made of spaces makes
    [keyDownEnter] emit [null] through [newData] and nothing else: the
    component, the objects and an edition that is going on stay as they
    are. *)
Theorem keyDownEnter_blank_text (depth : nat) (w : world) (s : string) :
  freeValueAllowed (this w) = true ->
  input_control (form (this w)) = Text s ->
  string_forall is_space s = true ->
  keyDownEnter depth w
  = Done tt {| this := this w; heap := heap w; arrays := arrays w;
               validOccurenceRequests := validOccurenceRequests w;
               trace := trace w ++ [NewData JNull] |}.
Proof.
  intros Hc Hi Hs.
  apply keyDownEnter_blank_text_world with (s := s).
  - exact Hc.
  - exact Hi.
  - now apply blank_text.
Qed.

Lemma keyDownEnter_blank_text_witness :
  let w := world_of (editing 7 (holding (Text "  ")
                       (configured default_inputs bdtfx_catalog "otherunknown"))) [] in
  keyDownEnter 2 w
  = Done tt {| this := this w; heap := []; arrays := 1;
               validOccurenceRequests := []; trace := [] ++ [NewData JNull] |}.
Proof.
  intros w. apply (keyDownEnter_blank_text 2 w "  "); reflexivity.
Defined.

(** The record [keyDownEnter] commits for the text [s]. *)
Lemma keyDownEnter_free_text_world (depth : nat) (w : world) (s : string) :
  freeValueAllowed (this w) = true ->
  input_control (form (this w)) = Text s ->
  string_forall is_space s = false ->
  isEditingData (this w) = false ->
  keyDownEnter depth w
  = Done tt
      {| this :=
           (if autoResetWhenSelected (inputs (this w))
            then with_form {| input_control := Text ""; input_touched := false;
                              input_pristine := true;
                              repository_control :=
                                repository_control (form (this w)) |}
            else fun c => c)
             (with_dataFromRepo {| arr_id := arrays w; arr_items := [] |} (this w));
         heap := heap w ++
           [ {| occurenceId := JNull; repository := JStr "otherunknown";
                idNomen := JNull; idTaxo := JNull; name := JStr s;
                author := JNull; isSynonym := JBool false;
                validOccurence := JNull |} ];
         arrays := S (arrays w);
         validOccurenceRequests := validOccurenceRequests w;
         trace := trace w ++ [NewData (JRef (length (heap w)))] |}.
Proof.
  intros Hc Hi Hs He. unfold keyDownEnter. unfold bind at 1. unfold get at 1.
  rewrite Hc, Hi, (not_blank_text s Hs).
  unfold bind at 1. unfold new_object at 1. rewrite He.
  unfold bind at 1 2. unfold write at 1. fields. rewrite lookup_snoc.
  unfold bind at 1. unfold write at 1. fields.
  rewrite insert_snoc, lookup_snoc.
  unfold clear_dataFromRepo, when, resetInput.
  unfold bind, new_array, assign, call, get, ret. fields.
  rewrite insert_snoc.
  cbn [inputs isEditingData with_dataFromRepo].
  destruct (autoResetWhenSelected (inputs (this w)));
    cbn [this inputs isEditingData with_dataFromRepo]; rewrite ?He; reflexivity.
Qed.

(** Under the commit condition and outside an edition, a text that is not
    blank makes [keyDownEnter] emit through [newData] a new record: the text
    as typed for name, [otherunknown] for repository, [null] identifiers and
    valid occurrence.  The objects there were stay as they are, the candidate
    buffer is emptied, and the input is emptied when
    [autoResetWhenSelected] is on and keeps the text otherwise. *)
Theorem keyDownEnter_commits_free_text (depth : nat) (w : world) (s : string) :
  freeValueAllowed (this w) = true ->
  input_control (form (this w)) = Text s ->
  string_forall is_space s = false ->
  isEditingData (this w) = false ->
  exists w',
    keyDownEnter depth w = Done tt w'
    /\ trace w' = trace w ++ [NewData (JRef (length (heap w)))]
    /\ heap w' = heap w ++
         [ {| occurenceId := JNull; repository := JStr "otherunknown";
              idNomen := JNull; idTaxo := JNull; name := JStr s;
              author := JNull; isSynonym := JBool false;
              validOccurence := JNull |} ]
    /\ arr_items (dataFromRepo (this w')) = []
    /\ input_control (form (this w'))
       = (if autoResetWhenSelected (inputs (this w)) then Text "" else Text s)
    /\ currentRepository (this w') = currentRepository (this w).
Proof.
  intros Hc Hi Hs He.
  rewrite (keyDownEnter_free_text_world depth w s Hc Hi Hs He).
  eexists. split; [reflexivity|]. fields.
  destruct (autoResetWhenSelected (inputs (this w))); cbn; auto 10.
Qed.

Lemma keyDownEnter_commits_free_text_witness :
  exists w',
    keyDownEnter 2
      (world_of (holding (Text " Quercus robur")
                   (configured default_inputs bdtfx_catalog "bdtfx")) [])
    = Done tt w'
    /\ trace w' = [] ++ [NewData (JRef 0)]
    /\ heap w' = [] ++
         [ {| occurenceId := JNull; repository := JStr "otherunknown";
              idNomen := JNull; idTaxo := JNull; name := JStr " Quercus robur";
              author := JNull; isSynonym := JBool false;
              validOccurence := JNull |} ]
    /\ arr_items (dataFromRepo (this w')) = []
    /\ input_control (form (this w')) = Text ""
    /\ currentRepository (this w') = JStr "bdtfx".
Proof.
  apply (keyDownEnter_commits_free_text 2
           (world_of (holding (Text " Quercus robur")
                        (configured default_inputs bdtfx_catalog "bdtfx")) [])
           " Quercus robur"); reflexivity.
Defined.

Lemma freeValueAllowed_emptied (c : SearchBoxComponent) (a : jsarray) :
  arr_items a = [] ->
  freeValueAllowed c = true ->
  freeValueAllowed (with_dataFromRepo a c) = true.
Proof.
  unfold freeValueAllowed. cbn [inputs currentRepository dataFromRepo with_dataFromRepo].
  intros ->. cbn [length Nat.eqb]. rewrite andb_true_r.
  destruct (_allowEmptyRepository (inputs c)),
           (strict_eq (currentRepository c) (JStr "otherunknown")),
           (allowFreeValueIfNoResults (inputs c));
    cbn; auto; destruct (Nat.eqb _ _); auto.
Qed.

(** With [emitOccurenceOnBlur] and [autoResetWhenSelected] on, committing a
    free text with Enter and then leaving the input emits twice through
    [newData]: the record, then [null], because the blur finds the input
    emptied by the commit. *)
Theorem enter_then_blur_emits_null (depth : nat) (w : world) (s : string) :
  freeValueAllowed (this w) = true ->
  input_control (form (this w)) = Text s ->
  string_forall is_space s = false ->
  isEditingData (this w) = false ->
  emitOccurenceOnBlur (inputs (this w)) = true ->
  autoResetWhenSelected (inputs (this w)) = true ->
  exists w',
    (keyDownEnter depth ;; onBlur depth) w = Done tt w'
    /\ trace w' = trace w ++ [NewData (JRef (length (heap w))); NewData JNull].
Proof.
  intros Hc Hi Hs He Hb Ha. unfold bind at 1.
  rewrite (keyDownEnter_free_text_world depth w s Hc Hi Hs He), Ha.
  unfold onBlur. unfold bind at 1. unfold get at 1. fields.
  cbn [inputs isEditingData with_form with_dataFromRepo].
  rewrite Hb, He. cbn [negb andb when].
  rewrite (keyDownEnter_blank_text_world depth _ "").
  - eexists. split; [reflexivity|]. fields. now rewrite <- app_assoc.
  - fields.
    change (freeValueAllowed
              (with_dataFromRepo {| arr_id := arrays w; arr_items := [] |} (this w))
            = true).
    now apply freeValueAllowed_emptied.
  - reflexivity.
  - reflexivity.
Qed.

Lemma enter_then_blur_emits_null_witness :
  let i := {| _allowEmptyRepository := true; allowFreeValueIfNoResults := true;
              autoComplete := true; autoResetWhenSelected := true;
              autoSelectValueIfOnlyOneResult := false; attachRawData := false;
              emitOccurenceOnBlur := true;
              restoreRepositoryValueAfterEditing := false |} in
  exists w',
    (keyDownEnter 2 ;; onBlur 2)
      (world_of (holding (Text "Quercus robur")
                   (configured i bdtfx_catalog "otherunknown")) [])
    = Done tt w'
    /\ trace w' = [] ++ [NewData (JRef 0); NewData JNull].
Proof.
  intros i.
  apply (enter_then_blur_emits_null 2
           (world_of (holding (Text "Quercus robur")
                        (configured i bdtfx_catalog "otherunknown")) [])
           "Quercus robur"); reflexivity.
Defined.

(** ** [stopEditingTaxo] and what it leaves alone *)

Lemma setRepository_contract_input (repository : jsval) (c : SearchBoxComponent) :
  input_control (form (setRepository_contract repository c)) = input_control (form c)
  /\ placeholder (setRepository_contract repository c) = placeholder c
  /\ isLoading (setRepository_contract repository c) = isLoading c
  /\ isSearching (setRepository_contract repository c) = isSearching c
  /\ lastUsedRepositoryValue (setRepository_contract repository c)
     = lastUsedRepositoryValue c
  /\ listRepo (setRepository_contract repository c) = listRepo c
  /\ inputs (setRepository_contract repository c) = inputs c.
Proof.
  unfold setRepository_contract.
  destruct (listed repository (listRepo c)); [cbn; repeat split|].
  destruct (_allowEmptyRepository (inputs c)); [cbn; repeat split|].
  destruct (listRepo c) eqn:E; cbn; rewrite ?E; repeat split.
Qed.

(** The world [stopEditingTaxo] leaves. *)
Lemma stopEditingTaxo_world (depth : nat) (w : world) :
  catalog_consistent (this w) ->
  2 <= depth ->
  stopEditingTaxo depth w
  = Done tt
      {| this :=
           with_dataFromRepo {| arr_id := arrays w; arr_items := [] |}
             ((if restoreRepositoryValueAfterEditing (inputs (this w))
               then setRepository_contract (lastUsedRepositoryValue (this w))
               else fun c => c)
                (with_placeholder (lastPlaceholderValue (this w))
                   (with_editingOccurenceId JNull
                      (with_isEditingData false (this w)))));
         heap := heap w; arrays := S (arrays w);
         validOccurenceRequests := validOccurenceRequests w;
         trace := trace w ++ [ClosePanel] |}.
Proof.
  intros Hc Hd. unfold stopEditingTaxo, bind, assign, get, when. fields.
  cbn [inputs with_placeholder with_editingOccurenceId with_isEditingData
       lastUsedRepositoryValue lastPlaceholderValue].
  destruct (restoreRepositoryValueAfterEditing (inputs (this w))).
  - destruct depth as [|[|depth']]; [lia|lia|].
    rewrite setRepository_returns; [|exact Hc].
    unfold call, clear_dataFromRepo, bind, new_array, assign. reflexivity.
  - unfold ret, call, clear_dataFromRepo, bind, new_array, assign. reflexivity.
Qed.

Lemma setRepository_contract_editing (repository : jsval) (c : SearchBoxComponent) :
  isEditingData (setRepository_contract repository c) = isEditingData c
  /\ editingOccurenceId (setRepository_contract repository c) = editingOccurenceId c
  /\ lastPlaceholderValue (setRepository_contract repository c)
     = lastPlaceholderValue c
  /\ dataFromRepo (setRepository_contract repository c) = dataFromRepo c.
Proof.
  unfold setRepository_contract.
  destruct (listed repository (listRepo c)); [cbn; repeat split|].
  destruct (_allowEmptyRepository (inputs c)); [cbn; repeat split|].
  destruct (listRepo c) eqn:E; cbn; rewrite ?E; repeat split.
Qed.

Lemma setRepository_contract_consistent (repository : jsval) (c : SearchBoxComponent) :
  catalog_consistent c -> catalog_consistent (setRepository_contract repository c).
Proof.
  unfold catalog_consistent.
  destruct (setRepository_contract_input repository c)
    as (_ & _ & _ & _ & _ & -> & ->).
  auto.
Qed.

(** Under the commit condition and during an edition, a text that is not
    blank makes [keyDownEnter] emit through [updatedData] a new record that
    carries the occurrence being edited, [otherunknown] and the text as
    typed, and then stop the edition; the input is emptied when
    [autoResetWhenSelected] is on, the edition being over by then. *)
Theorem keyDownEnter_updates_free_text (depth : nat) (w : world) (s : string) :
  freeValueAllowed (this w) = true ->
  input_control (form (this w)) = Text s ->
  string_forall is_space s = false ->
  isEditingData (this w) = true ->
  catalog_consistent (this w) ->
  2 <= depth ->
  exists w',
    keyDownEnter depth w = Done tt w'
    /\ trace w' = trace w ++
         [UpdatedData (JRef (S (length (heap w)))); ClosePanel]
    /\ heap w' !! S (length (heap w))
       = Some {| occurenceId := editingOccurenceId (this w);
                 repository := JStr "otherunknown"; idNomen := JNull;
                 idTaxo := JNull; name := JStr s; author := JNull;
                 isSynonym := JUndefined; validOccurence := JUndefined |}
    /\ (forall a, a < length (heap w) -> heap w' !! a = heap w !! a)
    /\ isEditingData (this w') = false
    /\ input_control (form (this w'))
       = (if autoResetWhenSelected (inputs (this w)) then Text "" else Text s).
Proof.
  intros Hc Hi Hs He Hk Hd. unfold keyDownEnter. unfold bind at 1. unfold get at 1.
  rewrite Hc, Hi, (not_blank_text s Hs).
  unfold bind at 1. unfold new_object at 1. rewrite He.
  unfold bind at 1 2. unfold clear_dataFromRepo at 1.
  unfold bind at 1. unfold new_array at 1. unfold assign at 1. fields.
  unfold bind at 1. unfold new_object at 1. fields.
  unfold bind at 1. unfold call at 1. fields.
  rewrite stopEditingTaxo_world; [|exact Hk|exact Hd]. fields.
  unfold bind at 1. unfold get at 1. fields.
  cbn [inputs with_dataFromRepo].
  assert (Hin : forall c0 : SearchBoxComponent,
             inputs ((if restoreRepositoryValueAfterEditing (inputs (this w))
                      then setRepository_contract (lastUsedRepositoryValue (this w))
                      else fun c => c) c0) = inputs c0).
  { intros c0. destruct (restoreRepositoryValueAfterEditing _); [|reflexivity].
    apply setRepository_contract_input. }
  assert (Hed : forall c0 : SearchBoxComponent,
             isEditingData ((if restoreRepositoryValueAfterEditing (inputs (this w))
                             then setRepository_contract (lastUsedRepositoryValue (this w))
                             else fun c => c) c0) = isEditingData c0).
  { intros c0. destruct (restoreRepositoryValueAfterEditing _); [|reflexivity].
    apply setRepository_contract_editing. }
  assert (Hic : forall c0 : SearchBoxComponent,
             input_control
               (form ((if restoreRepositoryValueAfterEditing (inputs (this w))
                       then setRepository_contract (lastUsedRepositoryValue (this w))
                       else fun c => c) c0)) = input_control (form c0)).
  { intros c0. destruct (restoreRepositoryValueAfterEditing _); [|reflexivity].
    apply setRepository_contract_input. }
  rewrite Hin. cbn [inputs with_placeholder with_editingOccurenceId
                    with_isEditingData with_dataFromRepo].
  assert (Hheap : forall a, a < length (heap w) ->
            ((heap w ++ [ {| occurenceId := JNull; repository := JNull;
                             idNomen := JNull; idTaxo := JNull; name := JNull;
                             author := JNull; isSynonym := JBool false;
                             validOccurence := JNull |} ]) ++
             [ {| occurenceId := editingOccurenceId (this w);
                  repository := JStr "otherunknown"; idNomen := JNull;
                  idTaxo := JNull; name := JStr s; author := JNull;
                  isSynonym := JUndefined; validOccurence := JUndefined |} ]) !! a
            = heap w !! a).
  { intros a Ha. rewrite !lookup_app_l; [reflexivity | lia |].
    rewrite length_app. simpl. lia. }
  assert (Hnew : forall x y : RepositoryItemModel,
            ((heap w ++ [x]) ++ [y]) !! S (length (heap w)) = Some y).
  { intros x y. replace (S (length (heap w))) with (length (heap w ++ [x]))
      by (rewrite length_app; simpl; lia).
    apply lookup_snoc. }
  rewrite length_app. cbn [length]. rewrite Nat.add_1_r.
  destruct (autoResetWhenSelected (inputs (this w)));
    unfold when, resetInput, bind, get, assign, ret; fields;
    cbn [isEditingData with_dataFromRepo]; rewrite ?Hed;
    cbn [isEditingData with_placeholder with_editingOccurenceId with_isEditingData];
    eexists; (split; [reflexivity|]); fields;
    (split; [now rewrite <- app_assoc|]);
    (split; [apply Hnew|]); (split; [exact Hheap|]);
    cbn [isEditingData form input_control with_form with_dataFromRepo];
    rewrite ?Hed, ?Hic;
    cbn [isEditingData form input_control with_placeholder with_editingOccurenceId
         with_isEditingData];
    auto.
Qed.

Lemma keyDownEnter_updates_free_text_witness :
  let w := world_of (editing 7 (holding (Text "Quercus robur")
                       (configured default_inputs bdtfx_catalog "otherunknown")))
             [candidate "Rosa canina" false] in
  exists w',
    keyDownEnter 2 w = Done tt w'
    /\ trace w' = [] ++ [UpdatedData (JRef 2); ClosePanel]
    /\ heap w' !! 2%nat
       = Some {| occurenceId := JNum 7; repository := JStr "otherunknown";
                 idNomen := JNull; idTaxo := JNull; name := JStr "Quercus robur";
                 author := JNull; isSynonym := JUndefined;
                 validOccurence := JUndefined |}.
Proof.
  intros w.
  destruct (keyDownEnter_updates_free_text 2 w "Quercus robur")
    as (w' & E & T & H & _);
    [reflexivity | reflexivity | reflexivity | reflexivity
     | intros _; reflexivity | lia |].
  exists w'. auto.
Defined.

(** ** [cancelEditingTaxo] *)

(** [cancelEditingTaxo] emits through [cancelUpdateData] the occurrence
    being edited, then stops the edition: the panel is closed, the edition
    flags are cleared, the placeholder saved at the start is back, the
    candidate buffer and the input are empty.  No object is touched. *)
Theorem cancelEditingTaxo_cancels (depth : nat) (w : world) :
  catalog_consistent (this w) ->
  2 <= depth ->
  exists w',
    cancelEditingTaxo depth w = Done tt w'
    /\ trace w' = trace w ++
         [CancelUpdateData (editingOccurenceId (this w)); ClosePanel]
    /\ heap w' = heap w
    /\ isEditingData (this w') = false
    /\ editingOccurenceId (this w') = JNull
    /\ placeholder (this w') = lastPlaceholderValue (this w)
    /\ arr_items (dataFromRepo (this w')) = []
    /\ input_control (form (this w')) = Text "".
Proof.
  intros Hk Hd. unfold cancelEditingTaxo. unfold bind at 1. unfold get at 1.
  unfold bind at 1. unfold call at 1.
  unfold bind at 1. rewrite stopEditingTaxo_world; [|exact Hk|exact Hd]. fields.
  unfold resetInput, bind, get, assign. fields.
  cbn [isEditingData with_dataFromRepo].
  destruct (restoreRepositoryValueAfterEditing (inputs (this w))).
  - destruct (setRepository_contract_editing (lastUsedRepositoryValue (this w))
                (with_placeholder (lastPlaceholderValue (this w))
                   (with_editingOccurenceId JNull
                      (with_isEditingData false (this w)))))
      as (E1 & E2 & E3 & E4).
    destruct (setRepository_contract_input (lastUsedRepositoryValue (this w))
                (with_placeholder (lastPlaceholderValue (this w))
                   (with_editingOccurenceId JNull
                      (with_isEditingData false (this w)))))
      as (F1 & F2 & _).
    rewrite E1. cbn [isEditingData with_placeholder with_editingOccurenceId
                     with_isEditingData].
    eexists. split; [reflexivity|]. fields.
    cbn [isEditingData editingOccurenceId placeholder dataFromRepo form
         input_control with_form with_dataFromRepo arr_items].
    rewrite E1, E2, F2, <- app_assoc. cbn. auto 10.
  - cbn [isEditingData with_placeholder with_editingOccurenceId with_isEditingData].
    eexists. split; [reflexivity|]. fields. rewrite <- app_assoc. cbn. auto 10.
Qed.

Lemma cancelEditingTaxo_cancels_witness :
  let w := world_of (editing 7 (holding (Text "Rosa canina L.")
                       (configured default_inputs bdtfx_catalog "bdtfx"))) [] in
  exists w',
    cancelEditingTaxo 2 w = Done tt w'
    /\ trace w' = [] ++ [CancelUpdateData (JNum 7); ClosePanel]
    /\ heap w' = []
    /\ isEditingData (this w') = false
    /\ editingOccurenceId (this w') = JNull
    /\ placeholder (this w') = JUndefined
    /\ arr_items (dataFromRepo (this w')) = []
    /\ input_control (form (this w')) = Text "".
Proof.
  intros w. apply (cancelEditingTaxo_cancels 2 w).
  - intros _. reflexivity.
  - lia.
Defined.

Lemma stopped_fields (a : jsarray) (c : SearchBoxComponent) :
  isEditingData (stopped a c) = false
  /\ editingOccurenceId (stopped a c) = JNull
  /\ placeholder (stopped a c) = lastPlaceholderValue c
  /\ dataFromRepo (stopped a c) = a
  /\ input_control (form (stopped a c)) = input_control (form c)
  /\ listRepo (stopped a c) = listRepo c
  /\ inputs (stopped a c) = inputs c.
Proof.
  unfold stopped. destruct (restoreRepositoryValueAfterEditing (inputs c)).
  - match goal with
    | |- context [setRepository_contract ?r ?x] =>
        destruct (setRepository_contract_editing r x) as (E1 & E2 & E3 & E4);
          destruct (setRepository_contract_input r x)
            as (F1 & F2 & F3 & F4 & F5 & F6 & F7)
    end.
    cbn [isEditingData editingOccurenceId placeholder dataFromRepo form listRepo
         inputs with_dataFromRepo].
    rewrite E1, E2, F1, F2, F6, F7. repeat split.
  - repeat split.
Qed.

Lemma stopped_consistent (a : jsarray) (c : SearchBoxComponent) :
  catalog_consistent c -> catalog_consistent (stopped a c).
Proof.
  unfold catalog_consistent.
  destruct (stopped_fields a c) as (_ & _ & _ & _ & _ & -> & ->). auto.
Qed.

Lemma stopEditingTaxo_stopped (depth : nat) (w : world) :
  catalog_consistent (this w) ->
  2 <= depth ->
  stopEditingTaxo depth w
  = Done tt
      {| this := stopped {| arr_id := arrays w; arr_items := [] |} (this w);
         heap := heap w; arrays := S (arrays w);
         validOccurenceRequests := validOccurenceRequests w;
         trace := trace w ++ [ClosePanel] |}.
Proof. apply stopEditingTaxo_world. Qed.

(** The world [cancelEditingTaxo] leaves. *)
Lemma cancelEditingTaxo_world (depth : nat) (w : world) :
  catalog_consistent (this w) ->
  2 <= depth ->
  cancelEditingTaxo depth w
  = Done tt
      {| this := input_reset
                   (stopped {| arr_id := arrays w; arr_items := [] |} (this w));
         heap := heap w; arrays := S (arrays w);
         validOccurenceRequests := validOccurenceRequests w;
         trace := trace w ++
           [CancelUpdateData (editingOccurenceId (this w)); ClosePanel] |}.
Proof.
  intros Hk Hd. unfold cancelEditingTaxo. unfold bind at 1. unfold get at 1.
  unfold bind at 1. unfold call at 1.
  unfold bind at 1. rewrite stopEditingTaxo_stopped; [|exact Hk|exact Hd]. fields.
  unfold resetInput, bind, get, assign. fields.
  destruct (stopped_fields {| arr_id := arrays w; arr_items := [] |} (this w))
    as (-> & _).
  now rewrite <- app_assoc.
Qed.

Lemma editing_of_fields (ep : string) (v : RepositoryItemModel)
    (c : SearchBoxComponent) :
  isEditingData (editing_of ep v c) = true
  /\ editingOccurenceId (editing_of ep v c) = occurenceId v
  /\ placeholder (editing_of ep v c) = JStr ep
  /\ lastPlaceholderValue (editing_of ep v c) = placeholder c
  /\ lastUsedRepositoryValue (editing_of ep v c) = currentRepository c
  /\ input_control (form (editing_of ep v c))
     = Text (startEditingTaxo_inputValue v)
  /\ listRepo (editing_of ep v c) = listRepo c
  /\ inputs (editing_of ep v c) = inputs c
  /\ currentRepository (editing_of ep v c)
     = currentRepository (setRepository_contract (repository v) c).
Proof.
  unfold editing_of.
  destruct (setRepository_contract_editing (repository v) (started ep v c))
    as (E1 & E2 & E3 & E4).
  destruct (setRepository_contract_input (repository v) (started ep v c))
    as (F1 & F2 & F3 & F4 & F5 & F6 & F7).
  cbn [holding isEditingData editingOccurenceId placeholder lastPlaceholderValue
       lastUsedRepositoryValue form input_control listRepo inputs
       currentRepository with_form].
  rewrite E1, E2, E3, F2, F5, F6, F7.
  repeat split.
  unfold setRepository_contract, started.
  cbn [listRepo inputs with_lastUsedRepositoryValue with_placeholder
       with_lastPlaceholderValue with_editingOccurenceId with_isEditingData].
  destruct (listed (repository v) (listRepo c)); [reflexivity|].
  destruct (_allowEmptyRepository (inputs c)); [reflexivity|].
  destruct (listRepo c); reflexivity.
Qed.

Lemma editing_of_consistent (ep : string) (v : RepositoryItemModel)
    (c : SearchBoxComponent) :
  catalog_consistent c -> catalog_consistent (editing_of ep v c).
Proof.
  unfold catalog_consistent.
  destruct (editing_of_fields ep v c) as (_ & _ & _ & _ & _ & _ & -> & -> & _).
  auto.
Qed.

(** The world [startEditingTaxo] leaves when no edition was going on. *)
Lemma startEditingTaxo_world (depth : nat) (ep : string) (v : RepositoryItemModel)
    (w : world) :
  isEditingData (this w) = false ->
  catalog_consistent (this w) ->
  2 <= depth ->
  startEditingTaxo depth ep v w
  = Done (startEditingTaxo_inputValue v) (with_this (editing_of ep v (this w)) w).
Proof.
  intros He Hk Hd. unfold startEditingTaxo. unfold bind at 1. unfold get at 1.
  rewrite He. unfold when, ret, bind, assign. fields.
  destruct depth as [|[|depth']]; [lia|lia|].
    rewrite setRepository_returns; [|exact Hk].
  reflexivity.
Qed.

(** The world [startEditingTaxo] leaves when an edition was going on: that
    of a start after [cancelEditingTaxo]. *)
Lemma startEditingTaxo_restart (depth : nat) (ep : string) (v : RepositoryItemModel)
    (w : world) :
  isEditingData (this w) = true ->
  catalog_consistent (this w) ->
  2 <= depth ->
  startEditingTaxo depth ep v w
  = Done (startEditingTaxo_inputValue v)
      {| this := editing_of ep v
                   (input_reset
                      (stopped {| arr_id := arrays w; arr_items := [] |} (this w)));
         heap := heap w; arrays := S (arrays w);
         validOccurenceRequests := validOccurenceRequests w;
         trace := trace w ++
           [CancelUpdateData (editingOccurenceId (this w)); ClosePanel] |}.
Proof.
  intros He Hk Hd.
  assert (Hf : isEditingData
                 (input_reset
                    (stopped {| arr_id := arrays w; arr_items := [] |} (this w)))
               = false).
  { cbn [input_reset isEditingData with_form]. apply stopped_fields. }
  assert (Hk1 : catalog_consistent
                  (input_reset
                     (stopped {| arr_id := arrays w; arr_items := [] |} (this w)))).
  { unfold catalog_consistent. cbn [input_reset inputs listRepo with_form].
    now apply stopped_consistent. }
  unfold startEditingTaxo. unfold bind at 1. unfold get at 1.
  rewrite He. cbn [when]. unfold bind at 1.
  rewrite (cancelEditingTaxo_world depth w Hk Hd).
  match goal with
  | |- ?rest ?w1 = _ =>
      transitivity (startEditingTaxo depth ep v w1);
        [|rewrite startEditingTaxo_world; [reflexivity | exact Hf | exact Hk1 | exact Hd]]
  end.
  symmetry. unfold startEditingTaxo. unfold bind at 1. unfold get at 1. fields.
  rewrite Hf. cbn [when]. unfold bind at 1. unfold ret at 1. reflexivity.
Qed.

(** ** The edit session *)

Lemma stopped_currentRepository (a : jsarray) (c : SearchBoxComponent) :
  (restoreRepositoryValueAfterEditing (inputs c) = true ->
   listed (lastUsedRepositoryValue c) (listRepo c) = true ->
   currentRepository (stopped a c) = lastUsedRepositoryValue c)
  /\ (restoreRepositoryValueAfterEditing (inputs c) = false ->
      currentRepository (stopped a c) = currentRepository c).
Proof.
  unfold stopped. split; intros ->.
  - intros Hl. unfold setRepository_contract.
    cbn [listRepo with_placeholder with_editingOccurenceId with_isEditingData].
    now rewrite Hl.
  - reflexivity.
Qed.

(** Starting the edition of a record and stopping it, from a component that
    was not editing: the placeholder is back to what it was, the edition flags
    are cleared, the panel is closed and nothing is emitted; the text put in
    the input for the record stays there.  With
    [restoreRepositoryValueAfterEditing], the repository in use before the
    edition is current again, provided the catalog lists it; without it, the
    repository of the record (or its fallback) stays current. *)
Theorem edit_round_trip (depth : nat) (ep : string) (v : RepositoryItemModel)
    (w : world) :
  isEditingData (this w) = false ->
  catalog_consistent (this w) ->
  2 <= depth ->
  exists w',
    (startEditingTaxo depth ep v ;; stopEditingTaxo depth) w = Done tt w'
    /\ trace w' = trace w ++ [ClosePanel]
    /\ heap w' = heap w
    /\ isEditingData (this w') = false
    /\ placeholder (this w') = placeholder (this w)
    /\ input_control (form (this w')) = Text (startEditingTaxo_inputValue v)
    /\ (restoreRepositoryValueAfterEditing (inputs (this w)) = true ->
        listed (currentRepository (this w)) (listRepo (this w)) = true ->
        currentRepository (this w') = currentRepository (this w))
    /\ (restoreRepositoryValueAfterEditing (inputs (this w)) = false ->
        currentRepository (this w')
        = currentRepository (setRepository_contract (repository v) (this w))).
Proof.
  intros He Hk Hd. unfold bind.
  rewrite startEditingTaxo_world; [|exact He|exact Hk|exact Hd].
  rewrite stopEditingTaxo_stopped;
    [|cbn [this with_this]; now apply editing_of_consistent|exact Hd].
  eexists. split; [reflexivity|]. fields. cbn [with_this this heap trace arrays].
  destruct (editing_of_fields ep v (this w))
    as (F1 & F2 & F3 & F4 & F5 & F6 & F7 & F8 & F9).
  match goal with
  | |- context [stopped ?a ?c] =>
      destruct (stopped_fields a c) as (S1 & S2 & S3 & S4 & S5 & S6 & S7);
        destruct (stopped_currentRepository a c) as (R1 & R2)
  end.
  rewrite F8, F5, F7 in R1. rewrite F8, F9 in R2.
  rewrite S1, S3, S5, F4, F6. auto 10.
Qed.

Lemma edit_round_trip_witness :
  let w := world_of (configured default_inputs bdtfx_catalog "bdtfx") [] in
  exists w',
    (startEditingTaxo 2 "Modifier" (candidate "Rosa canina" false)
       ;; stopEditingTaxo 2) w = Done tt w'
    /\ trace w' = [] ++ [ClosePanel]
    /\ heap w' = []
    /\ isEditingData (this w') = false
    /\ placeholder (this w') = JStr ""
    /\ input_control (form (this w')) = Text "Rosa canina L.".
Proof.
  intros w.
  destruct (edit_round_trip 2 "Modifier" (candidate "Rosa canina" false) w)
    as (w' & E & T & H & I & P & F & _);
    [reflexivity | intros _; reflexivity | lia |].
  exists w'. auto 10.
Defined.

Lemma input_reset_placeholder (c : SearchBoxComponent) :
  placeholder (input_reset c) = placeholder c.
Proof. reflexivity. Qed.

(** Starting the edition of [b] while that of [a] is going on: the
    cancellation of [a] is emitted, with the occurrence of [a], and the
    panel is closed, before anything of [b] is written; afterwards the
    component edits the occurrence of [b], and the placeholder saved for the
    end of the edition is still the one from before [a]. *)
Theorem edit_restart (depth : nat) (ep : string) (a b : RepositoryItemModel)
    (w : world) :
  isEditingData (this w) = false ->
  catalog_consistent (this w) ->
  2 <= depth ->
  exists w',
    (startEditingTaxo depth ep a ;; startEditingTaxo depth ep b) w
    = Done (startEditingTaxo_inputValue b) w'
    /\ trace w' = trace w ++ [CancelUpdateData (occurenceId a); ClosePanel]
    /\ isEditingData (this w') = true
    /\ editingOccurenceId (this w') = occurenceId b
    /\ placeholder (this w') = JStr ep
    /\ lastPlaceholderValue (this w') = placeholder (this w)
    /\ input_control (form (this w')) = Text (startEditingTaxo_inputValue b).
Proof.
  intros He Hk Hd. unfold bind.
  rewrite startEditingTaxo_world; [|exact He|exact Hk|exact Hd].
  destruct (editing_of_fields ep a (this w))
    as (F1 & F2 & F3 & F4 & F5 & F6 & F7 & F8 & F9).
  rewrite startEditingTaxo_restart;
    [|exact F1|cbn [this with_this]; now apply editing_of_consistent|exact Hd].
  eexists. split; [reflexivity|]. fields. cbn [with_this this heap trace arrays].
  rewrite F2.
  remember (editing_of ep a (this w)) as c1 eqn:E1.
  remember {| arr_id := arrays w; arr_items := [] |} as x eqn:Ex.
  destruct (stopped_fields x c1) as (S1 & S2 & S3 & _).
  pose proof (input_reset_placeholder (stopped x c1)) as P.
  remember (input_reset (stopped x c1)) as c2 eqn:E2.
  destruct (editing_of_fields ep b c2)
    as (G1 & G2 & G3 & G4 & G5 & G6 & G7 & G8 & G9).
  rewrite G1, G2, G3, G4, G6, P, S3, F4.
  repeat split.
Qed.

Lemma edit_restart_witness :
  let w := world_of (configured default_inputs bdtfx_catalog "bdtfx") [] in
  let a := set_occurenceId (JNum 7) (candidate "Rosa canina" false) in
  let b := set_occurenceId (JNum 8) (candidate "Rosa gallica" false) in
  exists w',
    (startEditingTaxo 2 "Modifier" a ;; startEditingTaxo 2 "Modifier" b) w
    = Done "Rosa gallica L." w'
    /\ trace w' = [] ++ [CancelUpdateData (JNum 7); ClosePanel]
    /\ isEditingData (this w') = true
    /\ editingOccurenceId (this w') = JNum 8.
Proof.
  intros w a b.
  destruct (edit_restart 2 "Modifier" a b w)
    as (w' & E & T & I & O & _);
    [reflexivity | intros _; reflexivity | lia |].
  exists w'. auto.
Defined.

Lemma append_assoc (s t u : string) : ((s ++ t) ++ u = s ++ (t ++ u))%string.
Proof.
  induction s as [|c s IH]; simpl; [reflexivity|]. now rewrite IH.
Qed.

Lemma append_empty (s : string) : (s ++ "" = s)%string.
Proof.
  induction s as [|c s IH]; simpl; [reflexivity|]. now rewrite IH.
Qed.

(** For a record whose name is a string that is not empty, the text
    [startEditingTaxo] puts in the input is the text
    [displayInputWithAuthor] shows for the record: the name, and the author
    after a space when there is one. *)
Theorem edit_text_is_displayed_text (h : list RepositoryItemModel) (a : addr)
    (r : RepositoryItemModel) (n : string) :
  h !! a = Some r ->
  name r = JStr n ->
  n <> "" ->
  displayInputWithAuthor h (Selected a) = Some (JStr (startEditingTaxo_inputValue r)).
Proof.
  intros Ha Hn Hne. unfold displayInputWithAuthor, startEditingTaxo_inputValue.
  rewrite Ha, Hn. cbn [truthy strict_eq to_string].
  replace (String.eqb n "") with false
    by (symmetry; now apply String.eqb_neq).
  cbn [negb andb].
  destruct (has_author r).
  - now rewrite append_assoc.
  - now rewrite append_empty.
Qed.

Lemma edit_text_is_displayed_text_witness :
  displayInputWithAuthor [candidate "Rosa canina" false] (Selected 0)
  = Some (JStr "Rosa canina L.").
Proof.
  apply (edit_text_is_displayed_text [candidate "Rosa canina" false] 0
           (candidate "Rosa canina" false) "Rosa canina");
    [reflexivity | reflexivity | discriminate].
Defined.

(** ** The subscriber, beyond the empty answer *)

(** [subscribe_next] with the autocomplete on and no automatic selection. *)
Lemma subscribe_next_kept (depth : nat) (results : jsarray) (w : world) :
  array_known results w ->
  autoComplete (inputs (this w)) = true ->
  autoSelectValueIfOnlyOneResult (inputs (this w)) = false ->
  exists w',
    subscribe_next depth results w = Done tt w'
    /\ dataFromRepo (this w') = results
    /\ trace w' = trace w ++ OpenPanel ::
         (if Nat.ltb 1 (length (arr_items results)) && isEditingData (this w)
             && negb (panelOpen (this w))
          then [OpenPanel] else [])
    /\ heap w' = heap w
    /\ isLoading (this w') = false
    /\ isSearching (this w') = false
    /\ currentRepository (this w') = currentRepository (this w).
Proof.
  intros Hk Hac Has. unfold subscribe_next.
  unfold bind at 1. unfold new_array at 1.
  rewrite (known_array_is_not_new results w [] Hk). cbn [negb].
  unfold bind at 1. unfold call at 1.
  unfold bind at 1. unfold assign at 1.
  unfold bind at 1. unfold assign at 1.
  unfold bind at 1. unfold assign at 1.
  unfold bind at 1. unfold get at 1. fields.
  cbn [inputs dataFromRepo isEditingData panelOpen with_isSearching with_isLoading
       with_dataFromRepo].
  rewrite Hac, Has. cbn [andb].
  destruct (Nat.ltb 1 (length (arr_items results))); cbn [andb];
    [destruct (isEditingData (this w)); cbn [andb];
     [destruct (panelOpen (this w)); cbn [negb]|]|];
    unfold when, bind, call, get, ret; fields;
    cbn [inputs with_isSearching with_isLoading with_dataFromRepo];
    rewrite Hac; cbn [negb];
    eexists; (split; [reflexivity|]); fields;
    rewrite <- ?app_assoc; repeat split.
Qed.

(** With the autocomplete on and the automatic selection of a single result
    off, [subscribe_next] keeps any answer in the candidate buffer and emits
    nothing: it opens the panel, once more when an edition is going on, there
    is more than one result and the panel is not open, and it lowers
    [isLoading] and [isSearching]. *)
Theorem answer_is_kept_for_the_panel (depth : nat) (results : jsarray) (w : world) :
  array_known results w ->
  autoComplete (inputs (this w)) = true ->
  autoSelectValueIfOnlyOneResult (inputs (this w)) = false ->
  exists w',
    subscribe_next depth results w = Done tt w'
    /\ dataFromRepo (this w') = results
    /\ trace w' = trace w ++ OpenPanel ::
         (if Nat.ltb 1 (length (arr_items results)) && isEditingData (this w)
             && negb (panelOpen (this w))
          then [OpenPanel] else [])
    /\ heap w' = heap w
    /\ isLoading (this w') = false
    /\ isSearching (this w') = false
    /\ currentRepository (this w') = currentRepository (this w).
Proof. exact (subscribe_next_kept depth results w). Qed.

Lemma answer_is_kept_for_the_panel_witness :
  let w := world_of (editing 7 (configured default_inputs bdtfx_catalog "bdtfx"))
             [candidate "Rosa canina" false; candidate "Rosa gallica" false] in
  exists w',
    subscribe_next 2 {| arr_id := 0; arr_items := [0; 1] |} w = Done tt w'
    /\ dataFromRepo (this w') = {| arr_id := 0; arr_items := [0; 1] |}
    /\ trace w' = [] ++ [OpenPanel; OpenPanel].
Proof.
  intros w.
  destruct (answer_is_kept_for_the_panel 2 {| arr_id := 0; arr_items := [0; 1] |} w)
    as (w' & E & D & T & _);
    [unfold array_known; simpl; lia | reflexivity | reflexivity |].
  exists w'. auto.
Defined.

(** With the autocomplete off, [subscribe_next] hands any answer to
    [allResults] and keeps nothing of it: the candidate buffer is empty
    afterwards, and no result is selected or emitted as data, be it alone and
    the automatic selection on. *)
Theorem answer_is_handed_over (depth : nat) (results : jsarray) (w : world) :
  array_known results w ->
  autoComplete (inputs (this w)) = false ->
  exists w',
    subscribe_next depth results w = Done tt w'
    /\ trace w' = trace w ++ [OpenPanel; AllResults results]
    /\ arr_items (dataFromRepo (this w')) = []
    /\ heap w' = heap w
    /\ validOccurenceRequests w' = validOccurenceRequests w
    /\ isLoading (this w') = false
    /\ isSearching (this w') = false.
Proof.
  intros Hk Hac. unfold subscribe_next.
  unfold bind at 1. unfold new_array at 1.
  rewrite (known_array_is_not_new results w [] Hk). cbn [negb].
  unfold bind at 1. unfold call at 1.
  unfold bind at 1. unfold assign at 1.
  unfold bind at 1. unfold assign at 1.
  unfold bind at 1. unfold assign at 1.
  unfold bind at 1. unfold get at 1. fields.
  cbn [inputs dataFromRepo isEditingData panelOpen with_isSearching with_isLoading
       with_dataFromRepo].
  rewrite Hac. cbn [andb].
  unfold when, clear_dataFromRepo, bind, new_array, assign, call, get, ret; fields.
  cbn [inputs with_isSearching with_isLoading with_dataFromRepo].
  rewrite Hac. cbn [negb].
  eexists. split; [reflexivity|]. fields. rewrite <- app_assoc. repeat split.
Qed.

Lemma answer_is_handed_over_witness :
  let i := {| _allowEmptyRepository := true; allowFreeValueIfNoResults := true;
              autoComplete := false; autoResetWhenSelected := true;
              autoSelectValueIfOnlyOneResult := true; attachRawData := false;
              emitOccurenceOnBlur := false;
              restoreRepositoryValueAfterEditing := false |} in
  let w := world_of (configured i bdtfx_catalog "bdtfx")
             [candidate "Rosa canina" false] in
  exists w',
    subscribe_next 2 {| arr_id := 0; arr_items := [0] |} w = Done tt w'
    /\ trace w' = [] ++ [OpenPanel; AllResults {| arr_id := 0; arr_items := [0] |}]
    /\ arr_items (dataFromRepo (this w')) = [].
Proof.
  intros i w.
  destruct (answer_is_handed_over 2 {| arr_id := 0; arr_items := [0] |} w)
    as (w' & E & T & D & _);
    [unfold array_known; simpl; lia | reflexivity |].
  exists w'. auto.
Defined.

(** ** The chain *)

(** A value that the input replaces before the 400 ms of [debounceTime] are
    over is never classified: the system is left as if the last value alone
    had been entered. *)
Theorem debounced_value_is_replaced (depth : nat) (v1 v2 : input_value) (ms : nat)
    (s : system) :
  closed (rx s) = false ->
  ms < 400 ->
  run depth [InputChange v1; Elapse ms; InputChange v2] s
  = run depth [InputChange v2] s.
Proof.
  intros Hc Hm. destruct s as [w p]. cbn [rx comp] in *.
  cbn [run step rx comp]. rewrite Hc.
  unfold lift, bind, assign. cbn [comp rx debounce_pending closed].
  replace (Nat.leb 400 ms) with false by (symmetry; apply Nat.leb_gt; lia).
  cbn [comp rx closed distinct_last switch_inner lookups_issued].
  reflexivity.
Qed.

Lemma debounced_value_is_replaced_witness :
  run 2 [InputChange (Text "ro"); Elapse 399; InputChange (Text "ros")]
    (system_of (configured default_inputs bdtfx_catalog "bdtfx") [])
  = run 2 [InputChange (Text "ros")]
      (system_of (configured default_inputs bdtfx_catalog "bdtfx") []).
Proof.
  apply (debounced_value_is_replaced 2 (Text "ro") (Text "ros") 399
           (system_of (configured default_inputs bdtfx_catalog "bdtfx") []));
    [reflexivity | lia].
Defined.

(** The function given to [switchMap], on a text, when the current
    repository is [otherunknown]. *)
Lemma switchMap_project_otherunknown (depth : nat) (s : string) (w : world) :
  currentRepository (this w) = JStr "otherunknown" ->
  exists a w1,
    switchMap_project depth (Text s) w = Done (Of a) w1
    /\ arr_items a = []
    /\ array_known a w1
    /\ trace w1 = trace w
    /\ this w1 = this w.
Proof.
  intros Hr. unfold switchMap_project, bind, get. rewrite Hr.
  cbn [strict_eq String.eqb Ascii.eqb Bool.eqb negb].
  unfold new_array, ret.
  do 2 eexists. split; [reflexivity|]. unfold array_known. cbn. auto.
Qed.

(** While [otherunknown] is the current repository, no text is ever sent to
    the repository service: whatever the text, the debounced value is dropped
    as a repeat or classified without a lookup. *)
Theorem free_entry_issues_no_lookup (depth : nat) (s : string) (sys : system) :
  currentRepository (this (comp sys)) = JStr "otherunknown" ->
  exists sys',
    distinctUntilChanged depth (Text s) sys = Done tt sys'
    /\ lookups_issued (rx sys') = lookups_issued (rx sys)
    /\ search_calls (trace (comp sys')) = search_calls (trace (comp sys))
    /\ heap (comp sys') = heap (comp sys).
Proof.
  intros Hr.
  assert (Hpass : forall sys0 : system,
             comp sys0 = comp sys ->
             exists sys',
               switchMap depth (Text s) sys0 = Done tt sys'
               /\ lookups_issued (rx sys') = lookups_issued (rx sys0)
               /\ search_calls (trace (comp sys')) = search_calls (trace (comp sys))
               /\ heap (comp sys') = heap (comp sys)).
  { intros sys0 Hs0.
    destruct (switchMap_project_otherunknown depth s (comp sys0))
      as (a & w1 & Hp & Hi & Hk & Ht & Hc); [now rewrite Hs0|].
    destruct (switchMap_of depth (Text s) sys0 a w1 Hp Hi Hk)
      as (w' & E & T & H & _).
    eexists. split; [exact E|]. cbn [comp rx lookups_issued].
    split; [reflexivity|]. split.
    - rewrite T, Ht, Hs0, search_calls_app.
      destruct (autoComplete (inputs (this w1))); cbn; lia.
    - rewrite H. unfold switchMap_project, bind, get in Hp.
      rewrite Hs0, Hr in Hp. cbn in Hp. inversion Hp. reflexivity. }
  unfold distinctUntilChanged.
  destruct (distinct_last (rx sys)) as [last|].
  - destruct (same_input last (Text s)).
    + exists sys. auto.
    + match goal with |- context [switchMap depth (Text s) ?x] =>
        destruct (Hpass x eq_refl) as (sys' & E & A & B & C) end.
      exists sys'. cbn in A. auto.
  - match goal with |- context [switchMap depth (Text s) ?x] =>
      destruct (Hpass x eq_refl) as (sys' & E & A & B & C) end.
    exists sys'. cbn in A. auto.
Qed.

Lemma free_entry_issues_no_lookup_witness :
  exists sys',
    distinctUntilChanged 2 (Text "Quercus")
      (system_of (configured default_inputs bdtfx_catalog "otherunknown") [])
    = Done tt sys'
    /\ lookups_issued (rx sys') = 0
    /\ search_calls (trace (comp sys')) = 0
    /\ heap (comp sys') = [].
Proof.
  apply (free_entry_issues_no_lookup 2 "Quercus"
           (system_of (configured default_inputs bdtfx_catalog "otherunknown") [])).
  reflexivity.
Defined.

(** ** A change of repository *)

(** What the watcher of the repository control does. *)
Lemma repository_valueChanges_spec (repoValue : jsval) (w : world) :
  exists w',
    repository_valueChanges repoValue w = Done tt w'
    /\ currentRepository (this w') = repoValue
    /\ trace w' = trace w ++ [SelectedRepository repoValue]
    /\ heap w' = heap w
    /\ isEditingData (this w') = isEditingData (this w)
    /\ inputs (this w') = inputs (this w)
    /\ (isEditingData (this w) = true ->
        form (this w') = form (this w)
        /\ dataFromRepo (this w') = dataFromRepo (this w))
    /\ (isEditingData (this w) = false ->
        input_control (form (this w')) = Text ""
        /\ arr_items (dataFromRepo (this w')) = []).
Proof.
  unfold repository_valueChanges. unfold bind at 1. unfold assign at 1.
  unfold bind at 1. unfold get at 1. fields.
  cbn [isEditingData with_currentRepository].
  destruct (isEditingData (this w)) eqn:He; cbn [negb when];
    unfold resetInput, clear_dataFromRepo, bind, get, assign, new_array, call, ret;
    fields; cbn [isEditingData with_currentRepository]; rewrite ?He;
    eexists; (split; [reflexivity|]); fields; cbn;
    repeat split; auto; discriminate.
Qed.

(** The watcher of the repository control makes the value the current
    repository and announces it once through [selectedRepository].  While an
    edition is going on it leaves the input and the candidate buffer as they
    are; otherwise it empties both.  It touches no object. *)
Theorem repository_change (repoValue : jsval) (w : world) :
  exists w',
    repository_valueChanges repoValue w = Done tt w'
    /\ currentRepository (this w') = repoValue
    /\ trace w' = trace w ++ [SelectedRepository repoValue]
    /\ heap w' = heap w
    /\ isEditingData (this w') = isEditingData (this w)
    /\ (isEditingData (this w) = true ->
        form (this w') = form (this w)
        /\ dataFromRepo (this w') = dataFromRepo (this w))
    /\ (isEditingData (this w) = false ->
        input_control (form (this w')) = Text ""
        /\ arr_items (dataFromRepo (this w')) = []).
Proof.
  destruct (repository_valueChanges_spec repoValue w)
    as (w' & E & C & T & H & S & _ & F).
  exists w'. auto 10.
Qed.

Lemma receive_spec (items : list RepositoryItemModel) :
  forall w : world,
    receive items w
    = Done (seq (length (heap w)) (length items))
        {| this := this w; heap := heap w ++ items; arrays := arrays w;
           validOccurenceRequests := validOccurenceRequests w;
           trace := trace w |}.
Proof.
  induction items as [|r items IH]; intros w; cbn [receive].
  - unfold ret. rewrite app_nil_r. now destruct w.
  - unfold bind at 1. unfold new_object at 1.
    unfold bind at 1. rewrite IH. fields. unfold ret.
    rewrite length_app, <- app_assoc. cbn [length app seq].
    now rewrite Nat.add_1_r.
Qed.

(** A change of repository does not supersede the lookup under way: its
    answer, asked of the previous repository, is still applied after the
    change, and fills the candidate buffer under the new current
    repository. *)
Theorem repository_change_keeps_the_lookup (depth : nat) (id : nat)
    (repoValue : jsval) (items : list RepositoryItemModel) (s : system) :
  switch_inner (rx s) = Some id ->
  autoComplete (inputs (this (comp s))) = true ->
  autoSelectValueIfOnlyOneResult (inputs (this (comp s))) = false ->
  exists s',
    run depth [RepositoryChange repoValue; LookupResponse id items] s = Done tt s'
    /\ currentRepository (this (comp s')) = repoValue
    /\ arr_items (dataFromRepo (this (comp s')))
       = seq (length (heap (comp s))) (length items)
    /\ heap (comp s') = heap (comp s) ++ items
    /\ search_calls (trace (comp s')) = search_calls (trace (comp s)).
Proof.
  intros Hi Hac Has. destruct s as [w p]. cbn [comp rx] in *.
  cbn [run step rx comp]. unfold lift. cbn [comp].
  unfold bind at 1. unfold assign at 1.
  match goal with
  | |- context [repository_valueChanges repoValue ?w0] =>
      destruct (repository_valueChanges_spec repoValue w0)
        as (w1 & E1 & C1 & T1 & H1 & _ & I1 & _)
  end.
  cbn [this heap trace inputs with_form] in T1, H1, I1.
  rewrite E1. cbn [rx comp]. rewrite Hi, Nat.eqb_refl.
  unfold bind at 1. rewrite receive_spec. unfold new_array. fields.
  unfold inner_notification, catchError, subscriber. unfold bind at 1. cbn [comp].
  match goal with
  | |- context [subscribe_next depth ?a ?w2] =>
      destruct (subscribe_next_kept depth a w2)
        as (w' & E & D & T & H & _ & _ & C);
        [unfold array_known; cbn; lia
        | cbn [this]; now rewrite I1
        | cbn [this]; now rewrite I1 |]
  end.
  rewrite E. unfold ret. eexists. split; [reflexivity|]. cbn [comp].
  rewrite D, H, C, T. cbn [this heap trace arr_items].
  rewrite H1, C1, T1. repeat split.
  rewrite !search_calls_app. cbn [search_calls].
  match goal with
  | |- context [if ?b then _ else _] => destruct b
  end; cbn; lia.
Qed.

Lemma repository_change_keeps_the_lookup_witness :
  let s := {| comp := world_of (configured default_inputs bdtfx_catalog "bdtfx") [];
              rx := {| debounce_pending := None; distinct_last := Some (Text "ros");
                       switch_inner := Some 0; lookups_issued := 1;
                       closed := false |} |} in
  exists s',
    run 2 [RepositoryChange (JStr "otherunknown");
           LookupResponse 0 [candidate "Rosa canina" false]] s = Done tt s'
    /\ currentRepository (this (comp s')) = JStr "otherunknown"
    /\ arr_items (dataFromRepo (this (comp s'))) = seq 0 1.
Proof.
  intros s.
  destruct (repository_change_keeps_the_lookup 2 0 (JStr "otherunknown")
              [candidate "Rosa canina" false] s)
    as (s' & E & C & D & _); [reflexivity | reflexivity | reflexivity |].
  exists s'. auto.
Defined.

(** ** [updateData] *)

(** [switchMap] on a text that is not blank, the current repository not
    being [otherunknown]: [isLoading] is raised and the text is sent to
    [findDataFromRepo], the lookup taking the next number. *)
Lemma switchMap_lookup (depth : nat) (t : string) (s : system) :
  strict_eq (currentRepository (this (comp s))) (JStr "otherunknown") = false ->
  string_forall is_space t = false ->
  switchMap depth (Text t) s
  = Done tt
      {| comp := {| this := with_isLoading true (this (comp s));
                    heap := heap (comp s); arrays := arrays (comp s);
                    validOccurenceRequests := validOccurenceRequests (comp s);
                    trace := trace (comp s) ++
                      [FindDataFromRepoCall (lookups_issued (rx s))
                         (currentRepository (this (comp s))) t
                         (attachRawData (inputs (this (comp s))))] |};
         rx := {| debounce_pending := debounce_pending (rx s);
                  distinct_last := distinct_last (rx s);
                  switch_inner := Some (lookups_issued (rx s));
                  lookups_issued := S (lookups_issued (rx s));
                  closed := closed (rx s) |} |}.
Proof.
  intros Hr Hs. unfold switchMap.
  unfold switchMap_project, bind, get.
  rewrite Hr. cbn [negb]. rewrite (not_blank_text _ Hs).
  unfold assign, ret. unfold lift, call. reflexivity.
Qed.

(** The system after the debounce delay of a text that is looked up. *)
Lemma step_elapse_lookup (depth : nat) (t : string) (wait ms : nat)
    (s : system) :
  debounce_pending (rx s) = Some (Text t, wait) ->
  wait <= ms ->
  distinct_last (rx s) <> Some (Text t) ->
  strict_eq (currentRepository (this (comp s))) (JStr "otherunknown") = false ->
  string_forall is_space t = false ->
  step depth (Elapse ms) s
  = Done tt
      {| comp := {| this := with_isLoading true (this (comp s));
                    heap := heap (comp s); arrays := arrays (comp s);
                    validOccurenceRequests := validOccurenceRequests (comp s);
                    trace := trace (comp s) ++
                      [FindDataFromRepoCall (lookups_issued (rx s))
                         (currentRepository (this (comp s))) t
                         (attachRawData (inputs (this (comp s))))] |};
         rx := {| debounce_pending := None;
                  distinct_last := Some (Text t);
                  switch_inner := Some (lookups_issued (rx s));
                  lookups_issued := S (lookups_issued (rx s));
                  closed := closed (rx s) |} |}.
Proof.
  intros Hp Hw Hl Hr Hs. cbn [step]. rewrite Hp.
  replace (Nat.leb wait ms) with true by (symmetry; apply Nat.leb_le; lia).
  unfold distinctUntilChanged. cbn [rx comp distinct_last].
  destruct (distinct_last (rx s)) as [last|] eqn:El.
  - destruct (same_input last (Text t)) eqn:Es.
    + apply same_input_true in Es. subst last. now destruct Hl.
    + rewrite switchMap_lookup; [reflexivity | exact Hr | exact Hs].
  - rewrite switchMap_lookup; [reflexivity | exact Hr | exact Hs].
Qed.

(** A text that is not blank, held back by [debounceTime] and not a repeat
    of the last value, is sent to [findDataFromRepo] once its time is over,
    with the current repository when that is not [otherunknown]: the lookup
    takes the next number and becomes the one subscribed to, [isLoading] is
    raised, and nothing else changes. *)
Theorem debounced_text_is_looked_up (depth : nat) (t : string) (wait ms : nat)
    (s : system) :
  debounce_pending (rx s) = Some (Text t, wait) ->
  wait <= ms ->
  distinct_last (rx s) <> Some (Text t) ->
  strict_eq (currentRepository (this (comp s))) (JStr "otherunknown") = false ->
  string_forall is_space t = false ->
  step depth (Elapse ms) s
  = Done tt
      {| comp := {| this := with_isLoading true (this (comp s));
                    heap := heap (comp s); arrays := arrays (comp s);
                    validOccurenceRequests := validOccurenceRequests (comp s);
                    trace := trace (comp s) ++
                      [FindDataFromRepoCall (lookups_issued (rx s))
                         (currentRepository (this (comp s))) t
                         (attachRawData (inputs (this (comp s))))] |};
         rx := {| debounce_pending := None;
                  distinct_last := Some (Text t);
                  switch_inner := Some (lookups_issued (rx s));
                  lookups_issued := S (lookups_issued (rx s));
                  closed := closed (rx s) |} |}.
Proof. exact (step_elapse_lookup depth t wait ms s). Qed.

Lemma debounced_text_is_looked_up_witness :
  let s := {| comp := world_of (configured default_inputs bdtfx_catalog "bdtfx") [];
              rx := {| debounce_pending := Some (Text "ros", 150);
                       distinct_last := Some (Text "ro");
                       switch_inner := Some 0; lookups_issued := 1;
                       closed := false |} |} in
  step 2 (Elapse 150) s
  = Done tt
      {| comp := {| this := with_isLoading true (this (comp s));
                    heap := []; arrays := 1; validOccurenceRequests := [];
                    trace := [] ++ [FindDataFromRepoCall 1 (JStr "bdtfx") "ros" false] |};
         rx := {| debounce_pending := None; distinct_last := Some (Text "ros");
                  switch_inner := Some 1; lookups_issued := 2;
                  closed := false |} |}.
Proof.
  intros s.
  apply (debounced_text_is_looked_up 2 "ros" 150 150 s);
    [reflexivity | lia | discriminate | reflexivity | reflexivity].
Defined.

Lemma editing_of_isSearching (ep : string) (v : RepositoryItemModel)
    (c : SearchBoxComponent) :
  isSearching (editing_of ep v c) = isSearching c.
Proof.
  unfold editing_of. cbn [holding isSearching with_form].
  destruct (setRepository_contract_input (repository v) (started ep v c))
    as (_ & _ & _ & -> & _).
  reflexivity.
Qed.

(** The system [updateData] leaves when no edition was going on. *)
Lemma updateData_world (depth : nat) (ep : string) (b : bool)
    (v : RepositoryItemModel) (w : world) (p : pipeline) :
  isEditingData (this w) = false ->
  catalog_consistent (this w) ->
  2 <= depth ->
  updateData depth ep b (Some v) {| comp := w; rx := p |}
  = Done tt
      {| comp := {| this := (if b then with_isSearching true else fun c => c)
                              (editing_of ep v (this w));
                    heap := heap w; arrays := arrays w;
                    validOccurenceRequests := validOccurenceRequests w;
                    trace := trace w |};
         rx := if b then
                 if closed p then p
                 else {| debounce_pending :=
                           Some (Text (startEditingTaxo_inputValue v), 400);
                         distinct_last := distinct_last p;
                         switch_inner := switch_inner p;
                         lookups_issued := lookups_issued p;
                         closed := closed p |}
               else p |}.
Proof.
  intros He Hk Hd. unfold updateData. cbn [comp rx].
  rewrite startEditingTaxo_world; [|exact He|exact Hk|exact Hd].
  destruct b; reflexivity.
Qed.

Lemma edit_text_is_not_searched (depth : nat) (ep : string)
    (v : RepositoryItemModel) (s : system) :
  isEditingData (this (comp s)) = false ->
  catalog_consistent (this (comp s)) ->
  2 <= depth ->
  exists s1,
    updateData depth ep false (Some v) s = Done tt s1
    /\ rx s1 = rx s
    /\ trace (comp s1) = trace (comp s)
    /\ isEditingData (this (comp s1)) = true
    /\ isSearching (this (comp s1)) = isSearching (this (comp s)).
Proof.
  intros He Hk Hd. destruct s as [w p]. cbn [comp rx] in *.
  rewrite updateData_world; [|exact He|exact Hk|exact Hd].
  eexists. split; [reflexivity|]. cbn [comp rx this trace].
  rewrite editing_of_isSearching.
  destruct (editing_of_fields ep v (this w)) as (-> & _).
  repeat split.
Qed.

Lemma isEditingData_loading_searching (b b' : bool) (c : SearchBoxComponent) :
  isEditingData (with_isLoading b (with_isSearching b' c)) = isEditingData c.
Proof. reflexivity. Qed.

Lemma lookup_after_patch (depth : nat) (c1 : SearchBoxComponent) (t : string)
    (w : world) (p : pipeline) :
  strict_eq (currentRepository c1) (JStr "otherunknown") = false ->
  string_forall is_space t = false ->
  distinct_last p <> Some (Text t) ->
  step depth (Elapse 400)
    {| comp := {| this := with_isSearching true c1; heap := heap w;
                  arrays := arrays w;
                  validOccurenceRequests := validOccurenceRequests w;
                  trace := trace w |};
       rx := {| debounce_pending := Some (Text t, 400);
                distinct_last := distinct_last p; switch_inner := switch_inner p;
                lookups_issued := lookups_issued p; closed := false |} |}
  = Done tt
      {| comp := {| this := with_isLoading true (with_isSearching true c1);
                    heap := heap w; arrays := arrays w;
                    validOccurenceRequests := validOccurenceRequests w;
                    trace := trace w ++
                      [FindDataFromRepoCall (lookups_issued p)
                         (currentRepository c1) t (attachRawData (inputs c1))] |};
         rx := {| debounce_pending := None; distinct_last := Some (Text t);
                  switch_inner := Some (lookups_issued p);
                  lookups_issued := S (lookups_issued p); closed := false |} |}.
Proof.
  intros Hr Hs Hl.
  apply step_elapse_lookup with (wait := 400).
  - reflexivity.
  - apply le_n.
  - exact Hl.
  - exact Hr.
  - exact Hs.
Qed.

Lemma edit_text_is_searched (depth : nat) (ep : string)
    (v : RepositoryItemModel) (s : system) :
  isEditingData (this (comp s)) = false ->
  catalog_consistent (this (comp s)) ->
  2 <= depth ->
  closed (rx s) = false ->
  string_forall is_space (startEditingTaxo_inputValue v) = false ->
  strict_eq (currentRepository
               (setRepository_contract (repository v) (this (comp s))))
            (JStr "otherunknown") = false ->
  distinct_last (rx s) <> Some (Text (startEditingTaxo_inputValue v)) ->
  exists s1 s2,
    updateData depth ep true (Some v) s = Done tt s1
    /\ trace (comp s1) = trace (comp s)
    /\ isSearching (this (comp s1)) = true
    /\ step depth (Elapse 400) s1 = Done tt s2
    /\ trace (comp s2) = trace (comp s) ++
         [FindDataFromRepoCall (lookups_issued (rx s))
            (currentRepository
               (setRepository_contract (repository v) (this (comp s))))
            (startEditingTaxo_inputValue v)
            (attachRawData (inputs (this (comp s))))]
    /\ isLoading (this (comp s2)) = true
    /\ isEditingData (this (comp s2)) = true.
Proof.
  destruct s as [w p]. cbn [comp rx].
  intros He Hk Hd Hc Hs Hr Hl.
  destruct (editing_of_fields ep v (this w))
    as (F1 & _ & _ & _ & _ & _ & _ & F8 & F9).
  rewrite <- F9 in Hr.
  pose proof (lookup_after_patch depth (editing_of ep v (this w))
                (startEditingTaxo_inputValue v) w p Hr Hs Hl) as L.
  rewrite F9, F8 in L.
  pose proof (updateData_world depth ep true v w p He Hk Hd) as U.
  rewrite Hc in U. cbn iota in U.
  eexists. eexists.
  split; [exact U|]. split; [reflexivity|]. split; [reflexivity|].
  split; [exact L|]. split; [reflexivity|]. split; [reflexivity|].
  cbn [comp this]. rewrite isEditingData_loading_searching. exact F1.
Qed.

(** [updateData] with a record starts its edition.  With [startSearchAtEdit]
    off, the chain is left as it is: the text put in the input is not
    searched.  With [startSearchAtEdit] on, the text goes through the chain
    like a typed one: 400 ms later, if it is not blank, not a repeat, and the
    repository the edition settled on is not [otherunknown], it is sent to
    [findDataFromRepo] with that repository, and [isLoading] is raised. *)
Theorem edit_text_is_searched_on_request (depth : nat) (ep : string)
    (v : RepositoryItemModel) (s : system) :
  isEditingData (this (comp s)) = false ->
  catalog_consistent (this (comp s)) ->
  2 <= depth ->
  closed (rx s) = false ->
  (exists s1,
      updateData depth ep false (Some v) s = Done tt s1
      /\ rx s1 = rx s
      /\ trace (comp s1) = trace (comp s)
      /\ isEditingData (this (comp s1)) = true
      /\ isSearching (this (comp s1)) = isSearching (this (comp s)))
  /\ (string_forall is_space (startEditingTaxo_inputValue v) = false ->
      strict_eq (currentRepository
                   (setRepository_contract (repository v) (this (comp s))))
                (JStr "otherunknown") = false ->
      distinct_last (rx s) <> Some (Text (startEditingTaxo_inputValue v)) ->
      exists s1 s2,
        updateData depth ep true (Some v) s = Done tt s1
        /\ trace (comp s1) = trace (comp s)
        /\ isSearching (this (comp s1)) = true
        /\ step depth (Elapse 400) s1 = Done tt s2
        /\ trace (comp s2) = trace (comp s) ++
             [FindDataFromRepoCall (lookups_issued (rx s))
                (currentRepository
                   (setRepository_contract (repository v) (this (comp s))))
                (startEditingTaxo_inputValue v)
                (attachRawData (inputs (this (comp s))))]
        /\ isLoading (this (comp s2)) = true
        /\ isEditingData (this (comp s2)) = true).
Proof.
  intros He Hk Hd Hc. split.
  - now apply edit_text_is_not_searched.
  - intros Hs Hr Hl. now apply edit_text_is_searched.
Qed.

Lemma edit_text_is_searched_on_request_witness :
  let s := system_of (configured default_inputs bdtfx_catalog "bdtfx") [] in
  exists s1 s2,
    updateData 2 "Modifier" true (Some (candidate "Rosa canina" false)) s
    = Done tt s1
    /\ trace (comp s1) = []
    /\ isSearching (this (comp s1)) = true
    /\ step 2 (Elapse 400) s1 = Done tt s2
    /\ trace (comp s2)
       = [] ++ [FindDataFromRepoCall 0 (JStr "bdtfx") "Rosa canina L." false].
Proof.
  intros s.
  destruct (edit_text_is_searched_on_request 2 "Modifier"
              (candidate "Rosa canina" false) s) as (_ & H);
    [reflexivity | intros _; reflexivity | lia | reflexivity |].
  destruct H as (s1 & s2 & E1 & T1 & S1 & E2 & T2 & _);
    [reflexivity | reflexivity | discriminate |].
  exists s1, s2. auto.
Defined.

(** ** [initRepo] and [resetComponent] *)

Lemma same_session_refl (c : SearchBoxComponent) : same_session c c.
Proof. repeat split. Qed.

Lemma same_session_trans (c1 c2 c3 : SearchBoxComponent) :
  same_session c1 c2 -> same_session c2 c3 -> same_session c1 c3.
Proof.
  intros (A1 & A2 & A3) (B1 & B2 & B3). repeat split; congruence.
Qed.

Lemma only_announces_ret {A} (a : A) : only_announces (ret a).
Proof.
  intros w. exists a, w. unfold ret. repeat split.
  exists []. now rewrite app_nil_r.
Qed.

Lemma only_announces_bind {A B} (m : M A) (k : A -> M B) :
  only_announces m ->
  (forall a, only_announces (k a)) ->
  only_announces (bind m k).
Proof.
  intros Hm Hk w.
  destruct (Hm w) as (a & w1 & E1 & H1 & R1 & S1 & said1 & T1 & F1).
  destruct (Hk a w1) as (b & w2 & E2 & H2 & R2 & S2 & said2 & T2 & F2).
  exists b, w2. unfold bind. rewrite E1, E2.
  split; [reflexivity|]. split; [congruence|]. split; [congruence|].
  split; [eapply same_session_trans; eauto|].
  exists (said1 ++ said2). split.
  - now rewrite T2, T1, app_assoc.
  - apply Forall_app. auto.
Qed.

Lemma only_announces_assign (f : SearchBoxComponent -> SearchBoxComponent) :
  (forall c, same_session c (f c)) ->
  only_announces (assign f).
Proof.
  intros Hf w. exists tt. eexists. unfold assign. split; [reflexivity|]. fields.
  repeat split; try apply Hf.
  exists []. now rewrite app_nil_r.
Qed.

Lemma only_announces_call (v : jsval) : only_announces (call (SelectedRepository v)).
Proof.
  intros w. exists tt. eexists. unfold call. split; [reflexivity|]. fields.
  repeat split.
  exists [SelectedRepository v]. split; [reflexivity|].
  constructor; [now exists v | constructor].
Qed.

Lemma only_announces_when (b : bool) (m : M unit) :
  only_announces m -> only_announces (when b m).
Proof.
  intros Hm. destruct b; [exact Hm | apply only_announces_ret].
Qed.

Lemma only_announces_clear : only_announces clear_dataFromRepo.
Proof.
  intros w. exists tt. eexists.
  unfold clear_dataFromRepo, bind, new_array, assign.
  split; [reflexivity|]. fields. repeat split.
  exists []. now rewrite app_nil_r.
Qed.

Lemma only_announces_resetInput : only_announces resetInput.
Proof.
  unfold resetInput. apply only_announces_bind.
  - intros w. exists (this w), w. unfold get. repeat split.
    exists []. now rewrite app_nil_r.
  - intros c. destruct (isEditingData c).
    + apply only_announces_ret.
    + apply only_announces_assign. intros c0. repeat split.
Qed.

Lemma only_announces_get : only_announces get.
Proof.
  intros w. exists (this w), w. unfold get. repeat split.
  exists []. now rewrite app_nil_r.
Qed.

Lemma only_announces_valueChanges (v : jsval) :
  only_announces (repository_valueChanges v).
Proof.
  unfold repository_valueChanges.
  apply only_announces_bind;
    [apply only_announces_assign; intros c; repeat split|intros _].
  apply only_announces_bind; [apply only_announces_get|intros c].
  apply only_announces_bind; [|intros _; apply only_announces_call].
  apply only_announces_when.
  apply only_announces_bind; [apply only_announces_resetInput|intros _].
  apply only_announces_clear.
Qed.

Lemma only_announces_setValue (watching : bool) (v : jsval) :
  only_announces (repository_setValue watching v).
Proof.
  unfold repository_setValue.
  apply only_announces_bind;
    [apply only_announces_assign; intros c; repeat split|intros _].
  apply only_announces_when, only_announces_valueChanges.
Qed.

Lemma only_announces_forEach (watching : bool) (d : string)
    (l : list RepositoryDescriptor) :
  forall b : bool, only_announces (initRepo_forEach watching l d b).
Proof.
  induction l as [|repo l IH]; intros b; cbn [initRepo_forEach].
  - apply only_announces_ret.
  - destruct (String.eqb (value repo) d); [|apply IH].
    apply only_announces_bind;
      [apply only_announces_assign; intros c; repeat split|intros _].
    apply only_announces_bind; [apply only_announces_setValue|intros _].
    apply only_announces_bind; [apply only_announces_call|intros _].
    apply IH.
Qed.

(** [initRepo] calls nothing but [selectedRepository]. *)
Lemma initRepo_announces (watching : bool)
    (fromService : string + list RepositoryDescriptor) (d : string)
    (fixed : jsval) :
  only_announces (initRepo watching fromService d fixed).
Proof.
  unfold initRepo.
  apply only_announces_bind;
    [apply only_announces_assign; intros c; repeat split|intros _].
  apply only_announces_bind.
  { destruct fromService.
    - apply only_announces_bind;
        [apply only_announces_assign; intros c; repeat split|intros _].
      apply only_announces_assign; intros c; repeat split.
    - apply only_announces_assign; intros c; repeat split. }
  intros _.
  apply only_announces_bind; [apply only_announces_get|intros c].
  apply only_announces_bind;
    [apply only_announces_when, only_announces_assign; intros c0; repeat split
    |intros _].
  apply only_announces_bind; [apply only_announces_get|intros c'].
  apply only_announces_bind; [apply only_announces_forEach|intros b].
  apply only_announces_bind.
  { destruct (negb b); [|apply only_announces_ret].
    destruct (listRepo c'); [apply only_announces_ret|].
    apply only_announces_bind;
      [apply only_announces_assign; intros c0; repeat split|intros _].
    apply only_announces_bind; [apply only_announces_get|intros c0].
    apply only_announces_bind; [apply only_announces_setValue|intros _].
    apply only_announces_bind; [apply only_announces_get|intros c1].
    apply only_announces_bind; [apply only_announces_call|intros _].
    apply only_announces_ret. }
  intros [|]; [|apply only_announces_ret].
  destruct (truthy fixed); [|apply only_announces_ret].
  apply only_announces_bind; [apply only_announces_get|intros c0].
  apply only_announces_bind.
  { apply only_announces_when.
    apply only_announces_bind;
      [apply only_announces_assign; intros c1; repeat split|intros _].
    apply only_announces_assign; intros c1; repeat split. }
  intros _.
  apply only_announces_bind;
    [apply only_announces_assign; intros c1; repeat split|intros _].
  apply only_announces_bind; [apply only_announces_setValue|intros _].
  apply only_announces_ret.
Qed.

Lemma prepared_fields (fs : string + list RepositoryDescriptor)
    (c : SearchBoxComponent) :
  listRepo (prepared fs c) = initRepo_listRepo (catalog_of fs) c
  /\ inputs (prepared fs c) = inputs c
  /\ noOneRepositoryError (prepared fs c) = service_failed fs
  /\ currentRepository (prepared fs c) = currentRepository c
  /\ form (prepared fs c) = form c
  /\ dataFromRepo (prepared fs c) = dataFromRepo c
  /\ isEditingData (prepared fs c) = isEditingData c.
Proof.
  unfold prepared, initRepo_listRepo.
  destruct fs as [e|l]; cbn [catalog_of service_failed inputs listRepo
    with_listRepo with_noOneRepositoryError with_noOneRepositoryErrorMessage];
    destruct (_allowEmptyRepository (inputs c)); repeat split.
Qed.

(** [initRepo] is the preparation of the catalog, then the resolution. *)
Lemma initRepo_split (watching : bool) (fs : string + list RepositoryDescriptor)
    (d : string) (fixed : jsval) (w : world) :
  initRepo watching fs d fixed w
  = initRepo_resolve watching d fixed (with_this (prepared fs (this w)) w).
Proof.
  unfold initRepo, initRepo_resolve, prepared.
  unfold bind at 1. unfold assign at 1.
  destruct fs as [e|l].
  - unfold bind at 1 2. unfold assign at 1 2. fields.
    unfold bind at 1. unfold get at 1. fields.
    cbn [inputs with_noOneRepositoryError with_noOneRepositoryErrorMessage].
    destruct (_allowEmptyRepository (inputs (this w)));
      cbn [when]; unfold bind at 1; unfold assign at 1, ret at 1; reflexivity.
  - unfold bind at 1. unfold assign at 1. fields.
    unfold bind at 1. unfold get at 1. fields.
    cbn [inputs with_noOneRepositoryError with_listRepo].
    destruct (_allowEmptyRepository (inputs (this w)));
      cbn [when]; unfold bind at 1; unfold assign at 1, ret at 1; reflexivity.
Qed.

Lemma steady_ret {A} (P : A -> Prop) (a : A) : P a -> steady P (ret a).
Proof. intros Ha w. exists a, w. unfold ret. auto. Qed.

Lemma steady_bind {A B} (P : A -> Prop) (Q : B -> Prop) (m : M A) (k : A -> M B) :
  steady P m ->
  (forall a, P a -> steady Q (k a)) ->
  steady Q (bind m k).
Proof.
  intros Hm Hk w.
  destruct (Hm w) as (a & w1 & E1 & Pa & L1 & I1).
  destruct (Hk a Pa w1) as (b & w2 & E2 & Qb & L2 & I2).
  exists b, w2. unfold bind. rewrite E1, E2.
  repeat split; [exact Qb | congruence | congruence].
Qed.

Lemma steady_weaken {A} (P Q : A -> Prop) (m : M A) :
  (forall a, P a -> Q a) -> steady P m -> steady Q m.
Proof.
  intros H Hm w. destruct (Hm w) as (a & w' & E & Pa & L & I).
  exists a, w'. auto.
Qed.

Lemma steady_assign (f : SearchBoxComponent -> SearchBoxComponent) :
  (forall c, listRepo (f c) = listRepo c /\ inputs (f c) = inputs c) ->
  steady (fun _ => True) (assign f).
Proof.
  intros Hf w. exists tt. eexists. unfold assign. split; [reflexivity|]. fields.
  destruct (Hf (this w)). auto.
Qed.

Lemma steady_call (e : effect) : steady (fun _ => True) (call e).
Proof.
  intros w. exists tt. eexists. unfold call. split; [reflexivity|]. fields. auto.
Qed.

Lemma steady_when (b : bool) (m : M unit) :
  steady (fun _ => True) m -> steady (fun _ => True) (when b m).
Proof.
  intros Hm. destruct b; [exact Hm | now apply steady_ret].
Qed.

Lemma steady_get : steady (fun _ => True) get.
Proof. intros w. exists (this w), w. unfold get. auto. Qed.

Lemma steady_valueChanges (v : jsval) :
  steady (fun _ => True) (repository_valueChanges v).
Proof.
  unfold repository_valueChanges.
  eapply steady_bind; [apply steady_assign; intros c; split; reflexivity|intros _ _].
  eapply steady_bind; [apply steady_get|intros c _].
  eapply steady_bind; [|intros _ _; apply steady_call].
  apply steady_when.
  eapply steady_bind with (P := fun _ => True).
  - unfold resetInput. eapply steady_bind; [apply steady_get|intros c0 _].
    destruct (isEditingData c0); [now apply steady_ret|].
    apply steady_assign. intros c1. split; reflexivity.
  - intros _ _. unfold clear_dataFromRepo.
    intros w. exists tt. eexists. unfold bind, new_array, assign.
    split; [reflexivity|]. fields. auto.
Qed.

Lemma steady_setValue (watching : bool) (v : jsval) :
  steady (fun _ => True) (repository_setValue watching v).
Proof.
  unfold repository_setValue.
  eapply steady_bind; [apply steady_assign; intros c; split; reflexivity|intros _ _].
  apply steady_when, steady_valueChanges.
Qed.

Lemma steady_forEach (watching : bool) (d : string) (l : list RepositoryDescriptor) :
  forall b : bool,
    steady (fun b' => l = [] -> b' = b) (initRepo_forEach watching l d b).
Proof.
  induction l as [|repo l IH]; intros b; cbn [initRepo_forEach].
  - now apply steady_ret.
  - apply steady_weaken with (P := fun _ => True); [intros; discriminate|].
    destruct (String.eqb (value repo) d);
      [|eapply steady_weaken; [|apply IH]; auto].
    eapply steady_bind; [apply steady_assign; intros c; split; reflexivity|intros _ _].
    eapply steady_bind; [apply steady_setValue|intros _ _].
    eapply steady_bind; [apply steady_call|intros _ _].
    eapply steady_weaken; [|apply IH]. auto.
Qed.

Lemma steady_resolve (watching : bool) (d : string) (fixed : jsval) (w : world) :
  exists r w',
    initRepo_resolve watching d fixed w = Done r w'
    /\ (r = ThrewTypeError <-> listRepo (this w) = [])
    /\ listRepo (this w') = listRepo (this w)
    /\ inputs (this w') = inputs (this w).
Proof.
  assert (H : steady (fun r => r = ThrewTypeError <-> listRepo (this w) = [])
                (b <- initRepo_forEach watching (listRepo (this w)) d false ;;
                 fallback <-
                   (if negb b then
                      match listRepo (this w) with
                      | firstAvailableRepo :: _ =>
                          assign (with_currentRepository
                                    (JStr (value firstAvailableRepo))) ;;
                          c <- get ;;
                          repository_setValue watching (currentRepository c) ;;
                          c <- get ;;
                          call (SelectedRepository (currentRepository c)) ;;
                          ret Returned
                      | [] => ret ThrewTypeError
                      end
                    else ret Returned) ;;
                 match fallback with
                 | ThrewTypeError => ret ThrewTypeError
                 | Returned =>
                     if truthy fixed then
                       c <- get ;;
                       when (negb (listed fixed (listRepo c)))
                            (assign (with_noOneRepositoryError true) ;;
                             assign (with_noOneRepositoryErrorMessage (Some fixed))) ;;
                       assign (with_currentRepository fixed) ;;
                       repository_setValue watching fixed ;;
                       ret Returned
                     else ret Returned
                 end)).
  { eapply steady_bind; [apply steady_forEach|]. intros b Hb. cbn beta in Hb.
    eapply steady_bind
      with (P := fun r => r = ThrewTypeError <-> listRepo (this w) = []).
    - destruct (listRepo (this w)) as [|first rest] eqn:El.
      + rewrite (Hb eq_refl). cbn [negb]. apply steady_ret. tauto.
      + destruct (negb b).
        * eapply steady_bind;
            [apply steady_assign; intros c; split; reflexivity|intros _ _].
          eapply steady_bind; [apply steady_get|intros c _].
          eapply steady_bind; [apply steady_setValue|intros _ _].
          eapply steady_bind; [apply steady_get|intros c0 _].
          eapply steady_bind; [apply steady_call|intros _ _].
          apply steady_ret. split; discriminate.
        * apply steady_ret. split; discriminate.
    - intros [|] Hr.
      + destruct (truthy fixed); [|now apply steady_ret].
        eapply steady_bind; [apply steady_get|intros c _].
        eapply steady_bind.
        { apply steady_when.
          eapply steady_bind;
            [apply steady_assign; intros c1; split; reflexivity|intros _ _].
          apply steady_assign; intros c1; split; reflexivity. }
        intros _ _.
        eapply steady_bind;
          [apply steady_assign; intros c1; split; reflexivity|intros _ _].
        eapply steady_bind; [apply steady_setValue|intros _ _].
        now apply steady_ret.
      + now apply steady_ret. }
  destruct (H w) as (r & w' & E & P & L & I).
  exists r, w'. unfold initRepo_resolve. unfold bind at 1. unfold get at 1.
  auto.
Qed.

(** [initRepo] leaves a catalog that lists [otherunknown] whenever free
    entry is allowed. *)
Lemma initRepo_leaves_consistent (watching : bool)
    (fromService : string + list RepositoryDescriptor) (d : string)
    (fixed : jsval) (r : completion) (w w' : world) :
  initRepo watching fromService d fixed w = Done r w' ->
  catalog_consistent (this w').
Proof.
  rewrite initRepo_split. intros E.
  destruct (prepared_fields fromService (this w)) as (F1 & F2 & _).
  destruct (steady_resolve watching d fixed
              (with_this (prepared fromService (this w)) w))
    as (r0 & w0 & E0 & _ & L & I).
  rewrite E in E0. inversion E0; subst r0 w0.
  cbn [this with_this] in L, I. rewrite F1 in L. rewrite F2 in I.
  unfold catalog_consistent. rewrite L, I. unfold initRepo_listRepo.
  intros ->. rewrite listed_app. apply orb_true_r.
Qed.

(** [initRepo] always ends.  The catalog it leaves is what the service
    returned (the catalog in place if the service threw) with [otherunknown]
    pushed when free entry is allowed, so it lists [otherunknown] whenever
    free entry is allowed; and [initRepo] throws, on [listRepo[0].value],
    exactly when that catalog is empty. *)
Theorem initRepo_catalog (watching : bool)
    (fromService : string + list RepositoryDescriptor) (d : string)
    (fixed : jsval) (w : world) :
  exists r w',
    initRepo watching fromService d fixed w = Done r w'
    /\ listRepo (this w') = initRepo_listRepo (catalog_of fromService) (this w)
    /\ (r = ThrewTypeError
        <-> initRepo_listRepo (catalog_of fromService) (this w) = [])
    /\ catalog_consistent (this w').
Proof.
  rewrite initRepo_split.
  destruct (prepared_fields fromService (this w)) as (F1 & F2 & _).
  destruct (steady_resolve watching d fixed
              (with_this (prepared fromService (this w)) w))
    as (r & w' & E & P & L & I).
  cbn [this with_this] in P, L, I. rewrite F1 in P, L. rewrite F2 in I.
  exists r, w'. split; [exact E|]. split; [exact L|]. split; [exact P|].
  unfold catalog_consistent. rewrite L, I. unfold initRepo_listRepo.
  intros ->. rewrite listed_app. apply orb_true_r.
Qed.

(** After [initRepo], whatever it was given and however it ended,
    [setRepository] returns for every repository id, with at most one call
    to itself, and does what its contract says. *)
Theorem setRepository_after_initRepo (depth : nat) (watching : bool)
    (fromService : string + list RepositoryDescriptor) (d : string)
    (fixed : jsval) (repository : jsval) (r : completion) (w w' : world) :
  initRepo watching fromService d fixed w = Done r w' ->
  2 <= depth ->
  setRepository depth repository w'
  = Done tt (with_this (setRepository_contract repository (this w')) w').
Proof.
  intros E Hd.
  assert (C : catalog_consistent (this w'))
    by exact (initRepo_leaves_consistent watching fromService d fixed r w w' E).
  destruct depth as [|[|depth']]; [lia|lia|].
  now apply setRepository_returns.
Qed.

Lemma setRepository_after_initRepo_witness :
  exists w',
    initRepo false (inr [ {| value := "bdtfx"; label := "BDTFX" |} ]) "bdtfx"
      JUndefined (world_of constructed [])
    = Done Returned w'
    /\ setRepository 2 (JStr "bdtnx") w'
       = Done tt (with_this (setRepository_contract (JStr "bdtnx") (this w')) w').
Proof.
  eexists. split; [reflexivity|].
  apply (setRepository_after_initRepo 2 false
           (inr [ {| value := "bdtfx"; label := "BDTFX" |} ]) "bdtfx" JUndefined
           (JStr "bdtnx") Returned (world_of constructed []));
    [reflexivity | lia].
Defined.


Lemma chose_trans (watching : bool) (v v' : jsval) (w w1 w2 : world) :
  chose watching v w w1 -> chose watching v' w1 w2 -> chose watching v' w w2.
Proof.
  intros (_ & _ & I1 & A1 & L1 & O1 & E1) (C2 & R2 & I2 & A2 & L2 & O2 & E2).
  unfold chose. rewrite C2, R2, I2, A2, L2, O2, E2, E1, I1, A1, L1, O1.
  repeat split; destruct (negb watching || isEditingData (this w)); reflexivity.
Qed.

Lemma setValue_chose (watching : bool) (v : jsval) (w : world) :
  currentRepository (this w) = v ->
  exists w',
    repository_setValue watching v w = Done tt w'
    /\ chose watching v w w'
    /\ noOneRepositoryError (this w') = noOneRepositoryError (this w)
    /\ trace w' = trace w ++ (if watching then [SelectedRepository v] else []).
Proof.
  intros Hv. unfold repository_setValue. unfold bind at 1. unfold assign at 1.
  destruct watching; cbn [when negb orb].
  - unfold repository_valueChanges. unfold bind at 1. unfold assign at 1. fields.
    unfold bind at 1 2. unfold get at 1. fields.
    cbn [isEditingData with_currentRepository with_form].
    destruct (isEditingData (this w)) eqn:He; cbn [negb when].
    + unfold ret, call. fields. eexists. split; [reflexivity|].
      unfold chose. fields. cbn. rewrite He. repeat split.
    + unfold resetInput, clear_dataFromRepo. unfold bind at 1 2. unfold get at 1.
      fields. cbn [isEditingData with_currentRepository with_form]. rewrite He.
      unfold assign at 1. unfold bind at 1. unfold new_array, assign, call. fields.
      eexists. split; [reflexivity|].
      unfold chose. fields. cbn. rewrite He. repeat split.
  - unfold ret. eexists. split; [reflexivity|].
    unfold chose. fields. cbn. rewrite app_nil_r. repeat split. exact Hv.
Qed.

Lemma choose_chose (watching : bool) (v : jsval) (w : world) :
  exists w',
    repository_setValue watching v
      {| this := with_currentRepository v (this w); heap := heap w;
         arrays := arrays w; validOccurenceRequests := validOccurenceRequests w;
         trace := trace w |}
    = Done tt w'
    /\ chose watching v w w'
    /\ noOneRepositoryError (this w') = noOneRepositoryError (this w)
    /\ trace w' = trace w ++ (if watching then [SelectedRepository v] else []).
Proof.
  match goal with
  | |- context [repository_setValue _ _ ?w0] =>
      destruct (setValue_chose watching v w0 eq_refl) as (w' & E & C & N & T)
  end.
  exists w'. split; [exact E|]. unfold chose in *.
  cbn [this trace form dataFromRepo listRepo inputs isEditingData
       noOneRepositoryError with_currentRepository] in C, N, T.
  auto.
Qed.

Lemma chose_call (watching : bool) (v : jsval) (e : effect) (w w' : world) :
  chose watching v w w' ->
  chose watching v w
    {| this := this w'; heap := heap w'; arrays := arrays w';
       validOccurenceRequests := validOccurenceRequests w';
       trace := trace w' ++ [e] |}.
Proof. intros H. exact H. Qed.

Lemma listed_cons (v : string) (repo : RepositoryDescriptor)
    (l : list RepositoryDescriptor) :
  listed (JStr v) (repo :: l) = String.eqb (value repo) v || listed (JStr v) l.
Proof. reflexivity. Qed.

Lemma default_matches_cons (d : string) (repo : RepositoryDescriptor)
    (l : list RepositoryDescriptor) :
  default_matches d (repo :: l)
  = (if String.eqb (value repo) d then 1 else 0) + default_matches d l.
Proof.
  unfold default_matches.
  destruct (String.eqb (value repo) d) eqn:E.
  - rewrite filter_cons_True; [reflexivity|]. cbn beta. now rewrite E.
  - rewrite filter_cons_False; [reflexivity|]. cbn beta. now rewrite E.
Qed.

Lemma initRepo_forEach_spec (watching : bool) (d : string)
    (l : list RepositoryDescriptor) :
  forall (b : bool) (w : world),
    exists w',
      initRepo_forEach watching l d b w = Done (b || listed (JStr d) l) w'
      /\ trace w'
         = trace w ++ repeat (SelectedRepository (JStr d))
                        ((if watching then 2 else 1) * default_matches d l)
      /\ noOneRepositoryError (this w') = noOneRepositoryError (this w)
      /\ (if listed (JStr d) l then chose watching (JStr d) w w' else w' = w).
Proof.
  induction l as [|repo l IH]; intros b w.
  - exists w. cbn [initRepo_forEach]. unfold ret, default_matches.
    cbn [listed existsb filter length repeat]. rewrite orb_false_r, Nat.mul_0_r.
    cbn [repeat]. rewrite app_nil_r. auto.
  - cbn [initRepo_forEach]. rewrite listed_cons, default_matches_cons.
    destruct (String.eqb (value repo) d); cbn [orb].
    + unfold bind at 1. unfold assign at 1. unfold bind at 1.
      destruct (choose_chose watching (JStr d) w) as (w1 & E1 & C1 & N1 & T1).
      rewrite E1. unfold bind at 1. unfold call at 1.
      match goal with
      | |- context [initRepo_forEach _ _ _ _ ?w2] =>
          destruct (IH true w2) as (w3 & E3 & T3 & N3 & C3)
      end.
      rewrite E3. exists w3. rewrite orb_true_r. cbn [orb] in *.
      cbn [this trace] in T3, N3.
      split; [reflexivity|]. split; [|split; [congruence|]].
      * rewrite T3, T1. rewrite <- !app_assoc. f_equal.
        destruct watching; cbn [app].
        -- replace (2 * (1 + default_matches d l))
             with (S (S (2 * default_matches d l))) by lia.
           reflexivity.
        -- replace (1 * (1 + default_matches d l))
             with (S (1 * default_matches d l)) by lia.
           reflexivity.
      * destruct (listed (JStr d) l).
        -- eapply chose_trans; [apply chose_call; exact C1|exact C3].
        -- subst w3. apply chose_call. exact C1.
    + destruct (IH b w) as (w' & E & T & N & C).
      exists w'. cbn [Nat.add]. auto.
Qed.

Lemma initRepo_fixed_spec (watching : bool) (fixed : jsval) (w : world) :
  exists w',
    (if truthy fixed then
       c <- get ;;
       when (negb (listed fixed (listRepo c)))
            (assign (with_noOneRepositoryError true) ;;
             assign (with_noOneRepositoryErrorMessage (Some fixed))) ;;
       assign (with_currentRepository fixed) ;;
       repository_setValue watching fixed ;;
       ret Returned
     else ret Returned) w
    = Done Returned w'
    /\ (if truthy fixed then chose watching fixed w w' else w' = w)
    /\ noOneRepositoryError (this w')
       = noOneRepositoryError (this w)
         || (truthy fixed && negb (listed fixed (listRepo (this w))))
    /\ trace w'
       = trace w ++ (if watching && truthy fixed
                     then [SelectedRepository fixed] else []).
Proof.
  destruct (truthy fixed).
  - unfold bind at 1. unfold get at 1. unfold bind at 1.
    destruct (listed fixed (listRepo (this w))) eqn:Hl; cbn [negb when andb].
    + unfold ret at 1. unfold bind at 1. unfold assign at 1. unfold bind at 1.
      destruct (choose_chose watching fixed w) as (w' & E & C & N & T).
      rewrite E. unfold ret. exists w'.
      rewrite andb_true_r, orb_false_r. auto.
    + unfold bind at 1. unfold assign at 1 2. fields.
      unfold bind at 1. unfold assign at 1. fields. unfold bind at 1.
      match goal with
      | |- context [repository_setValue _ _ ?w0] =>
          destruct (setValue_chose watching fixed w0 eq_refl)
            as (w' & E & C & N & T)
      end.
      rewrite E. unfold ret. exists w'. split; [reflexivity|].
      unfold chose in *.
      cbn [this trace form dataFromRepo listRepo inputs isEditingData
           noOneRepositoryError with_currentRepository with_noOneRepositoryError
           with_noOneRepositoryErrorMessage] in C, N, T.
      rewrite andb_true_r, orb_true_r. auto.
  - exists w. unfold ret. rewrite andb_false_r, orb_false_r, app_nil_r. auto.
Qed.

Lemma initRepo_resolve_spec (watching : bool) (d : string) (fixed : jsval)
    (w : world) (first : RepositoryDescriptor) (rest : list RepositoryDescriptor) :
  listRepo (this w) = first :: rest ->
  exists w',
    initRepo_resolve watching d fixed w = Done Returned w'
    /\ chose watching
         (if truthy fixed then fixed else initRepo_preferred d (first :: rest)) w w'
    /\ noOneRepositoryError (this w')
       = noOneRepositoryError (this w)
         || (truthy fixed && negb (listed fixed (first :: rest)))
    /\ trace w'
       = trace w
         ++ repeat (SelectedRepository (initRepo_preferred d (first :: rest)))
              ((if watching then 2 else 1) * initRepo_announcements d (first :: rest))
         ++ (if watching && truthy fixed then [SelectedRepository fixed] else []).
Proof.
  intros Hl. unfold initRepo_resolve. unfold bind at 1. unfold get at 1.
  rewrite Hl. unfold bind at 1.
  destruct (initRepo_forEach_spec watching d (first :: rest) false w)
    as (w1 & E1 & T1 & N1 & C1).
  rewrite E1. cbn [orb]. unfold initRepo_preferred, initRepo_announcements.
  destruct (listed (JStr d) (first :: rest)) eqn:Hd; cbn [negb].
  - unfold bind at 1. unfold ret at 1.
    destruct (initRepo_fixed_spec watching fixed w1) as (w' & E & C & N & T).
    rewrite E. exists w'. split; [reflexivity|].
    assert (L1 : listRepo (this w1) = first :: rest).
    { destruct C1 as (_ & _ & _ & _ & L & _). now rewrite L. }
    rewrite L1 in N. rewrite N, N1, T, T1, <- app_assoc.
    split; [|auto].
    destruct (truthy fixed).
    + eapply chose_trans; [exact C1|exact C].
    + now subst w'.
  - subst w1. unfold bind at 1 2. unfold assign at 1. unfold bind at 1.
    unfold get at 1. fields. cbn [currentRepository with_currentRepository].
    unfold bind at 1.
    destruct (choose_chose watching (JStr (value first)) w)
      as (w2 & E2 & C2 & N2 & T2).
    rewrite E2. unfold bind at 1. unfold get at 1. unfold bind at 1.
    unfold call at 1. unfold ret at 1.
    destruct (initRepo_fixed_spec watching fixed
                {| this := this w2; heap := heap w2; arrays := arrays w2;
                   validOccurenceRequests := validOccurenceRequests w2;
                   trace := trace w2
                            ++ [SelectedRepository (currentRepository (this w2))] |})
      as (w' & E & C & N & T).
    rewrite E. exists w'. split; [reflexivity|].
    cbn [this trace] in C, N, T.
    assert (L2 : listRepo (this w2) = first :: rest).
    { destruct C2 as (_ & _ & _ & _ & L & _). now rewrite L. }
    assert (V2 : currentRepository (this w2) = JStr (value first)).
    { now destruct C2. }
    rewrite L2 in N. rewrite N, N2, T, T2, V2, <- !app_assoc.
    split; [|split; [reflexivity|]].
    + destruct (truthy fixed).
      * eapply chose_trans; [apply chose_call; exact C2|exact C].
      * subst w'. apply chose_call. exact C2.
    + f_equal. destruct watching; reflexivity.
Qed.

(** What [initRepo] settles on a catalog that is not empty. *)
Lemma initRepo_resolution_spec (watching : bool)
    (fromService : string + list RepositoryDescriptor) (d : string)
    (fixed : jsval) (w : world)
    (first : RepositoryDescriptor) (rest : list RepositoryDescriptor) :
  initRepo_listRepo (catalog_of fromService) (this w) = first :: rest ->
  exists w',
    initRepo watching fromService d fixed w = Done Returned w'
    /\ currentRepository (this w')
       = (if truthy fixed then fixed else initRepo_preferred d (first :: rest))
    /\ repository_control (form (this w')) = currentRepository (this w')
    /\ noOneRepositoryError (this w')
       = service_failed fromService
         || (truthy fixed && negb (listed fixed (first :: rest)))
    /\ trace w'
       = trace w
         ++ repeat (SelectedRepository (initRepo_preferred d (first :: rest)))
              ((if watching then 2 else 1) * initRepo_announcements d (first :: rest))
         ++ (if watching && truthy fixed then [SelectedRepository fixed] else [])
    /\ input_control (form (this w'))
       = (if negb watching || isEditingData (this w)
          then input_control (form (this w)) else Text "")
    /\ arr_items (dataFromRepo (this w'))
       = (if negb watching || isEditingData (this w)
          then arr_items (dataFromRepo (this w)) else [])
    /\ inputs (this w') = inputs (this w)
    /\ isEditingData (this w') = isEditingData (this w).
Proof.
  intros Hl. rewrite initRepo_split.
  destruct (prepared_fields fromService (this w))
    as (F1 & F2 & F3 & F4 & F5 & F6 & F7).
  remember (prepared fromService (this w)) as c1 eqn:Ec1.
  rewrite Hl in F1.
  destruct (initRepo_resolve_spec watching d fixed (with_this c1 w) first rest F1)
    as (w' & E & (C1 & C2 & C3 & C4 & _ & C6 & C7) & N & T).
  cbn [this trace with_this] in C3, C4, C6, C7, N, T.
  rewrite F5, F7 in C3. rewrite F6, F7 in C4. rewrite F3 in N.
  rewrite F2 in C6. rewrite F7 in C7.
  exists w'. rewrite C2. auto 12.
Qed.

(** What [initRepo] settles on a catalog that is not empty.  The form and the
    component hold the fixed repository if there is one, else the default
    repository if the catalog lists it, else the first entry of the catalog.
    The error flag is up when the service threw or when the fixed repository
    is not in the catalog.  [selectedRepository] gets the default repository
    once per entry of the catalog that has it for value (the first entry once
    if there is none), and twice as often once the watcher of the repository
    control is subscribed, which also emits the fixed repository; the method
    itself never emits the fixed one.  The input and the candidate buffer are
    emptied when the watcher runs outside an edition and stay as they are
    otherwise. *)
Theorem initRepo_resolution (watching : bool)
    (fromService : string + list RepositoryDescriptor) (d : string)
    (fixed : jsval) (w : world)
    (first : RepositoryDescriptor) (rest : list RepositoryDescriptor) :
  initRepo_listRepo (catalog_of fromService) (this w) = first :: rest ->
  exists w',
    initRepo watching fromService d fixed w = Done Returned w'
    /\ currentRepository (this w')
       = (if truthy fixed then fixed else initRepo_preferred d (first :: rest))
    /\ repository_control (form (this w')) = currentRepository (this w')
    /\ noOneRepositoryError (this w')
       = service_failed fromService
         || (truthy fixed && negb (listed fixed (first :: rest)))
    /\ trace w'
       = trace w
         ++ repeat (SelectedRepository (initRepo_preferred d (first :: rest)))
              ((if watching then 2 else 1) * initRepo_announcements d (first :: rest))
         ++ (if watching && truthy fixed then [SelectedRepository fixed] else [])
    /\ input_control (form (this w'))
       = (if negb watching || isEditingData (this w)
          then input_control (form (this w)) else Text "")
    /\ arr_items (dataFromRepo (this w'))
       = (if negb watching || isEditingData (this w)
          then arr_items (dataFromRepo (this w)) else []).
Proof.
  intros Hl.
  destruct (initRepo_resolution_spec watching fromService d fixed w first rest Hl)
    as (w' & E & C & R & N & T & I & A & _).
  exists w'. auto 10.
Qed.

Lemma initRepo_resolution_witness :
  exists w',
    initRepo true (inr [ {| value := "bdtfx"; label := "BDTFX" |} ]) "taxref"
      (JStr "bdtnx") (world_of constructed [])
    = Done Returned w'
    /\ currentRepository (this w') = JStr "bdtnx"
    /\ noOneRepositoryError (this w') = true
    /\ trace w' = [SelectedRepository (JStr "bdtfx");
                   SelectedRepository (JStr "bdtfx");
                   SelectedRepository (JStr "bdtnx")].
Proof.
  destruct (initRepo_resolution true
              (inr [ {| value := "bdtfx"; label := "BDTFX" |} ]) "taxref"
              (JStr "bdtnx") (world_of constructed [])
              {| value := "bdtfx"; label := "BDTFX" |}
              [ {| value := "otherunknown"; label := "Autre/inconnu" |} ]
              eq_refl)
    as (w' & E & C & _ & N & T & _).
  exists w'. split; [exact E|]. split; [exact C|]. split; [exact N|exact T].
Defined.

(** Whatever the service does and whether the watcher of the repository
    control is subscribed or not, [initRepo] ends, by returning or by
    throwing, having called nothing but [selectedRepository]: it emits no
    data, sends nothing to the repository service, touches no object, and
    leaves the options and an edition that is going on as they are. *)
Theorem initRepo_only_announces (watching : bool)
    (fromService : string + list RepositoryDescriptor) (d : string)
    (fixed : jsval) (w : world) :
  exists r w' said,
    initRepo watching fromService d fixed w = Done r w'
    /\ trace w' = trace w ++ said
    /\ Forall announcement said
    /\ heap w' = heap w
    /\ validOccurenceRequests w' = validOccurenceRequests w
    /\ inputs (this w') = inputs (this w)
    /\ isEditingData (this w') = isEditingData (this w)
    /\ editingOccurenceId (this w') = editingOccurenceId (this w).
Proof.
  destruct (initRepo_announces watching fromService d fixed w)
    as (r & w' & E & H & V & (I & S & O) & said & T & A).
  exists r, w', said. auto 10.
Qed.

(** [resetComponent] called during an edition ends it without telling the
    parent: the panel is closed and nothing is emitted but
    [selectedRepository], so no [cancelUpdateData] goes out, unlike with
    [cancelEditingTaxo].  No object is touched, and the input is emptied
    whenever [initRepo] returns. *)
Theorem resetComponent_ends_the_edition_silently (depth : nat) (watching : bool)
    (fromService : string + list RepositoryDescriptor) (d : string)
    (fixed : jsval) (w : world) :
  isEditingData (this w) = true ->
  catalog_consistent (this w) ->
  2 <= depth ->
  exists r w' said,
    resetComponent depth watching fromService d fixed w = Done r w'
    /\ trace w' = trace w ++ ClosePanel :: said
    /\ Forall announcement said
    /\ heap w' = heap w
    /\ isEditingData (this w') = false
    /\ editingOccurenceId (this w') = JNull
    /\ (r = Returned -> input_control (form (this w')) = Text "").
Proof.
  intros He Hc Hd. unfold resetComponent. unfold bind at 1. unfold get at 1.
  rewrite He. cbn [when]. unfold bind at 1.
  destruct (stopEditingTaxo_spec depth w Hc Hd)
    as (w1 & E1 & T1 & H1 & _ & S1 & O1 & _).
  rewrite E1. unfold bind at 1.
  destruct (initRepo_announces watching fromService d fixed w1)
    as (r & w2 & E2 & H2 & _ & (_ & S2 & O2) & said & T2 & A2).
  rewrite E2. destruct r.
  - unfold bind, assign, ret. eexists _, _, said. split; [reflexivity|]. fields.
    cbn [isEditingData editingOccurenceId form with_form input_control].
    rewrite T2, T1, <- app_assoc, H2, H1, S2, S1, O2, O1. auto 10.
  - unfold ret. exists ThrewTypeError, w2, said. split; [reflexivity|].
    rewrite T2, T1, <- app_assoc, H2, H1, S2, S1, O2, O1.
    repeat split; auto. discriminate.
Qed.

Lemma resetComponent_ends_the_edition_silently_witness :
  exists r w' said,
    resetComponent 2 false (inr [ {| value := "bdtfx"; label := "BDTFX" |} ])
      "bdtfx" JUndefined
      (world_of (editing 7 (configured default_inputs bdtfx_catalog "bdtfx")) [])
    = Done r w'
    /\ trace w' = ClosePanel :: said
    /\ Forall announcement said.
Proof.
  destruct (resetComponent_ends_the_edition_silently 2 false
              (inr [ {| value := "bdtfx"; label := "BDTFX" |} ]) "bdtfx" JUndefined
              (world_of (editing 7 (configured default_inputs bdtfx_catalog "bdtfx")) []))
    as (r & w' & said & E & T & A & _);
    [reflexivity | intros _; reflexivity | lia |].
  exists r, w', said. auto.
Defined.

(** ** [ngOnInit]: the value to start with *)

Lemma ngOnInit_start_spec (fromService : string + list RepositoryDescriptor)
    (d : string) (fixed : jsval) (repoIds : list jsval) (R : jsval) (n : string)
    (w : world) (first : RepositoryDescriptor) (rest : list RepositoryDescriptor) :
  initRepo_listRepo (catalog_of fromService) (this w) = first :: rest ->
  exists w',
    ngOnInit_start fromService d fixed repoIds (Some (R, n)) w = Done Returned w'
    /\ currentRepository (this w')
       = (if truthy fixed then fixed else initRepo_preferred d (first :: rest))
    /\ repository_control (form (this w'))
       = (if start_value_accepted repoIds R (this w) then R
          else currentRepository (this w'))
    /\ input_control (form (this w'))
       = (if start_value_accepted repoIds R (this w) then Text n
          else input_control (form (this w)))
    /\ trace w'
       = trace w
         ++ repeat (SelectedRepository (initRepo_preferred d (first :: rest)))
              (initRepo_announcements d (first :: rest))
    /\ inputs (this w') = inputs (this w)
    /\ isEditingData (this w') = isEditingData (this w)
    /\ heap w' = heap w.
Proof.
  intros Hl. unfold ngOnInit_start. unfold bind at 1.
  destruct (initRepo_resolution_spec false fromService d fixed w first rest Hl)
    as (w1 & E1 & C1 & R1 & _ & T1 & I1 & _ & O1 & S1).
  destruct (initRepo_announces false fromService d fixed w)
    as (r & w1' & E1' & H1 & _).
  rewrite E1 in E1'. inversion E1'; subst r w1'. clear E1'.
  rewrite E1. unfold bind at 1. unfold get at 1. unfold bind at 1.
  unfold start_value_accepted. rewrite O1.
  cbn [andb negb orb app] in T1, I1. rewrite Nat.mul_1_l, app_nil_r in T1.
  destruct (existsb (fun id => strict_eq id R) repoIds
            || strict_eq R (JStr "otherunknown")
               && _allowEmptyRepository (inputs (this w))); cbn [when].
  - unfold bind, assign, ret. fields. eexists. split; [reflexivity|]. fields.
    cbn [currentRepository form with_form repository_control input_control
         inputs isEditingData].
    auto 10.
  - unfold ret. exists w1. auto 10.
Qed.

(** [ngOnInit] shows the value to start with without selecting its
    repository: when the repository of the value is known to the service, or
    is [otherunknown] with free entry allowed, the repository control shows
    it and the input shows the name, but the current repository stays the one
    [initRepo] chose, and [selectedRepository] is told of no other one.  A
    value whose repository is not accepted is ignored. *)
Theorem start_value_is_shown_not_selected
    (fromService : string + list RepositoryDescriptor)
    (d : string) (fixed : jsval) (repoIds : list jsval) (R : jsval) (n : string)
    (w : world) (first : RepositoryDescriptor) (rest : list RepositoryDescriptor) :
  initRepo_listRepo (catalog_of fromService) (this w) = first :: rest ->
  exists w',
    ngOnInit_start fromService d fixed repoIds (Some (R, n)) w = Done Returned w'
    /\ currentRepository (this w')
       = (if truthy fixed then fixed else initRepo_preferred d (first :: rest))
    /\ repository_control (form (this w'))
       = (if start_value_accepted repoIds R (this w) then R
          else currentRepository (this w'))
    /\ input_control (form (this w'))
       = (if start_value_accepted repoIds R (this w) then Text n
          else input_control (form (this w)))
    /\ trace w'
       = trace w
         ++ repeat (SelectedRepository (initRepo_preferred d (first :: rest)))
              (initRepo_announcements d (first :: rest)).
Proof.
  intros Hl.
  destruct (ngOnInit_start_spec fromService d fixed repoIds R n w first rest Hl)
    as (w' & E & C & F & I & T & _).
  exists w'. auto.
Qed.

Lemma start_value_is_shown_not_selected_witness :
  exists w',
    ngOnInit_start (inr [ {| value := "bdtfx"; label := "BDTFX" |} ]) "bdtfx"
      JUndefined [JStr "bdtfx"; JStr "taxref"] (Some (JStr "taxref", "Rosa canina"))
      (world_of constructed [])
    = Done Returned w'
    /\ currentRepository (this w') = JStr "bdtfx"
    /\ repository_control (form (this w')) = JStr "taxref"
    /\ input_control (form (this w')) = Text "Rosa canina"
    /\ trace w' = [SelectedRepository (JStr "bdtfx")].
Proof.
  apply (start_value_is_shown_not_selected
           (inr [ {| value := "bdtfx"; label := "BDTFX" |} ]) "bdtfx"
           JUndefined [JStr "bdtfx"; JStr "taxref"] (JStr "taxref") "Rosa canina"
           (world_of constructed []) {| value := "bdtfx"; label := "BDTFX" |}
           [ {| value := "otherunknown"; label := "Autre/inconnu" |} ]).
  reflexivity.
Defined.

(** After [ngOnInit] has shown a value to start with, the first text typed
    is looked up in the current repository, the one [initRepo] chose, not in
    the repository the control shows. *)
Theorem start_value_repository_is_not_searched (depth : nat)
    (fromService : string + list RepositoryDescriptor)
    (d : string) (repoIds : list jsval) (R : jsval) (n t : string)
    (w : world) (first : RepositoryDescriptor) (rest : list RepositoryDescriptor) :
  initRepo_listRepo (catalog_of fromService) (this w) = first :: rest ->
  start_value_accepted repoIds R (this w) = true ->
  strict_eq (initRepo_preferred d (first :: rest)) (JStr "otherunknown") = false ->
  string_forall is_space t = false ->
  exists w' s',
    ngOnInit_start fromService d JUndefined repoIds (Some (R, n)) w
    = Done Returned w'
    /\ repository_control (form (this w')) = R
    /\ run depth [InputChange (Text t); Elapse 400] {| comp := w'; rx := subscribed |}
       = Done tt s'
    /\ trace (comp s')
       = trace w'
         ++ [FindDataFromRepoCall 0 (initRepo_preferred d (first :: rest)) t
               (attachRawData (inputs (this w)))].
Proof.
  intros Hl Ha Hp Ht.
  destruct (ngOnInit_start_spec fromService d JUndefined repoIds R n w first rest Hl)
    as (w' & E & C & F & _ & _ & O & _).
  rewrite Ha in F. cbn [truthy] in C.
  exists w'. eexists. split; [exact E|]. split; [exact F|].
  cbn [run]. unfold step at 1. cbv beta iota zeta.
  unfold lift, bind, assign. cbn [comp rx subscribed closed].
  rewrite step_elapse_lookup with (wait := 400) (t := t).
  - split; [reflexivity|]. cbn [comp this trace inputs currentRepository
      with_form with_isSearching rx lookups_issued].
    now rewrite C, O.
  - reflexivity.
  - lia.
  - discriminate.
  - cbn [comp this currentRepository with_form with_isSearching]. now rewrite C.
  - exact Ht.
Qed.

Lemma start_value_repository_is_not_searched_witness :
  exists w' s',
    ngOnInit_start (inr [ {| value := "bdtfx"; label := "BDTFX" |} ]) "bdtfx"
      JUndefined [JStr "bdtfx"; JStr "taxref"] (Some (JStr "taxref", "Rosa canina"))
      (world_of constructed [])
    = Done Returned w'
    /\ repository_control (form (this w')) = JStr "taxref"
    /\ run 2 [InputChange (Text "quercus"); Elapse 400]
         {| comp := w'; rx := subscribed |}
       = Done tt s'
    /\ trace (comp s')
       = trace w' ++ [FindDataFromRepoCall 0 (JStr "bdtfx") "quercus" false].
Proof.
  apply (start_value_repository_is_not_searched 2
           (inr [ {| value := "bdtfx"; label := "BDTFX" |} ]) "bdtfx"
           [JStr "bdtfx"; JStr "taxref"] (JStr "taxref") "Rosa canina" "quercus"
           (world_of constructed []) {| value := "bdtfx"; label := "BDTFX" |}
           [ {| value := "otherunknown"; label := "Autre/inconnu" |} ]);
    reflexivity.
Defined.
